(** * NimbusAI: turn controller, capability gate, tool executor and browser bridge

    A shallow embedding of the agent core of the repository:
    - [Sandbox], [SandboxAdmin]: the capability gate of the TypeScript server
      (class [Sandbox]: validateOperation, approvePermission, denyPermission,
      clearSession, getAuditLog, addAllowedPath, addDeniedPath) and the
      permission routes that call it;
    - [Tools], [ToolsApi]: the tool executor of the JavaScript server
      (executeTool and its handlers, the permission, deletion, todo and
      progress stores and their exported readers);
    - [Provider], [ProviderStream]: the streaming agent loop
      (AntigravityProvider.query, processStream, addToHistory);
    - [Ollama]: the local provider (OllamaProvider.query, addToHistory,
      clearHistory);
    - [Bridge], [BridgeLog]: the WebSocket command bridge to the browser
      extension (sendCommand, the message handler and the timeout callback).

    Functions of the Node platform that the code calls but does not define
    (path.normalize, path.join, JSON.parse, the file system, the shell, ...)
    are Section variables or calls answered by an arbitrary environment. *)

From Stdlib Require Import ZArith Lia Bool Ascii String.
From stdpp Require Import base option list strings pretty gmap fin_maps fin_sets.

Local Open Scope string_scope.
Local Open Scope list_scope.
Set Warnings "-register-all,-abstract-large-number".

(** ** The Node platform

    Functions of Node's [path] module and values of the [process] object that
    the code reads. They differ between operating systems; every definition
    below takes them from this interface. *)

Class NodePlatform := {
  path_normalize : string -> string;
  path_join : string -> string -> string;
  path_dirname : string -> string;
  path_extname : string -> string;
  (** [process.env.USERPROFILE || process.env.HOME || ''] *)
  userHome : string;
  (** [process.cwd()] *)
  cwd : string;
  (** [process.platform] *)
  platform : string
}.

(** ** JavaScript string primitives used by the code *)

Module JsString.

(** [s.startsWith(p)] *)
Definition startsWith (s p : string) : bool := String.prefix p s.

(** [s.includes(t)] *)
Fixpoint includes (s t : string) : bool :=
  String.prefix t s ||
  match s with
  | EmptyString => false
  | String _ s' => includes s' t
  end.

Definition lower_ascii (c : ascii) : ascii :=
  let n := nat_of_ascii c in
  if (Nat.leb 65 n && Nat.leb n 90)%bool then ascii_of_nat (n + 32) else c.

(** [s.toLowerCase()] on ASCII text *)
Fixpoint toLowerCase (s : string) : string :=
  match s with
  | EmptyString => EmptyString
  | String c s' => String (lower_ascii c) (toLowerCase s')
  end.

(** [s.replace(/\\/g, '/')] *)
Fixpoint backslash_to_slash (s : string) : string :=
  match s with
  | EmptyString => EmptyString
  | String c s' =>
      String (if Ascii.eqb c (ascii_of_nat 92) then ascii_of_nat 47 else c)
             (backslash_to_slash s')
  end.

(** JavaScript truthiness of a string: non-empty. *)
Definition truthy (s : string) : bool :=
  match s with EmptyString => false | _ => true end.

(** [a || b] on strings *)
Definition or_else (a b : string) : string := if truthy a then a else b.

(** [content.split('\n')] *)
Fixpoint split_lines (s : string) : list string :=
  match s with
  | EmptyString => [EmptyString]
  | String c s' =>
      if Ascii.eqb c (ascii_of_nat 10) then EmptyString :: split_lines s'
      else match split_lines s' with
           | [] => [String c EmptyString]
           | l :: ls => String c l :: ls
           end
  end.

Definition is_space (c : ascii) : bool :=
  let n := nat_of_ascii c in
  Nat.eqb n 32 || (Nat.leb 9 n && Nat.leb n 13).

Fixpoint trim_start (s : string) : string :=
  match s with
  | String c s' => if is_space c then trim_start s' else s
  | EmptyString => EmptyString
  end.

(** The text without trailing white space. *)
Fixpoint trim_end (s : string) : string :=
  match s with
  | EmptyString => EmptyString
  | String c s' =>
      match trim_end s' with
      | EmptyString => if is_space c then EmptyString else String c EmptyString
      | t => String c t
      end
  end.

(** [s.trim()] on ASCII text *)
Definition trim (s : string) : string := trim_end (trim_start s).

(** [s.slice(n)] *)
Fixpoint string_slice (n : nat) (s : string) : string :=
  match n, s with
  | O, _ => s
  | S n', String _ s' => string_slice n' s'
  | S _, EmptyString => EmptyString
  end.

End JsString.

(** ** The capability gate (class Sandbox) *)

Module Sandbox.
Import JsString.

Record Permission := {
  perm_id : string;
  perm_sessionId : string;
  perm_operation : string;
  perm_path : string;
  perm_reason : string;
  perm_status : string
}.

Record SandboxConfig := {
  allowedPaths : list string;
  cfg_deniedPaths : list string;
  requireApproval : bool;
  sensitivePaths : list string
}.

Record AuditEntry := {
  au_sessionId : string;
  au_operation : string;
  au_path : string;
  au_action : string;
  au_reason : option string;
  au_permissionId : option string
}.

Record ValidationResult := {
  allowed : bool;
  vr_reason : option string;
  blocked : option bool;
  requiresPermission : option bool;
  permission : option Permission
}.

Record State := {
  config : SandboxConfig;
  pendingPermissions : gmap string Permission;
  approvedPaths : gmap string (gset string);
  deniedPaths : gmap string (gset string);
  auditLog : list AuditEntry
}.

Definition DEFAULT_SENSITIVE_PATHS : list string :=
  [ "Downloads"; "Documents"; "Desktop"; "Pictures"; "Videos"; "Music";
    "AppData"; "Application Data"; ".ssh"; ".aws"; ".config"; ".gnupg";
    ".npmrc"; ".netrc"; "Program Files"; "Program Files (x86)"; "Windows";
    "System32"; "/etc"; "/var"; "/usr"; "/root"; "/home" ].

Definition ALWAYS_BLOCKED_PATHS : list string :=
  [ "System32"; "Windows\System32"; "/etc/passwd"; "/etc/shadow";
    "/etc/sudoers"; ".ssh/id_rsa"; ".ssh/id_ed25519"; ".gnupg/private-keys" ].

Definition DANGEROUS_EXTENSIONS : list string :=
  [ ".exe"; ".bat"; ".cmd"; ".ps1"; ".vbs"; ".sh"; ".bash"; ".zsh" ].

(** The state built by the constructor. *)
Definition initial : State :=
  {| config := {| allowedPaths := [];
                  cfg_deniedPaths := ALWAYS_BLOCKED_PATHS;
                  requireApproval := true;
                  sensitivePaths := DEFAULT_SENSITIVE_PATHS |};
     pendingPermissions := ∅;
     approvedPaths := ∅;
     deniedPaths := ∅;
     auditLog := [] |}.

Section WithPlatform.
Context `{NodePlatform}.

Definition normalizePath (targetPath : string) : string :=
  backslash_to_slash (toLowerCase (path_normalize targetPath)).

Definition isBlocked (st : State) (targetPath : string) : bool :=
  let normalizedPath := normalizePath targetPath in
  existsb (fun blocked => includes normalizedPath (normalizePath blocked))
          (cfg_deniedPaths (config st)).

Definition isSensitive (st : State) (targetPath : string) : bool :=
  let normalizedPath := normalizePath targetPath in
  existsb (fun sensitive =>
             let sensitiveNormalized := normalizePath sensitive in
             let fullSensitivePath := normalizePath (path_join userHome sensitive) in
             includes normalizedPath sensitiveNormalized
             || includes normalizedPath fullSensitivePath)
          (sensitivePaths (config st)).

Definition isApproved (st : State) (sessionId targetPath : string) : bool :=
  match approvedPaths st !! sessionId with
  | None => false
  | Some approved =>
      let normalizedPath := normalizePath targetPath in
      existsb (fun approvedPath => startsWith normalizedPath approvedPath)
              (elements approved)
  end.

Definition isDenied (st : State) (sessionId targetPath : string) : bool :=
  match deniedPaths st !! sessionId with
  | None => false
  | Some denied =>
      let normalizedPath := normalizePath targetPath in
      existsb (fun deniedPath => startsWith normalizedPath deniedPath)
              (elements denied)
  end.

Definition isDangerousExtension (filePath : string) : bool :=
  let ext := toLowerCase (path_extname filePath) in
  existsb (String.eqb ext) DANGEROUS_EXTENSIONS.

(** [logAudit]: push, then keep the last 1000 entries. *)
Definition logAudit (entry : AuditEntry) (st : State) : State :=
  let l := auditLog st ++ [entry] in
  {| config := config st;
     pendingPermissions := pendingPermissions st;
     approvedPaths := approvedPaths st;
     deniedPaths := deniedPaths st;
     auditLog := if Nat.ltb 1000 (length l) then drop (length l - 1000)%nat l else l |}.

Definition audit (sessionId operation path action : string)
    (reason permissionId : option string) : AuditEntry :=
  {| au_sessionId := sessionId; au_operation := operation; au_path := path;
     au_action := action; au_reason := reason; au_permissionId := permissionId |}.

(** [requestPermission]; [newId] is the identifier the code builds from
    Date.now() and Math.random(). *)
Definition requestPermission (newId sessionId operation path reason : string)
    (st : State) : Permission * State :=
  let permission :=
    {| perm_id := newId; perm_sessionId := sessionId;
       perm_operation := operation; perm_path := path;
       perm_reason := reason; perm_status := "pending" |} in
  let st1 :=
    {| config := config st;
       pendingPermissions := <[newId := permission]> (pendingPermissions st);
       approvedPaths := approvedPaths st;
       deniedPaths := deniedPaths st;
       auditLog := auditLog st |} in
  (permission,
   logAudit (audit sessionId operation path "permission_requested" None (Some newId)) st1).

Definition validateOperation (newId sessionId operation targetPath : string)
    (reason : option string) (st : State) : ValidationResult * State :=
  let st := logAudit (audit sessionId operation targetPath "attempt" None None) st in
  if isBlocked st targetPath then
    ({| allowed := false;
        vr_reason := Some "This path is blocked for security reasons";
        blocked := Some true; requiresPermission := None; permission := None |},
     logAudit (audit sessionId operation targetPath "blocked"
                     (Some "Path is in blocked list") None) st)
  else if isDenied st sessionId targetPath then
    ({| allowed := false;
        vr_reason := Some "Access was previously denied";
        blocked := Some false; requiresPermission := None; permission := None |},
     st)
  else if isApproved st sessionId targetPath then
    ({| allowed := true; vr_reason := None; blocked := None;
        requiresPermission := None; permission := None |},
     logAudit (audit sessionId operation targetPath "allowed"
                     (Some "Previously approved") None) st)
  else if requireApproval (config st) && isSensitive st targetPath then
    let '(p, st') :=
      requestPermission newId sessionId operation targetPath
        (match reason with
         | Some r => or_else r (operation +:+ " operation on sensitive path")
         | None => operation +:+ " operation on sensitive path"
         end) st in
    ({| allowed := false; vr_reason := None; blocked := None;
        requiresPermission := Some true; permission := Some p |}, st')
  else if (String.eqb operation "write" || String.eqb operation "execute")
          && isDangerousExtension targetPath then
    let '(p, st') :=
      requestPermission newId sessionId operation targetPath
        "Creating/executing file with potentially dangerous extension" st in
    ({| allowed := false; vr_reason := None; blocked := None;
        requiresPermission := Some true; permission := Some p |}, st')
  else
    ({| allowed := true; vr_reason := None; blocked := None;
        requiresPermission := None; permission := None |},
     logAudit (audit sessionId operation targetPath "allowed" None None) st).

Definition set_status (s : string) (p : Permission) : Permission :=
  {| perm_id := perm_id p; perm_sessionId := perm_sessionId p;
     perm_operation := perm_operation p; perm_path := perm_path p;
     perm_reason := perm_reason p; perm_status := s |}.

(** [map.get(k).add(x)] after [if (!map.has(k)) map.set(k, new Set())]. *)
Definition add_path (sessionId p : string) (m : gmap string (gset string))
    : gmap string (gset string) :=
  <[sessionId := {[p]} ∪ default ∅ (m !! sessionId)]> m.

Definition approvePermission (permissionId : string) (st : State)
    : option Permission * State :=
  match pendingPermissions st !! permissionId with
  | None => (None, st)
  | Some permission =>
      let permission := set_status "approved" permission in
      let sessionId := or_else (perm_sessionId permission) "default" in
      let st1 :=
        {| config := config st;
           pendingPermissions := delete permissionId (pendingPermissions st);
           approvedPaths :=
             add_path sessionId (normalizePath (perm_path permission)) (approvedPaths st);
           deniedPaths := deniedPaths st;
           auditLog := auditLog st |} in
      (Some permission,
       logAudit (audit sessionId (perm_operation permission) (perm_path permission)
                       "approved" None (Some permissionId)) st1)
  end.

Definition denyPermission (permissionId : string) (st : State)
    : option Permission * State :=
  match pendingPermissions st !! permissionId with
  | None => (None, st)
  | Some permission =>
      let permission := set_status "denied" permission in
      let sessionId := or_else (perm_sessionId permission) "default" in
      let st1 :=
        {| config := config st;
           pendingPermissions := delete permissionId (pendingPermissions st);
           approvedPaths := approvedPaths st;
           deniedPaths :=
             add_path sessionId (normalizePath (perm_path permission)) (deniedPaths st);
           auditLog := auditLog st |} in
      (Some permission,
       logAudit (audit sessionId (perm_operation permission) (perm_path permission)
                       "denied" None (Some permissionId)) st1)
  end.

(** Calls a client of the permission gate can make, and runs of them. *)
Inductive Op :=
| OpValidate (newId sessionId operation targetPath : string) (reason : option string)
| OpApprove (permissionId : string)
| OpDeny (permissionId : string).

Definition step (st : State) (o : Op) : State :=
  match o with
  | OpValidate newId s op p r => snd (validateOperation newId s op p r st)
  | OpApprove i => snd (approvePermission i st)
  | OpDeny i => snd (denyPermission i st)
  end.

Definition run (st : State) (ops : list Op) : State := foldl step st ops.

(** Membership of a normalized path in a session's approved / denied set. *)
Definition in_approved (st : State) (sessionId p : string) : Prop :=
  p ∈ default (∅ : gset string) (approvedPaths st !! sessionId).
Definition in_denied (st : State) (sessionId p : string) : Prop :=
  p ∈ default (∅ : gset string) (deniedPaths st !! sessionId).

(** No path is both approved and denied for one session. *)
Definition disjoint_sets (st : State) : Prop :=
  ∀ sessionId p, ¬ (in_approved st sessionId p ∧ in_denied st sessionId p).

(** The session whose sets a resolved permission is recorded in:
    [permission.sessionId || 'default']. *)
Definition effective_session (p : Permission) : string :=
  or_else (perm_sessionId p) "default".

(** [validateOperation] is called for a named session and for a path that has
    no pending permission of that session yet. *)
Definition fresh_request (st : State) (o : Op) : bool :=
  match o with
  | OpValidate _ sessionId _ targetPath _ =>
      truthy sessionId &&
      forallb (fun kv =>
                 negb (String.eqb (effective_session (snd kv)) sessionId
                       && String.eqb (normalizePath (perm_path (snd kv)))
                                     (normalizePath targetPath)))
              (map_to_list (pendingPermissions st))
  | _ => true
  end.

Fixpoint spaced_run (st : State) (ops : list Op) : bool :=
  match ops with
  | [] => true
  | o :: ops' => fresh_request st o && spaced_run (step st o) ops'
  end.

(** The invariant kept by spaced runs: the sets are disjoint, a pending
    permission belongs to a named session and its path is in neither set of
    that session, and a session has at most one pending permission per
    normalized path. *)
Definition gate_inv (st : State) : Prop :=
  disjoint_sets st /\
  (forall i p, pendingPermissions st !! i = Some p ->
     truthy (perm_sessionId p) = true /\
     ~ in_approved st (perm_sessionId p) (normalizePath (perm_path p)) /\
     ~ in_denied st (perm_sessionId p) (normalizePath (perm_path p))) /\
  (forall i1 i2 p1 p2,
     pendingPermissions st !! i1 = Some p1 ->
     pendingPermissions st !! i2 = Some p2 ->
     perm_sessionId p1 = perm_sessionId p2 ->
     normalizePath (perm_path p1) = normalizePath (perm_path p2) ->
     i1 = i2).

End WithPlatform.
End Sandbox.


(** ** JavaScript values

    Tool inputs are parsed JSON; tool results are plain objects. Number
    fields are integers here: the inputs the tool schemas declare as numbers
    (line offsets, timeouts, coordinates, counts) are integral. *)

Module Js.

Inductive jsval :=
| JUndefined
| JNull
| JBool (b : bool)
| JNum (n : Z)
| JNaN
| JStr (s : string)
| JArr (items : list jsval)
| JObj (fields : list (string * jsval)).

(** A thrown [Error]: its message and the extra fields child_process adds. *)
Record JsError := {
  message : string;
  err_stdout : option string;
  err_stderr : option string;
  err_code : jsval
}.

(** [new Error(msg)] *)
Definition Error (msg : string) : JsError :=
  {| message := msg; err_stdout := None; err_stderr := None; err_code := JUndefined |}.

Fixpoint assoc (k : string) (l : list (string * jsval)) : jsval :=
  match l with
  | [] => JUndefined
  | (k', v) :: r => if String.eqb k k' then v else assoc k r
  end.

(** [o.k] for [o] that is not null or undefined. *)
Definition field (o : jsval) (k : string) : jsval :=
  match o with
  | JObj l => assoc k l
  | _ => JUndefined
  end.

Definition nullish (v : jsval) : bool :=
  match v with JUndefined | JNull => true | _ => false end.

(** Truthiness of a value. *)
Definition truthy (v : jsval) : bool :=
  match v with
  | JUndefined | JNull | JNaN => false
  | JBool b => b
  | JNum n => negb (Z.eqb n 0)
  | JStr s => JsString.truthy s
  | JArr _ | JObj _ => true
  end.

(** [v === 's'] for a string literal. *)
Definition is_string (v : jsval) (s : string) : bool :=
  match v with JStr s' => String.eqb s' s | _ => false end.

(** A destructuring default: [{ k = d } = input]. *)
Definition or_default (v d : jsval) : jsval :=
  match v with JUndefined => d | _ => v end.

(** [a || b] *)
Definition or_else (a b : jsval) : jsval := if truthy a then a else b.

(** Template-literal conversion of a value to text. *)
Fixpoint toString (v : jsval) : string :=
  match v with
  | JUndefined => "undefined"
  | JNull => "null"
  | JBool true => "true"
  | JBool false => "false"
  | JNum n => pretty n
  | JNaN => "NaN"
  | JStr s => s
  | JArr l =>
      (fix join (l : list jsval) : string :=
         match l with
         | [] => EmptyString
         | x :: r =>
             (if nullish x then EmptyString else toString x) +:+
             match r with [] => EmptyString | _ => "," +:+ join r end
         end) l
  | JObj _ => "[object Object]"
  end.

(** The double-quote character, for the texts that contain it. *)
Definition dq : string := String (ascii_of_nat 34) EmptyString.

(** The line-feed character. *)
Definition lf : string := String (ascii_of_nat 10) EmptyString.

End Js.

(** ** Programs over the Node runtime

    A tool handler is a program that issues calls to the runtime (file
    system, child processes, network, clock, the browser bridge) and continues
    with the answer. [Call R] is an asynchronous operation that resolves to an
    [R] or rejects with an error; [Query R] is a synchronous read that cannot
    fail. *)

Module Runtime.
Import Js.

Record Stats := { isDirectory : bool; isFile : bool; size : Z }.

Record Dirent := { d_name : string; d_isDirectory : bool }.

Record ExecOptions := {
  opt_timeout : jsval;
  opt_maxBuffer : option Z;
  opt_shell : option string;
  opt_cwd : jsval
}.

Inductive Call : Type -> Type :=
| FsStat (p : jsval) : Call Stats
| FsReadFile (p : jsval) : Call string
| FsReadFileBase64 (p : jsval) : Call string
| FsWriteFile (p : jsval) (content : jsval) : Call unit
| FsMkdir (p : jsval) : Call unit
| FsRename (source destination : jsval) : Call unit
| FsCp (source destination : jsval) : Call unit
| FsCopyFile (source destination : jsval) : Call unit
| FsRm (p : jsval) (recursive : jsval) : Call unit
| FsUnlink (p : jsval) : Call unit
| FsReaddir (p : jsval) : Call (list Dirent)
| Glob (pattern cwd : jsval) (absolute nodir : bool) : Call (list string)
| ExecAsync (command : string) (options : ExecOptions) : Call (string * string)
| FetchUrl (url : jsval) : Call string
| SetTimeout (ms : Z) : Call unit
| SendCommand (action : string) (params : jsval) : Call jsval.

Inductive Query : Type -> Type :=
| DateNow : Query Z
| RandomSuffix : Query string
| IsoTimestamp : Query string
| IsConnected : Query bool.

Inductive Result (R : Type) : Type :=
| Resolved (v : R)
| Rejected (e : JsError).
Arguments Resolved {R} v.
Arguments Rejected {R} e.

Inductive Prog (A : Type) : Type :=
| Ret (a : A)
| Do {R : Type} (c : Call R) (k : Result R -> Prog A)
| Ask {R : Type} (q : Query R) (k : R -> Prog A).
Arguments Ret {A} a.
Arguments Do {A R} c k.
Arguments Ask {A R} q k.

Fixpoint bindProg {A B} (p : Prog A) (f : A -> Prog B) : Prog B :=
  match p with
  | Ret a => f a
  | Do c k => Do c (fun r => bindProg (k r) f)
  | Ask q k => Ask q (fun r => bindProg (k r) f)
  end.

(** What the runtime was asked to do, in order. *)
Inductive Event :=
| EvCall {R : Type} (c : Call R).

(** An environment: a state and an answer to every call and query. *)
Record Env := {
  world : Type;
  respond : forall R, world -> Call R -> world * Result R;
  answer : forall R, world -> Query R -> world * R
}.

(** Run a program in an environment; the calls issued are logged. *)
Fixpoint exec (E : Env) {A} (p : Prog A) (w : world E) : A * world E * list Event :=
  match p with
  | Ret a => (a, w, [])
  | Do c k =>
      let '(w1, r) := respond E _ w c in
      let '(a, w2, tr) := exec E (k r) w1 in
      (a, w2, EvCall c :: tr)
  | Ask q k =>
      let '(w1, r) := answer E _ w q in
      exec E (k r) w1
  end.

(** The path a call deletes, if it is a deletion: fs.rm and fs.unlink. *)
Definition deletion_target (e : Event) : option jsval :=
  match e with
  | EvCall c =>
      match c with
      | FsRm p _ => Some p
      | FsUnlink p => Some p
      | _ => None
      end
  end.

(** The command a call hands to a shell, if it starts a child process. *)
Definition shell_command (e : Event) : option string :=
  match e with
  | EvCall c =>
      match c with
      | ExecAsync command _ => Some command
      | _ => None
      end
  end.

(** [wp P Q p]: whatever the runtime answers, every call [p] issues satisfies
    [P] and every result satisfies [Q]. *)
Fixpoint wp {A} (P : Event -> Prop) (Q : A -> Prop) (p : Prog A) : Prop :=
  match p with
  | Ret a => Q a
  | Do c k => P (EvCall c) /\ forall r, wp P Q (k r)
  | Ask q k => forall r, wp P Q (k r)
  end.

End Runtime.

(** ** The tool executor *)

Module Tools.
Import JsString Js Runtime.

Record PendingDeletion := {
  del_path : jsval;
  del_recursive : jsval;
  del_reason : jsval;
  del_isDirectory : bool;
  del_size : Z;
  del_fileCount : Z;
  del_createdAt : string;
  del_session : string
}.

Record PendingPermission := {
  pp_path : jsval;
  pp_operation : string;
  pp_reason : string;
  pp_sessionId : string;
  pp_requestedAt : string
}.

(** The module-level variables of the executor. *)
Record ToolState := {
  todoStorage : gmap string jsval;
  pendingDeletions : gmap string PendingDeletion;
  pendingPermissions : gmap string PendingPermission;
  approvedPaths : gmap string (gset string);
  progressTracker : gmap string (list jsval);
  (** [browserExtension !== null] *)
  browserExtension : bool;
  currentSessionId : string;
  nircmdAvailable : option bool
}.

Definition initial : ToolState :=
  {| todoStorage := ∅; pendingDeletions := ∅; pendingPermissions := ∅;
     approvedPaths := ∅; progressTracker := ∅; browserExtension := false;
     currentSessionId := "default"; nircmdAvailable := None |}.

Definition SENSITIVE_PATHS : list string :=
  [ "Downloads"; "Documents"; "Desktop"; "Pictures"; "Videos"; "Music";
    "AppData"; "Application Data"; ".ssh"; ".aws"; ".config";
    "Program Files"; "Windows"; "System32" ].

(** String and regular-expression computations of the JavaScript engine whose
    results are payload only: the text written by Edit, the parsed search
    results, the PowerShell script texts, and so on. *)
Class Builtins := {
  (** [content.split(old).join(new)] and [content.replace(old, new)] *)
  replace_all_occurrences : string -> jsval -> jsval -> string;
  replace_first_occurrence : string -> jsval -> jsval -> string;
  (** [new RegExp(pattern, 'gi')] succeeds *)
  regexp_valid : jsval -> bool;
  (** The matches of one file in executeGrep; the regex carries its
      [lastIndex] from one call of [test] to the next. *)
  grep_file : jsval -> jsval -> string -> Z -> list jsval * Z;
  (** The two result parsers of executeWebSearch. *)
  parse_results : string -> jsval -> list jsval;
  parse_links : string -> jsval -> list jsval;
  (** The tag-stripping chain of executeWebFetch. *)
  extract_text : string -> string;
  (** The structure report of one source file in executeCodeAnalysis. *)
  analyze_lines : jsval -> string -> jsval;
  count_by_extension : list string -> jsval;
  (** [JSON.parse] of package.json and the report built from it;
      [None] when parsing throws. *)
  package_report : string -> option jsval;
  (** The text of a generated PowerShell script, by file name and the values
      interpolated into it. *)
  powershell_script : string -> list jsval -> string;
  (** [keys.split('+').map(k => k.trim().toLowerCase()).join('+')] *)
  xdo_keys : string -> string;
  (** [keys.toLowerCase().replace(/control/g, 'ctrl')] *)
  nircmd_keys : string -> string;
  encodeURIComponent : jsval -> string;
  (** The line numbering of executeRead:
      [String(n).padStart(5) + '│ ' + line], joined by newlines. *)
  number_lines : jsval -> list string -> string
}.

(** *** The handler monad: state, exceptions and runtime calls *)

Inductive Res (A : Type) : Type :=
| Ok (a : A)
| Throw (e : JsError).
Arguments Ok {A} a.
Arguments Throw {A} e.

Definition M (A : Type) : Type := ToolState -> Prog (Res A * ToolState).

Definition ret {A} (a : A) : M A := fun st => Ret (Ok a, st).

Definition throw {A} (e : JsError) : M A := fun st => Ret (Throw e, st).

Definition bind {A B} (m : M A) (f : A -> M B) : M B :=
  fun st =>
    bindProg (m st)
      (fun x => match x with
                | (Ok a, st') => f a st'
                | (Throw e, st') => Ret (Throw e, st')
                end).

Notation "'let*' x ':=' m 'in' k" := (bind m (fun x => k))
  (at level 10, x name, m at level 100, k at level 200).

(** [await call] *)
Definition await {R} (c : Call R) : M R :=
  fun st => Do c (fun r => match r with
                           | Resolved v => Ret (Ok v, st)
                           | Rejected e => Ret (Throw e, st)
                           end).

Definition ask {R} (q : Query R) : M R := fun st => Ask q (fun v => Ret (Ok v, st)).

Definition get : M ToolState := fun st => Ret (Ok st, st).

Definition put (st' : ToolState) : M unit := fun _ => Ret (Ok tt, st').

(** [try { m } catch (error) { h error }] *)
Definition try_catch {A} (m : M A) (h : JsError -> M A) : M A :=
  fun st =>
    bindProg (m st)
      (fun x => match x with
                | (Ok a, st') => Ret (Ok a, st')
                | (Throw e, st') => h e st'
                end).

(** Reading a property of, or destructuring, null or undefined throws. *)
Definition object_of (input : jsval) : M jsval :=
  if nullish input then throw (Error "Cannot read properties of undefined") else ret input.

(** A [path] function applied to a value that is not a string throws. *)
Definition path_arg (v : jsval) : M string :=
  match v with
  | JStr s => ret s
  | _ => throw (Error "The path argument must be of type string")
  end.

Definition obj (fields : list (string * jsval)) : jsval := JObj fields.

(** [safe Inv P m]: from a state that satisfies [Inv], every call of [m]
    satisfies [P] and the final state satisfies [Inv], whether [m] returns or
    throws. *)
Definition safe (Inv : ToolState -> Prop) (P : Event -> Prop) {A} (m : M A) : Prop :=
  forall st, Inv st -> wp P (fun x => Inv (snd x)) (m st).

Section WithPlatform.
Context `{NodePlatform} `{Builtins}.

(** *** Permissions for sensitive paths *)

(** The test of [isSensitivePath] on a string. *)
Definition sensitive_path (targetPath : string) : bool :=
  let normalizedPath := toLowerCase (path_normalize targetPath) in
  existsb (fun sensitive =>
             let sensitivePattern := toLowerCase sensitive in
             includes normalizedPath sensitivePattern
             || includes normalizedPath (toLowerCase (path_join userHome sensitive)))
          SENSITIVE_PATHS.

Definition isSensitivePath (targetPath : jsval) : M bool :=
  let* p := path_arg targetPath in
  ret (sensitive_path p).

(** The test of [isPathApproved] against one session's set. *)
Definition approved_prefix (approved : gset string) (targetPath : string) : bool :=
  let normalizedPath := toLowerCase (path_normalize targetPath) in
  existsb (fun approvedPath => startsWith normalizedPath (toLowerCase approvedPath))
          (elements approved).

Definition isPathApproved (sessionId : string) (targetPath : jsval) : M bool :=
  let* st := get in
  match approvedPaths st !! sessionId with
  | None => ret false
  | Some approved =>
      let* p := path_arg targetPath in
      ret (approved_prefix approved p)
  end.

(** [isPathApproved] on a string path, as a function of the state. *)
Definition path_approved (st : ToolState) (sessionId targetPath : string) : bool :=
  match approvedPaths st !! sessionId with
  | None => false
  | Some approved => approved_prefix approved targetPath
  end.

(** [isSensitivePath(p) && !isPathApproved(currentSessionId, p)] *)
Definition needsPermission (targetPath : jsval) : M bool :=
  let* sensitive := isSensitivePath targetPath in
  if sensitive then
    let* st := get in
    let* approved := isPathApproved (currentSessionId st) targetPath in
    ret (negb approved)
  else ret false.

Definition set_pendingPermissions (m : gmap string PendingPermission) (st : ToolState) :=
  {| todoStorage := todoStorage st; pendingDeletions := pendingDeletions st;
     pendingPermissions := m; approvedPaths := approvedPaths st;
     progressTracker := progressTracker st; browserExtension := browserExtension st;
     currentSessionId := currentSessionId st; nircmdAvailable := nircmdAvailable st |}.

Definition set_approvedPaths (m : gmap string (gset string)) (st : ToolState) :=
  {| todoStorage := todoStorage st; pendingDeletions := pendingDeletions st;
     pendingPermissions := pendingPermissions st; approvedPaths := m;
     progressTracker := progressTracker st; browserExtension := browserExtension st;
     currentSessionId := currentSessionId st; nircmdAvailable := nircmdAvailable st |}.

Definition set_pendingDeletions (m : gmap string PendingDeletion) (st : ToolState) :=
  {| todoStorage := todoStorage st; pendingDeletions := m;
     pendingPermissions := pendingPermissions st; approvedPaths := approvedPaths st;
     progressTracker := progressTracker st; browserExtension := browserExtension st;
     currentSessionId := currentSessionId st; nircmdAvailable := nircmdAvailable st |}.

Definition requestPathPermission (targetPath : jsval) (operation reason : string)
    : M jsval :=
  let* now := ask DateNow in
  let* rnd := ask RandomSuffix in
  let permissionId := "perm_" +:+ pretty now +:+ "_" +:+ rnd in
  let* requestedAt := ask IsoTimestamp in
  let* st := get in
  let* _ := put (set_pendingPermissions
         (<[permissionId := {| pp_path := targetPath; pp_operation := operation;
                               pp_reason := reason;
                               pp_sessionId := currentSessionId st;
                               pp_requestedAt := requestedAt |}]>
            (pendingPermissions st)) st) in
  ret (obj [ ("requires_permission", JBool true);
             ("permission_id", JStr permissionId);
             ("path", targetPath);
             ("operation", JStr operation);
             ("message", JStr ("Permission required to " +:+ operation +:+
                               " in sensitive location: " +:+ toString targetPath));
             ("reason", JStr reason);
             ("instruction", JStr "User must approve this action. Use ConfirmPermission tool with this permission_id after user approval.") ]).

(** Keys of the stores are strings; a lookup with any other value finds
    nothing. *)
Definition key_of (v : jsval) : option string :=
  match v with JStr s => Some s | _ => None end.

Definition confirmPermission (permissionId : jsval) (st : ToolState)
    : Res jsval * ToolState :=
  match key_of permissionId ≫= fun k => pendingPermissions st !! k with
  | None => (Ok (obj [("error", JStr "Permission request not found or expired")]), st)
  | Some perm =>
      match pp_path perm with
      | JStr p =>
          let st1 :=
            set_approvedPaths
              (<[pp_sessionId perm :=
                   {[path_normalize p]}
                   ∪ default ∅ (approvedPaths st !! pp_sessionId perm)]>
                 (approvedPaths st)) st in
          let st2 :=
            set_pendingPermissions
              (match key_of permissionId with
               | Some k => delete k (pendingPermissions st1)
               | None => pendingPermissions st1
               end) st1 in
          (Ok (obj [("approved", JBool true); ("path", pp_path perm)]), st2)
      | _ =>
          (Throw (Error "The path argument must be of type string"),
           set_approvedPaths
             (match approvedPaths st !! pp_sessionId perm with
              | Some _ => approvedPaths st
              | None => <[pp_sessionId perm := ∅]> (approvedPaths st)
              end) st)
      end
  end.

Definition denyPermission (permissionId : jsval) (st : ToolState)
    : Res jsval * ToolState :=
  match key_of permissionId ≫= fun k => pendingPermissions st !! k with
  | None => (Ok (obj [("error", JStr "Permission request not found")]), st)
  | Some perm =>
      (Ok (obj [("denied", JBool true); ("path", pp_path perm)]),
       set_pendingPermissions
         (match key_of permissionId with
          | Some k => delete k (pendingPermissions st)
          | None => pendingPermissions st
          end) st)
  end.

(** *** File tools *)

(** [list.slice(start, end)] *)
Definition slice {A} (l : list A) (start stop : Z) : list A :=
  let len := Z.of_nat (length l) in
  let clamp i := if (i <? 0)%Z then Z.max (len + i) 0 else Z.min i len in
  let a := clamp start in
  let b := clamp stop in
  take (Z.to_nat (b - a)) (drop (Z.to_nat a) l).

(** [list.slice(start)] *)
Definition slice_from {A} (l : list A) (start : Z) : list A :=
  slice l start (Z.of_nat (length l)).

(** [v > 0] for a number field. *)
Definition positive (v : jsval) : bool :=
  match v with JNum n => (0 <? n)%Z | _ => false end.

Definition to_int (v : jsval) : Z :=
  match v with JNum n => n | _ => 0%Z end.

Definition js_length (v : jsval) : M jsval :=
  match v with
  | JUndefined | JNull => throw (Error "Cannot read properties of undefined (reading 'length')")
  | JStr s => ret (JNum (Z.of_nat (String.length s)))
  | JArr l => ret (JNum (Z.of_nat (length l)))
  | _ => ret JUndefined
  end.

Definition executeRead (input : jsval) : M jsval :=
  let* input := object_of input in
  let file_path := field input "file_path" in
  let offset := or_default (field input "offset") (JNum 0) in
  let limit := field input "limit" in
  let* ask_first := needsPermission file_path in
  if ask_first then
    requestPathPermission file_path "read" "Reading files from this location"
  else
    let* content := await (FsReadFile file_path) in
    let lines := split_lines content in
    let result := lines in
    let result := if positive offset then slice_from result (to_int offset - 1) else result in
    let result := if truthy limit then slice result 0 (to_int limit) else result in
    let startLine := or_else offset (JNum 1) in
    let numbered := number_lines startLine result in
    ret (obj [ ("content", JStr numbered);
               ("total_lines", JNum (Z.of_nat (length lines))) ]).

Definition executeWrite (input : jsval) : M jsval :=
  let* input := object_of input in
  let file_path := field input "file_path" in
  let content := field input "content" in
  let* ask_first := needsPermission file_path in
  if ask_first then
    requestPathPermission file_path "write" "Writing files to this location"
  else
    let* p := path_arg file_path in
    let* _ := await (FsMkdir (JStr (path_dirname p))) in
    let* _ := await (FsWriteFile file_path content) in
    let* bytes := js_length content in
    ret (obj [ ("success", JBool true); ("path", file_path); ("bytes", bytes) ]).

(** [content.includes(old_string)] *)
Definition content_includes (content : string) (old_string : jsval) : bool :=
  includes content (toString old_string).

Definition executeEdit (input : jsval) : M jsval :=
  let* input := object_of input in
  let file_path := field input "file_path" in
  let old_string := field input "old_string" in
  let new_string := field input "new_string" in
  let replace_all := or_default (field input "replace_all") (JBool false) in
  let* ask_first := needsPermission file_path in
  if ask_first then
    requestPathPermission file_path "edit" "Editing files in this location"
  else
    let* content := await (FsReadFile file_path) in
    if negb (content_includes content old_string) then
      match old_string with
      | JStr o =>
          ret (obj [ ("error", JStr ("String not found: " +:+ dq +:+
                                     String.substring 0 100 o +:+ "..." +:+ dq)) ])
      | JArr l =>
          ret (obj [ ("error", JStr ("String not found: " +:+ dq +:+
                                     toString (JArr (take 100 l)) +:+ "..." +:+ dq)) ])
      | _ => throw (Error "old_string.slice is not a function")
      end
    else
      let newContent :=
        if truthy replace_all
        then replace_all_occurrences content old_string new_string
        else replace_first_occurrence content old_string new_string in
      let* _ := await (FsWriteFile file_path (JStr newContent)) in
      ret (obj [ ("success", JBool true); ("path", file_path) ]).

Definition strings (l : list string) : jsval := JArr (map JStr l).

Definition executeGlob (input : jsval) : M jsval :=
  let* input := object_of input in
  let pattern := field input "pattern" in
  let searchPath := or_default (field input "path") (JStr cwd) in
  let* matches := await (Glob pattern searchPath true false) in
  ret (obj [ ("files", strings (take 200 matches));
             ("count", JNum (Z.of_nat (length matches))) ]).

(** The body of the loop of executeGrep over the first fifty files. *)
Fixpoint grep_files (pattern : jsval) (files : list jsval) (results : list jsval)
    (lastIndex : Z) : M (list jsval) :=
  match files with
  | [] => ret results
  | file :: rest =>
      let* step :=
        try_catch
          (let* content := await (FsReadFile file) in
           let '(found, lastIndex') := grep_file pattern file content lastIndex in
           let results' := results ++ found in
           ret (results', lastIndex', Nat.ltb 100 (length results')))
          (fun _ => ret (results, lastIndex, false)) in
      let '(results', lastIndex', stop) := step in
      if stop then ret results' else grep_files pattern rest results' lastIndex'
  end.

Definition executeGrep (input : jsval) : M jsval :=
  let* input := object_of input in
  let pattern := field input "pattern" in
  let searchPath := or_default (field input "path") (JStr cwd) in
  let include := field input "include" in
  if negb (regexp_valid pattern) then throw (Error "Invalid regular expression") else
  let* files :=
    if truthy include then
      let* found := await (Glob include searchPath true false) in ret (map JStr found)
    else
      let* stat := await (FsStat searchPath) in
      if isFile stat then ret [searchPath]
      else
        let* found := await (Glob (JStr "**/*") searchPath true true) in
        ret (map JStr found) in
  let* results := grep_files pattern (take 50 files) [] 0%Z in
  ret (obj [ ("matches", JArr results);
             ("count", JNum (Z.of_nat (length results))) ]).

(** The [Promise.all(entries.map(...))] of executeListDir: one stat per entry
    that is not a directory; a failing stat leaves the size null. *)
Fixpoint list_items (dirPath : string) (entries : list Dirent) : M (list jsval) :=
  match entries with
  | [] => ret []
  | e :: rest =>
      let fullPath := path_join dirPath (d_name e) in
      let* size :=
        if d_isDirectory e then ret JNull
        else try_catch
               (let* stat := await (FsStat (JStr fullPath)) in ret (JNum (size stat)))
               (fun _ => ret JNull) in
      let* items := list_items dirPath rest in
      ret (obj [ ("name", JStr (d_name e));
                 ("type", JStr (if d_isDirectory e then "directory" else "file"));
                 ("size", size) ] :: items)
  end.

Definition executeListDir (input : jsval) : M jsval :=
  let* input := object_of input in
  let dirPath := field input "path" in
  let* ask_first := needsPermission dirPath in
  if ask_first then
    requestPathPermission dirPath "list" "Listing files in this location"
  else
    let* entries := await (FsReaddir dirPath) in
    let* d := path_arg dirPath in
    let* items := list_items d entries in
    ret (obj [ ("items", JArr items); ("count", JNum (Z.of_nat (length items))) ]).

Definition executeMakeDir (input : jsval) : M jsval :=
  let* input := object_of input in
  let* ask_first := needsPermission (field input "path") in
  if ask_first then
    requestPathPermission (field input "path") "create directory"
      "Creating directory in this location"
  else
    let* _ := await (FsMkdir (field input "path")) in
    ret (obj [ ("success", JBool true); ("path", field input "path") ]).

Definition executeMove (input : jsval) : M jsval :=
  let* input := object_of input in
  let* ask_source := needsPermission (field input "source") in
  if ask_source then
    requestPathPermission (field input "source") "move from"
      "Moving files from this location"
  else
  let* ask_destination := needsPermission (field input "destination") in
  if ask_destination then
    requestPathPermission (field input "destination") "move to"
      "Moving files to this location"
  else
    let* _ := await (FsRename (field input "source") (field input "destination")) in
    ret (obj [ ("success", JBool true); ("source", field input "source");
               ("destination", field input "destination") ]).

Definition executeCopy (input : jsval) : M jsval :=
  let* input := object_of input in
  let source := field input "source" in
  let destination := field input "destination" in
  let* ask_source := needsPermission source in
  if ask_source then
    requestPathPermission source "copy from" "Copying files from this location"
  else
  let* ask_destination := needsPermission destination in
  if ask_destination then
    requestPathPermission destination "copy to" "Copying files to this location"
  else
    let* stat := await (FsStat source) in
    let* _ :=
      if isDirectory stat then await (FsCp source destination)
      else
        let* d := path_arg destination in
        let* _ := await (FsMkdir (JStr (path_dirname d))) in
        await (FsCopyFile source destination) in
    ret (obj [ ("success", JBool true); ("source", source);
               ("destination", destination) ]).

(** *** Two-phase deletion *)

(** Delete only records a pending deletion. *)
Definition executeDelete (input : jsval) : M jsval :=
  let* input := object_of input in
  let targetPath := field input "path" in
  let recursive := or_default (field input "recursive") (JBool false) in
  let reason := or_default (field input "reason") (JStr "No reason provided") in
  let* found :=
    try_catch (let* stat := await (FsStat targetPath) in ret (Some stat))
              (fun _ => ret None) in
  match found with
  | None => ret (obj [ ("error", JStr ("Path not found: " +:+ toString targetPath)) ])
  | Some stat =>
      let* now := ask DateNow in
      let* rnd := ask RandomSuffix in
      let deletionId := "del_" +:+ pretty now +:+ "_" +:+ rnd in
      let* fileCount :=
        if isDirectory stat then
          let* files := await (Glob (JStr "**/*") targetPath false true) in
          ret (Z.of_nat (length files))
        else ret 1%Z in
      let size := size stat in
      let* createdAt := ask IsoTimestamp in
      let* st := get in
      let* _ :=
        put (set_pendingDeletions
               (<[deletionId := {| del_path := targetPath; del_recursive := recursive;
                                   del_reason := reason;
                                   del_isDirectory := isDirectory stat;
                                   del_size := size; del_fileCount := fileCount;
                                   del_createdAt := createdAt;
                                   del_session := currentSessionId st |}]>
                  (pendingDeletions st)) st) in
      ret (obj [ ("requires_approval", JBool true);
                 ("deletion_id", JStr deletionId);
                 ("path", targetPath);
                 ("type", JStr (if isDirectory stat then "directory" else "file"));
                 ("file_count", JNum fileCount);
                 ("reason", reason);
                 ("message",
                  JStr ("Deletion request created. User must approve deletion of " +:+
                        toString targetPath +:+ ". Use ConfirmDelete with deletion_id=" +:+
                        dq +:+ deletionId +:+ dq +:+ " after user approval.")) ])
  end.

(** ConfirmDelete executes a pending deletion; the entry is removed only when
    the deletion succeeded. *)
Definition executeConfirmDelete (input : jsval) : M jsval :=
  let* input := object_of input in
  let deletion_id := field input "deletion_id" in
  let* st := get in
  match key_of deletion_id ≫= fun k => pendingDeletions st !! k with
  | None =>
      ret (obj [ ("error", JStr ("No pending deletion found with id: " +:+
                                 toString deletion_id +:+
                                 ". It may have expired or already been processed.")) ])
  | Some pending =>
      let targetPath := del_path pending in
      try_catch
        (let* _ :=
           if del_isDirectory pending
           then await (FsRm targetPath (del_recursive pending))
           else await (FsUnlink targetPath) in
         let* st := get in
         let* _ :=
           put (set_pendingDeletions
                  (match key_of deletion_id with
                   | Some k => delete k (pendingDeletions st)
                   | None => pendingDeletions st
                   end) st) in
         ret (obj [ ("success", JBool true); ("path", targetPath);
                    ("message", JStr ("Successfully deleted " +:+ toString targetPath)) ]))
        (fun error =>
           ret (obj [ ("error", JStr ("Failed to delete: " +:+ message error)) ]))
  end.

Definition executeCancelDelete (input : jsval) : M jsval :=
  let* input := object_of input in
  let deletion_id := field input "deletion_id" in
  let* st := get in
  match key_of deletion_id ≫= fun k => pendingDeletions st !! k with
  | None =>
      ret (obj [ ("error", JStr ("No pending deletion found with id: " +:+
                                 toString deletion_id)) ])
  | Some pending =>
      let* _ :=
        put (set_pendingDeletions
               (match key_of deletion_id with
                | Some k => delete k (pendingDeletions st)
                | None => pendingDeletions st
                end) st) in
      ret (obj [ ("success", JBool true); ("cancelled", JBool true);
                 ("path", del_path pending);
                 ("message", JStr ("Deletion of " +:+ toString (del_path pending) +:+
                                   " has been cancelled.")) ])
  end.

Definition set_progressTracker (m : gmap string (list jsval)) (st : ToolState) :=
  {| todoStorage := todoStorage st; pendingDeletions := pendingDeletions st;
     pendingPermissions := pendingPermissions st; approvedPaths := approvedPaths st;
     progressTracker := m; browserExtension := browserExtension st;
     currentSessionId := currentSessionId st; nircmdAvailable := nircmdAvailable st |}.

Definition executeProgress (input : jsval) : M jsval :=
  let* input := object_of input in
  let step := field input "step" in
  let details := or_default (field input "details") (JStr EmptyString) in
  let percent := field input "percent" in
  let* timestamp := ask IsoTimestamp in
  let progressEntry :=
    obj [ ("step", step); ("details", details);
          ("percent", or_else percent JNull); ("timestamp", JStr timestamp) ] in
  let* st := get in
  let entries := default [] (progressTracker st !! currentSessionId st) ++ [progressEntry] in
  let entries :=
    if Nat.ltb 50 (length entries) then drop (length entries - 50) entries else entries in
  let* _ := put (set_progressTracker (<[currentSessionId st := entries]> (progressTracker st)) st) in
  ret (obj [ ("reported", JBool true); ("step", step); ("details", details);
             ("percent", percent);
             ("message", JStr ("Progress: " +:+ toString step)) ]).

(** *** System tools *)

Definition dangerous : list string := [ "rm -rf /"; "mkfs"; ":(){"; "format c:" ].

Definition executeBash (input : jsval) : M jsval :=
  let* input := object_of input in
  let command := field input "command" in
  let timeout := or_default (field input "timeout") (JNum 120000) in
  let cwd_in := field input "cwd" in
  let* command :=
    match command with
    | JStr c => ret c
    | _ => throw (Error "command.toLowerCase is not a function")
    end in
  if existsb (fun d => includes (toLowerCase command) d) dangerous then
    ret (obj [ ("error", JStr "Blocked: dangerous command pattern detected") ])
  else
    try_catch
      (let options :=
         {| opt_timeout := timeout;
            opt_maxBuffer := Some (10 * 1024 * 1024)%Z;
            opt_shell := Some (if String.eqb platform "win32"
                               then "powershell.exe" else "/bin/bash");
            opt_cwd := Js.or_else cwd_in (JStr cwd) |} in
       let* out := await (ExecAsync command options) in
       ret (obj [ ("stdout", JStr (String.substring 0 30000 (fst out)));
                  ("stderr", JStr (String.substring 0 5000 (snd out)));
                  ("success", JBool true) ]))
      (fun error =>
         ret (obj [ ("stdout",
                     JStr (JsString.or_else
                             (String.substring 0 30000 (default EmptyString (err_stdout error)))
                             EmptyString));
                    ("stderr",
                     JStr (JsString.or_else
                             (String.substring 0 5000 (default EmptyString (err_stderr error)))
                             (message error)));
                    ("exit_code", err_code error);
                    ("success", JBool false) ])).

(** *** Web tools *)

Definition executeWebSearch (input : jsval) : M jsval :=
  let* input := object_of input in
  let query := field input "query" in
  let num_results := or_default (field input "num_results") (JNum 5) in
  let searchUrl := "https://html.duckduckgo.com/html/?q=" +:+ encodeURIComponent query in
  try_catch
    (let* html := await (FetchUrl (JStr searchUrl)) in
     let results := parse_results html num_results in
     let results :=
       match results with
       | [] => parse_links html num_results
       | _ => results
       end in
     ret (obj [ ("results", JArr results);
                ("count", JNum (Z.of_nat (length results)));
                ("query", query) ]))
    (fun error =>
       ret (obj [ ("error", JStr ("Search failed: " +:+ message error));
                  ("query", query) ])).

Definition executeWebFetch (input : jsval) : M jsval :=
  let* input := object_of input in
  let url := field input "url" in
  let extract := or_default (field input "extract_text") (JBool true) in
  try_catch
    (let* html := await (FetchUrl url) in
     if truthy extract then
       let text := String.substring 0 15000 (extract_text html) in
       ret (obj [ ("content", JStr text); ("url", url); ("type", JStr "text") ])
     else
       ret (obj [ ("content", JStr (String.substring 0 30000 html)); ("url", url);
                  ("type", JStr "html") ]))
    (fun error =>
       ret (obj [ ("error", JStr ("Fetch failed: " +:+ message error)); ("url", url) ])).

(** *** Task tools *)

Definition set_todoStorage (m : gmap string jsval) (st : ToolState) :=
  {| todoStorage := m; pendingDeletions := pendingDeletions st;
     pendingPermissions := pendingPermissions st; approvedPaths := approvedPaths st;
     progressTracker := progressTracker st; browserExtension := browserExtension st;
     currentSessionId := currentSessionId st; nircmdAvailable := nircmdAvailable st |}.

(** [todos.filter(t => t.status === status).length] *)
Definition count_status (todos : list jsval) (status : string) : Z :=
  Z.of_nat (length (List.filter (fun t => is_string (field t "status") status) todos)).

Definition executeTodoWrite (input : jsval) : M jsval :=
  let* input := object_of input in
  let todos := field input "todos" in
  let* st := get in
  let* _ := put (set_todoStorage (<[currentSessionId st := todos]> (todoStorage st)) st) in
  match todos with
  | JArr l =>
      if existsb nullish l then throw (Error "Cannot read properties of null (reading 'status')")
      else
        let summary :=
          obj [ ("pending", JNum (count_status l "pending"));
                ("in_progress", JNum (count_status l "in_progress"));
                ("completed", JNum (count_status l "completed"));
                ("total", JNum (Z.of_nat (length l))) ] in
        ret (obj [ ("success", JBool true); ("summary", summary); ("todos", todos) ])
  | _ => throw (Error "todos.filter is not a function")
  end.

Definition executeTodoRead : M jsval :=
  let* st := get in
  let todos := Js.or_else (default JUndefined (todoStorage st !! currentSessionId st)) (JArr []) in
  let* count := js_length todos in
  ret (obj [ ("todos", todos); ("count", count) ]).

(** *** Analysis tools *)

Definition executeCodeAnalysis (input : jsval) : M jsval :=
  let* input := object_of input in
  let targetPath := field input "path" in
  let type := or_default (field input "type") (JStr "structure") in
  let* stat := await (FsStat targetPath) in
  if is_string type "structure" then
    if isFile stat then
      let* content := await (FsReadFile targetPath) in
      ret (analyze_lines targetPath content)
    else
      let* files := await (Glob (JStr "**/*") targetPath false true) in
      ret (obj [ ("directory", targetPath);
                 ("totalFiles", JNum (Z.of_nat (length files)));
                 ("byExtension", count_by_extension files) ])
  else if is_string type "dependencies" then
    let* pkgPath :=
      if isFile stat then
        let* p := path_arg targetPath in ret (JStr (path_dirname p))
      else ret targetPath in
    try_catch
      (let* dir := path_arg pkgPath in
       let* text := await (FsReadFile (JStr (path_join dir "package.json"))) in
       match package_report text with
       | Some report => ret report
       | None => throw (Error "Unexpected token in JSON")
       end)
      (fun _ => ret (obj [ ("error", JStr "No package.json found") ]))
  else ret (obj [ ("error", JStr ("Unknown analysis type: " +:+ toString type)) ]).

(** *** Computer-use tools *)

Definition no_options : ExecOptions :=
  {| opt_timeout := JUndefined; opt_maxBuffer := None; opt_shell := None;
     opt_cwd := JUndefined |}.

Definition with_timeout (ms : Z) : ExecOptions :=
  {| opt_timeout := JNum ms; opt_maxBuffer := None; opt_shell := None;
     opt_cwd := JUndefined |}.

Definition set_nircmdAvailable (b : option bool) (st : ToolState) :=
  {| todoStorage := todoStorage st; pendingDeletions := pendingDeletions st;
     pendingPermissions := pendingPermissions st; approvedPaths := approvedPaths st;
     progressTracker := progressTracker st; browserExtension := browserExtension st;
     currentSessionId := currentSessionId st; nircmdAvailable := b |}.

Definition checkNircmd : M bool :=
  let* st := get in
  match nircmdAvailable st with
  | Some b => ret b
  | None =>
      let* available :=
        try_catch (let* _ := await (ExecAsync "nircmd --help" (with_timeout 2000)) in ret true)
                  (fun _ => ret false) in
      let* st := get in
      let* _ := put (set_nircmdAvailable (Some available) st) in
      ret available
  end.

Definition quoted (s : string) : string := dq +:+ s +:+ dq.

(** Write a PowerShell script, run it, and unlink it. *)
Definition run_script (name : string) (args : list jsval) (timeout : Z) : M unit :=
  let scriptPath := path_join cwd name in
  let psScript := powershell_script name args in
  let* _ := await (FsWriteFile (JStr scriptPath) (JStr psScript)) in
  let* _ := await (ExecAsync ("powershell -ExecutionPolicy Bypass -File " +:+ quoted scriptPath)
                             (with_timeout timeout)) in
  await (FsUnlink (JStr scriptPath)).

Definition executeScreenshot (input : jsval) : M jsval :=
  let* now := ask DateNow in
  let screenshotPath := path_join cwd ("screenshot_" +:+ pretty now +:+ ".png") in
  try_catch
    (let* _ :=
       if String.eqb platform "win32" then
         let* hasNircmd := checkNircmd in
         if hasNircmd then
           let* _ := await (ExecAsync ("nircmd savescreenshot " +:+ quoted screenshotPath)
                                      (with_timeout 5000)) in ret tt
         else run_script "screenshot_script.ps1" [JStr screenshotPath] 30000
       else if String.eqb platform "darwin" then
         let* _ := await (ExecAsync ("screencapture -x " +:+ quoted screenshotPath) no_options) in
         ret tt
       else
         let* _ := await (ExecAsync ("scrot " +:+ quoted screenshotPath) no_options) in
         ret tt in
     let* base64 := await (FsReadFileBase64 (JStr screenshotPath)) in
     let* _ := await (FsUnlink (JStr screenshotPath)) in
     ret (obj [ ("success", JBool true);
                ("image", JStr ("data:image/png;base64," +:+ base64));
                ("path", JStr screenshotPath);
                ("message", JStr "Screenshot captured successfully") ]))
    (fun error => ret (obj [ ("error", JStr ("Screenshot failed: " +:+ message error)) ])).

(** [Math.round((v / 1000) * extent)] for extent 1920 or 1080. *)
Definition scale (v : jsval) (extent : Z) : jsval :=
  match v with
  | JNum n => JNum ((n * extent * 2 + 1000) / 2000)%Z
  | _ => JNaN
  end.

Definition executeMouseClick (input : jsval) : M jsval :=
  let* input := object_of input in
  let x := field input "x" in
  let y := field input "y" in
  let button := or_default (field input "button") (JStr "left") in
  let double_click := or_default (field input "double_click") (JBool false) in
  let screenX := scale x 1920 in
  let screenY := scale y 1080 in
  try_catch
    (let* _ :=
       if String.eqb platform "win32" then
         let* hasNircmd := checkNircmd in
         if hasNircmd then
           let* _ := await (ExecAsync ("nircmd setcursor " +:+ toString screenX +:+ " " +:+
                                       toString screenY) (with_timeout 2000)) in
           let clickCmd := if is_string button "right"
                           then "sendmouse right click" else "sendmouse left click" in
           let* _ := await (ExecAsync ("nircmd " +:+ clickCmd) (with_timeout 2000)) in
           if truthy double_click then
             let* _ := await (ExecAsync ("nircmd " +:+ clickCmd) (with_timeout 2000)) in ret tt
           else ret tt
         else
           let downFlag := if is_string button "right" then JNum 8 else JNum 2 in
           let upFlag := if is_string button "right" then JNum 16 else JNum 4 in
           run_script "mouse_script.ps1" [screenX; screenY; downFlag; upFlag; double_click] 10000
       else
         let clickCmd := if truthy double_click then "click --repeat 2" else "click" in
         let buttonNum := if is_string button "right" then "3"
                          else if is_string button "middle" then "2" else "1" in
         let* _ := await (ExecAsync ("xdotool mousemove " +:+ toString screenX +:+ " " +:+
                                     toString screenY +:+ " " +:+ clickCmd +:+ " " +:+
                                     buttonNum) no_options) in
         ret tt in
     ret (obj [ ("success", JBool true); ("x", screenX); ("y", screenY);
                ("button", button); ("double_click", double_click);
                ("message", JStr ("Clicked at (" +:+ toString screenX +:+ ", " +:+
                                  toString screenY +:+ ")")) ]))
    (fun error => ret (obj [ ("error", JStr ("Mouse click failed: " +:+ message error)) ])).

(** The character-by-character loop of executeTypeText. *)
Fixpoint type_chars (text : string) : M unit :=
  match text with
  | EmptyString => ret tt
  | String c rest =>
      let key :=
        if Ascii.eqb c (ascii_of_nat 10) then "enter"
        else if Ascii.eqb c (ascii_of_nat 32) then "space"
        else if Ascii.eqb c (ascii_of_nat 9) then "tab"
        else String c EmptyString in
      let* _ := await (ExecAsync ("nircmd sendkeypress " +:+ key) (with_timeout 1000)) in
      type_chars rest
  end.

(** [text.replace(/"/g, '\\"')] *)
Fixpoint escape_quotes (s : string) : string :=
  match s with
  | EmptyString => EmptyString
  | String c s' =>
      if Ascii.eqb c (ascii_of_nat 34)
      then String (ascii_of_nat 92) (String c (escape_quotes s'))
      else String c (escape_quotes s')
  end.

(** A string method called on a value that is not a string throws. *)
Definition string_arg (v : jsval) : M string :=
  match v with
  | JStr t => ret t
  | _ => throw (Error "Cannot read properties of undefined")
  end.

Definition executeTypeText (input : jsval) : M jsval :=
  let* input := object_of input in
  let text := field input "text" in
  let delay := or_default (field input "delay") (JNum 0) in
  try_catch
    (let* _ :=
       if String.eqb platform "win32" then
         let* hasNircmd := checkNircmd in
         let* t := string_arg text in
         if hasNircmd then
           if Nat.ltb 10 (String.length t) then
             let* _ := run_script "type_clip.ps1" [text] 5000 in
             let* _ := await (ExecAsync "nircmd sendkeypress ctrl+v" (with_timeout 2000)) in
             ret tt
           else type_chars t
         else run_script "type_script.ps1" [text] 30000
       else
         let* t := string_arg text in
         let* _ := await (ExecAsync ("xdotool type --delay " +:+ toString delay +:+ " " +:+
                                     quoted (escape_quotes t)) no_options) in
         ret tt in
     let* t := string_arg text in
     ret (obj [ ("success", JBool true);
                ("text", JStr (String.substring 0 50 t));
                ("message", JStr ("Typed: " +:+ dq +:+ String.substring 0 50 t +:+
                                  (if Nat.ltb 50 (String.length t) then "..." else EmptyString)
                                  +:+ dq)) ]))
    (fun error => ret (obj [ ("error", JStr ("Type text failed: " +:+ message error)) ])).

Definition executeKeyPress (input : jsval) : M jsval :=
  let* input := object_of input in
  let keys := field input "keys" in
  try_catch
    (let* _ :=
       if String.eqb platform "win32" then
         let* hasNircmd := checkNircmd in
         let* k := string_arg keys in
         if hasNircmd then
           let* _ := await (ExecAsync ("nircmd sendkeypress " +:+ nircmd_keys k)
                                      (with_timeout 2000)) in ret tt
         else run_script "keypress_script.ps1" [keys] 10000
       else
         let* k := string_arg keys in
         let* _ := await (ExecAsync ("xdotool key " +:+ xdo_keys k) no_options) in ret tt in
     ret (obj [ ("success", JBool true); ("keys", keys);
                ("message", JStr ("Pressed: " +:+ toString keys)) ]))
    (fun error => ret (obj [ ("error", JStr ("Key press failed: " +:+ message error)) ])).

Definition executeOpenBrowser (input : jsval) : M jsval :=
  let* input := object_of input in
  let url := field input "url" in
  try_catch
    (let* _ :=
       if String.eqb platform "win32" then
         await (ExecAsync ("start " +:+ dq +:+ dq +:+ " " +:+ quoted (toString url))
                          {| opt_timeout := JNum 5000; opt_maxBuffer := None;
                             opt_shell := Some "cmd.exe"; opt_cwd := JUndefined |})
       else if String.eqb platform "darwin" then
         await (ExecAsync ("open " +:+ quoted (toString url)) no_options)
       else
         await (ExecAsync ("xdg-open " +:+ quoted (toString url)) no_options) in
     ret (obj [ ("success", JBool true); ("url", url);
                ("message", JStr ("Opened " +:+ toString url)) ]))
    (fun error => ret (obj [ ("error", JStr ("Open browser failed: " +:+ message error)) ])).

Definition executeScroll (input : jsval) : M jsval :=
  let* input := object_of input in
  let direction := field input "direction" in
  let amount := or_default (field input "amount") (JNum 3) in
  try_catch
    (let* _ :=
       if String.eqb platform "win32" then
         let wheelDelta :=
           match amount with
           | JNum a => JNum ((if is_string direction "up" then 120 else -120) * a)%Z
           | _ => JNaN
           end in
         run_script "scroll_script.ps1" [wheelDelta] 10000
       else
         let scrollBtn := if is_string direction "up" then "4" else "5" in
         let* _ := await (ExecAsync ("xdotool click --repeat " +:+ toString amount +:+ " " +:+
                                     scrollBtn) no_options) in
         ret tt in
     ret (obj [ ("success", JBool true); ("direction", direction); ("amount", amount);
                ("message", JStr ("Scrolled " +:+ toString direction)) ]))
    (fun error => ret (obj [ ("error", JStr ("Scroll failed: " +:+ message error)) ])).

(** [Math.min(Math.max(seconds, 0.1), 30) * 1000] *)
Definition wait_ms (seconds : jsval) : Z :=
  match seconds with
  | JNum n => if (n <=? 0)%Z then 100%Z else (Z.min n 30 * 1000)%Z
  | _ => 1%Z
  end.

Definition executeWait (input : jsval) : M jsval :=
  let* input := object_of input in
  let seconds := or_default (field input "seconds") (JNum 1) in
  let* _ := await (SetTimeout (wait_ms seconds)) in
  ret (obj [ ("success", JBool true); ("waited", seconds);
             ("message", JStr ("Waited " +:+ toString seconds +:+ " seconds")) ]).

(** *** Browser-extension tools *)

Definition checkBrowserExtension : M (option jsval) :=
  let not_connected :=
    obj [ ("error", JStr "Browser extension not connected. Please install and connect the Chrome extension.") ] in
  let* st := get in
  if negb (browserExtension st) then ret (Some not_connected)
  else
    let* connected := ask IsConnected in
    if connected then ret None else ret (Some not_connected).

Definition browser_tool (action : string) (params : M jsval) : M jsval :=
  let* check := checkBrowserExtension in
  match check with
  | Some e => ret e
  | None => let* p := params in await (SendCommand action p)
  end.

Definition executeBrowserNavigate (input : jsval) : M jsval :=
  browser_tool "navigate"
    (let* input := object_of input in
     ret (obj [ ("url", field input "url");
                ("newTab", or_default (field input "newTab") (JBool false)) ])).

Definition executeBrowserClick (input : jsval) : M jsval :=
  browser_tool "click" (ret input).
Definition executeBrowserType (input : jsval) : M jsval :=
  browser_tool "type" (ret input).
Definition executeBrowserRead (input : jsval) : M jsval :=
  browser_tool "read" (ret input).
Definition executeBrowserScreenshot (input : jsval) : M jsval :=
  browser_tool "screenshot" (ret input).
Definition executeBrowserScroll (input : jsval) : M jsval :=
  browser_tool "scroll" (ret input).
Definition executeBrowserGetTabs (_input : jsval) : M jsval :=
  browser_tool "getTabs" (ret (obj [])).
Definition executeBrowserSwitchTab (input : jsval) : M jsval :=
  browser_tool "switchTab" (ret input).
Definition executeBrowserFillForm (input : jsval) : M jsval :=
  browser_tool "fillForm" (ret input).
Definition executeBrowserGetElements (input : jsval) : M jsval :=
  browser_tool "getElements" (ret input).

(** *** Dispatch *)

Definition lift (f : ToolState -> Res jsval * ToolState) : M jsval :=
  fun st => Ret (f st).

Definition handler (name : string) (input : jsval) : M jsval :=
  if String.eqb name "Read" then executeRead input
  else if String.eqb name "Write" then executeWrite input
  else if String.eqb name "Edit" then executeEdit input
  else if String.eqb name "Bash" then executeBash input
  else if String.eqb name "Glob" then executeGlob input
  else if String.eqb name "Grep" then executeGrep input
  else if String.eqb name "ListDir" then executeListDir input
  else if String.eqb name "MakeDir" then executeMakeDir input
  else if String.eqb name "Move" then executeMove input
  else if String.eqb name "Copy" then executeCopy input
  else if String.eqb name "Delete" then executeDelete input
  else if String.eqb name "ConfirmDelete" then executeConfirmDelete input
  else if String.eqb name "CancelDelete" then executeCancelDelete input
  else if String.eqb name "ConfirmPermission" then
    let* input := object_of input in lift (confirmPermission (field input "permission_id"))
  else if String.eqb name "DenyPermission" then
    let* input := object_of input in lift (denyPermission (field input "permission_id"))
  else if String.eqb name "Progress" then executeProgress input
  else if String.eqb name "WebSearch" then executeWebSearch input
  else if String.eqb name "WebFetch" then executeWebFetch input
  else if String.eqb name "TodoWrite" then executeTodoWrite input
  else if String.eqb name "TodoRead" then executeTodoRead
  else if String.eqb name "CodeAnalysis" then executeCodeAnalysis input
  else if String.eqb name "Screenshot" then executeScreenshot input
  else if String.eqb name "MouseClick" then executeMouseClick input
  else if String.eqb name "TypeText" then executeTypeText input
  else if String.eqb name "KeyPress" then executeKeyPress input
  else if String.eqb name "OpenBrowser" then executeOpenBrowser input
  else if String.eqb name "Scroll" then executeScroll input
  else if String.eqb name "Wait" then executeWait input
  else if String.eqb name "BrowserNavigate" then executeBrowserNavigate input
  else if String.eqb name "BrowserClick" then executeBrowserClick input
  else if String.eqb name "BrowserType" then executeBrowserType input
  else if String.eqb name "BrowserRead" then executeBrowserRead input
  else if String.eqb name "BrowserScreenshot" then executeBrowserScreenshot input
  else if String.eqb name "BrowserScroll" then executeBrowserScroll input
  else if String.eqb name "BrowserGetTabs" then executeBrowserGetTabs input
  else if String.eqb name "BrowserSwitchTab" then executeBrowserSwitchTab input
  else if String.eqb name "BrowserFillForm" then executeBrowserFillForm input
  else if String.eqb name "BrowserGetElements" then executeBrowserGetElements input
  else ret (obj [ ("error", JStr ("Unknown tool: " +:+ name)) ]).

(** The [catch] of executeTool: a thrown error becomes an error result. *)
Definition finish (x : Res jsval * ToolState) : Prog (jsval * ToolState) :=
  match x with
  | (Ok result, st') => Ret (result, st')
  | (Throw error, st') => Ret (obj [ ("error", JStr (message error)) ], st')
  end.

(** [executeTool]: the switch over the tool name inside try / catch. *)
Definition executeTool (name : string) (input : jsval) : ToolState -> Prog (jsval * ToolState) :=
  fun st => bindProg (handler name input st) finish.

(** [setSessionId] *)
Definition setSessionId (sessionId : string) (st : ToolState) : ToolState :=
  {| todoStorage := todoStorage st; pendingDeletions := pendingDeletions st;
     pendingPermissions := pendingPermissions st; approvedPaths := approvedPaths st;
     progressTracker := progressTracker st; browserExtension := browserExtension st;
     currentSessionId := sessionId; nircmdAvailable := nircmdAvailable st |}.

(** A sequence of tool invocations, run one after the other. *)
Fixpoint run_tools (E : Env) (calls : list (string * jsval)) (st : ToolState)
    (w : world E) : ToolState * world E * list (string * jsval * list Event) :=
  match calls with
  | [] => (st, w, [])
  | (name, input) :: rest =>
      let '(_, st1, w1, tr) := exec E (executeTool name input st) w in
      let '(st2, w2, log) := run_tools E rest st1 w1 in
      (st2, w2, (name, input, tr) :: log)
  end.

(** *** Vocabulary of the deletion properties *)

(** Every pending deletion is for one of the paths [R]. *)
Definition pending_within (R : list jsval) (st : ToolState) : Prop :=
  forall k pd, pendingDeletions st !! k = Some pd -> In (del_path pd) R.

(** The path a Delete invocation asks to delete. *)
Definition requested (name : string) (input : jsval) : list jsval :=
  if String.eqb name "Delete" then [field input "path"] else [].

(** The paths requested by the Delete invocations among [calls]. *)
Definition requests (calls : list (string * jsval)) : list jsval :=
  flat_map (fun c => requested (fst c) (snd c)) calls.

Definition script_names : list string :=
  [ "screenshot_script.ps1"; "mouse_script.ps1"; "type_clip.ps1";
    "type_script.ps1"; "keypress_script.ps1"; "scroll_script.ps1" ].

(** A file the computer-use tools create themselves in the working
    directory: a generated script or the screenshot image. *)
Definition temp_file (p : jsval) : Prop :=
  exists file, p = JStr (path_join cwd file) /\
    (In file script_names \/ exists now : Z, file = "screenshot_" +:+ pretty now +:+ ".png").

Definition computer_use (name : string) : Prop :=
  In name [ "Screenshot"; "MouseClick"; "TypeText"; "KeyPress"; "Scroll" ].

(** The deletions a tool may issue when the paths [R] were requested. *)
Definition allowed_deletion (R : list jsval) (name : string) (e : Event) : Prop :=
  match deletion_target e with
  | None => True
  | Some p => (name = "ConfirmDelete" /\ In p R) \/ (computer_use name /\ temp_file p)
  end.

(** The tools that take one path and ask for permission before they touch
    it: tool name, input field of the path, operation and reason reported. *)
Definition gated_tools : list (string * string * string * string) :=
  [ ("Read", "file_path", "read", "Reading files from this location");
    ("Write", "file_path", "write", "Writing files to this location");
    ("Edit", "file_path", "edit", "Editing files in this location");
    ("ListDir", "path", "list", "Listing files in this location");
    ("MakeDir", "path", "create directory", "Creating directory in this location") ].

(** The result of [requestPathPermission]. *)
Definition permission_request (permissionId : string) (targetPath : jsval)
    (operation reason : string) : jsval :=
  obj [ ("requires_permission", JBool true);
        ("permission_id", JStr permissionId);
        ("path", targetPath);
        ("operation", JStr operation);
        ("message", JStr ("Permission required to " +:+ operation +:+
                          " in sensitive location: " +:+ toString targetPath));
        ("reason", JStr reason);
        ("instruction", JStr "User must approve this action. Use ConfirmPermission tool with this permission_id after user approval.") ].

(** The identifier [requestPathPermission] builds in environment [E] at
    world [w], and the time stamp it records. *)
Definition next_permission_id (E : Env) (w : world E) : string :=
  let '(w1, now) := answer E _ w DateNow in
  let '(w2, rnd) := answer E _ w1 RandomSuffix in
  "perm_" +:+ pretty now +:+ "_" +:+ rnd.

Definition next_requestedAt (E : Env) (w : world E) : string :=
  let '(w1, now) := answer E _ w DateNow in
  let '(w2, rnd) := answer E _ w1 RandomSuffix in
  (answer E _ w2 IsoTimestamp).2.

(** An earlier Delete invocation of the log asked for path [p]. *)
Definition requested_earlier (log : list (string * jsval * list Event)) (i : nat)
    (p : jsval) : Prop :=
  exists j input tr,
    j < i /\ log !! j = Some ("Delete", input, tr) /\ field input "path" = p.

(** The strict reading of the two-phase rule: in every run of tool
    invocations from the initial state, each fs.rm / fs.unlink call is issued
    by ConfirmDelete for a path that an earlier Delete requested. *)
Definition every_deletion_confirmed : Prop :=
  forall (E : Env) (calls : list (string * jsval)) (w : world E)
         i name input tr e p,
    (run_tools E calls initial w).2 !! i = Some (name, input, tr) ->
    In e tr ->
    deletion_target e = Some p ->
    name = "ConfirmDelete" /\ requested_earlier (run_tools E calls initial w).2 i p.

End WithPlatform.
End Tools.

(** ** The agent loop (AntigravityProvider) *)

Module Provider.
Import JsString Js.

Inductive ContentBlock :=
| TextBlock (text : string)
| ToolUseBlock (id name : string) (input : jsval)
| ToolResultBlock (tool_use_id : string) (content : string).

Inductive Content :=
| PlainText (text : string)
| Blocks (blocks : list ContentBlock).

Inductive Role := User | Assistant.

Record Message := { role : Role; content : Content }.

(** The events the caller of [query] receives; each also carries the
    provider name, a constant. *)
Inductive StreamEvent :=
| SessionInit (session_id : string)
| Text (content : string)
| Thinking (content : string)
| ToolUse (name : string) (input : jsval) (id : string)
| ToolResult (result : jsval) (tool_use_id : string) (name : string)
| ErrorEvent (message : string)
| Done.

(** A parsed server-sent event, with the fields the decoder reads. *)
Inductive Delta :=
| TextDelta (text : string)
| ThinkingDelta (thinking : string)
| InputJsonDelta (partial_json : string)
| OtherDelta.

Inductive SseEvent :=
| ContentBlockStart (tool_use : option (string * string))
| ContentBlockDelta (delta : Delta)
| ContentBlockStop
| MessageDelta (stop_reason : string)
| OtherEvent.

(** JSON and regular expressions of the engine. [parse_event] is
    [JSON.parse] followed by the reads of the event's fields: [None] when
    either throws; a tool-use start carries its id and name, a message delta
    its stop reason (empty when absent). *)
Class Engine := {
  parse_event : string -> option SseEvent;
  JSON_parse : string -> option jsval;
  JSON_stringify : jsval -> string;
  needsThinkingModel : string -> bool
}.

Record ToolCall := { tc_id : string; tc_name : string; tc_input : jsval }.

Record StreamResult := {
  textChunks : list StreamEvent;
  toolCalls : list ToolCall;
  assistantContent : list ContentBlock;
  thinking : string;
  stopReason : option string
}.

(** The local variables of [processStream]. *)
Record Decoder := {
  buffer : string;
  dec_textChunks : list StreamEvent;
  dec_toolCalls : list ToolCall;
  dec_assistantContent : list ContentBlock;
  dec_thinking : string;
  dec_stopReason : option string;
  currentToolCall : option (string * string);
  currentToolInput : string
}.

Definition Decoder_start : Decoder :=
  {| buffer := EmptyString; dec_textChunks := []; dec_toolCalls := [];
     dec_assistantContent := []; dec_thinking := EmptyString; dec_stopReason := None;
     currentToolCall := None; currentToolInput := EmptyString |}.

(** What the proxy answers to one request: the fetch fails, or a response
    arrives whose body delivers some decoded chunks and then ends or fails. *)
Inductive FetchOutcome :=
| FetchRejected (message : string)
| Response (ok : bool) (status : Z) (chunks : list string) (failure : option string).

(** The surroundings of the loop: the proxy and the tool executor, which
    never throws (executeTool catches every exception). *)
Record Backend := {
  W : Type;
  makeStreamingRequest : W -> list Message -> string -> W * FetchOutcome;
  executeTool : string -> jsval -> W -> jsval * W;
  setSessionId : string -> W -> W
}.

Record Config := {
  model : string;
  thinkingModel : string;
  maxTurns : Z
}.

(** The constructor: [config.maxTurns || 50]. *)
Definition make_config (config_model : option string) (config_maxTurns : option Z) : Config :=
  {| model := match config_model with
              | Some m => JsString.or_else m "claude-sonnet-4-5"
              | None => "claude-sonnet-4-5"
              end;
     thinkingModel := "claude-sonnet-4-5-thinking";
     maxTurns := match config_maxTurns with
                 | Some n => if Z.eqb n 0 then 50%Z else n
                 | None => 50%Z
                 end |}.

(** [addToHistory] on one conversation: push, then keep the last 80 entries
    when there are more than 100. *)
Definition push_trim (history : list Message) (message : Message) : list Message :=
  let history := history ++ [message] in
  if Nat.ltb 100 (length history)
  then drop (length history - 80) history
  else history.

Definition addToHistory (chatId : string) (message : Message)
    (conversationHistory : gmap string (list Message)) : gmap string (list Message) :=
  <[chatId := push_trim (default [] (conversationHistory !! chatId)) message]>
    conversationHistory.

(** The ids of the tool-use blocks of an assistant message, and of the
    tool-result blocks of a user message. *)
Definition tool_uses (m : Message) : list string :=
  match role m, content m with
  | Assistant, Blocks blocks =>
      flat_map (fun b => match b with ToolUseBlock id _ _ => [id] | _ => [] end) blocks
  | _, _ => []
  end.

Definition tool_results (m : Message) : list string :=
  match role m, content m with
  | User, Blocks blocks =>
      flat_map (fun b => match b with ToolResultBlock id _ => [id] | _ => [] end) blocks
  | _, _ => []
  end.

(** Entry [i] is an assistant message with a tool-use block and entry
    [i + 1] the user message with the tool-result of the same id. *)
Definition pair_at (l : list Message) (i : nat) : bool :=
  match l !! i, l !! S i with
  | Some a, Some u =>
      existsb (fun id => existsb (String.eqb id) (tool_results u)) (tool_uses a)
  | _, _ => false
  end.

(** The number of entries a push drops. *)
Definition dropped (history : list Message) (message : Message) : nat :=
  length (history ++ [message]) - length (push_trim history message).

(** The push of [message] drops the tool-use message of a pair and keeps its
    tool-result message. *)
Definition trim_splits (history : list Message) (message : Message) : bool :=
  match dropped history message with
  | O => false
  | S i => pair_at (history ++ [message]) i
  end.

(** The strict reading of the trimming rule. *)
Definition trim_never_splits : Prop :=
  forall history message, length history <= 100 -> trim_splits history message = false.

Section WithEngine.
Context `{Engine}.

(** *** processStream *)

Definition on_event (event : SseEvent) (d : Decoder) : Decoder :=
  match event with
  | ContentBlockStart (Some (id, name)) =>
      {| buffer := buffer d; dec_textChunks := dec_textChunks d;
         dec_toolCalls := dec_toolCalls d;
         dec_assistantContent := dec_assistantContent d;
         dec_thinking := dec_thinking d; dec_stopReason := dec_stopReason d;
         currentToolCall := Some (id, name); currentToolInput := EmptyString |}
  | ContentBlockStart None => d
  | ContentBlockDelta (TextDelta text) =>
      if JsString.truthy text then
        {| buffer := buffer d;
           dec_textChunks := dec_textChunks d ++ [Text text];
           dec_toolCalls := dec_toolCalls d;
           dec_assistantContent := dec_assistantContent d ++ [TextBlock text];
           dec_thinking := dec_thinking d; dec_stopReason := dec_stopReason d;
           currentToolCall := currentToolCall d; currentToolInput := currentToolInput d |}
      else d
  | ContentBlockDelta (ThinkingDelta t) =>
      if JsString.truthy t then
        {| buffer := buffer d; dec_textChunks := dec_textChunks d;
           dec_toolCalls := dec_toolCalls d;
           dec_assistantContent := dec_assistantContent d;
           dec_thinking := dec_thinking d +:+ t; dec_stopReason := dec_stopReason d;
           currentToolCall := currentToolCall d; currentToolInput := currentToolInput d |}
      else d
  | ContentBlockDelta (InputJsonDelta partial_json) =>
      if JsString.truthy partial_json then
        {| buffer := buffer d; dec_textChunks := dec_textChunks d;
           dec_toolCalls := dec_toolCalls d;
           dec_assistantContent := dec_assistantContent d;
           dec_thinking := dec_thinking d; dec_stopReason := dec_stopReason d;
           currentToolCall := currentToolCall d;
           currentToolInput := currentToolInput d +:+ partial_json |}
      else d
  | ContentBlockDelta OtherDelta => d
  | ContentBlockStop =>
      match currentToolCall d with
      | Some (id, name) =>
          let input :=
            if JsString.truthy (currentToolInput d)
            then default (JObj []) (JSON_parse (currentToolInput d))
            else JObj [] in
          {| buffer := buffer d; dec_textChunks := dec_textChunks d;
             dec_toolCalls :=
               dec_toolCalls d ++ [{| tc_id := id; tc_name := name; tc_input := input |}];
             dec_assistantContent :=
               dec_assistantContent d ++ [ToolUseBlock id name input];
             dec_thinking := dec_thinking d; dec_stopReason := dec_stopReason d;
             currentToolCall := None; currentToolInput := EmptyString |}
      | None => d
      end
  | MessageDelta stop_reason =>
      if JsString.truthy stop_reason then
        {| buffer := buffer d; dec_textChunks := dec_textChunks d;
           dec_toolCalls := dec_toolCalls d;
           dec_assistantContent := dec_assistantContent d;
           dec_thinking := dec_thinking d; dec_stopReason := Some stop_reason;
           currentToolCall := currentToolCall d; currentToolInput := currentToolInput d |}
      else d
  | OtherEvent => d
  end.

(** One line of the stream. *)
Definition on_line (line : string) (d : Decoder) : Decoder :=
  if negb (startsWith line "data: ") then d
  else
    let data := trim (string_slice 6 line) in
    if String.eqb data "[DONE]" then d
    else match parse_event data with
         | Some event => on_event event d
         | None => d
         end.

Definition set_buffer (b : string) (d : Decoder) : Decoder :=
  {| buffer := b; dec_textChunks := dec_textChunks d; dec_toolCalls := dec_toolCalls d;
     dec_assistantContent := dec_assistantContent d; dec_thinking := dec_thinking d;
     dec_stopReason := dec_stopReason d; currentToolCall := currentToolCall d;
     currentToolInput := currentToolInput d |}.

(** One chunk: split the buffer into lines, keep the last piece as the new
    buffer, process the others. *)
Definition on_chunk (d : Decoder) (chunk : string) : Decoder :=
  let lines := split_lines (buffer d +:+ chunk) in
  let rest := default EmptyString (last lines) in
  let lines := removelast lines in
  foldl (fun d line => on_line line d) (set_buffer rest d) lines.

Definition processStream (chunks : list string) : StreamResult :=
  let d := foldl on_chunk Decoder_start chunks in
  {| textChunks := dec_textChunks d; toolCalls := dec_toolCalls d;
     assistantContent := dec_assistantContent d; thinking := dec_thinking d;
     stopReason := dec_stopReason d |}.

(** *** query *)

Section WithBackend.
Variable B : Backend.
Variable cfg : Config.

(** The provider's conversation histories and the surroundings. *)
Record State := {
  conversationHistory : gmap string (list Message);
  world : W B
}.

Definition getConversationHistory (chatId : string) (st : State) : list Message :=
  default [] (conversationHistory st !! chatId).

Definition add_message (chatId : string) (message : Message) (st : State) : State :=
  {| conversationHistory := addToHistory chatId message (conversationHistory st);
     world := world st |}.

(** The inner loop over the tool calls of one turn: tool_use, execute,
    tool_result, and the result block kept for the history. *)
Fixpoint run_tool_calls (calls : list ToolCall) (w : W B)
    : list StreamEvent * list ContentBlock * W B :=
  match calls with
  | [] => ([], [], w)
  | toolCall :: rest =>
      let '(toolResult, w1) := executeTool B (tc_name toolCall) (tc_input toolCall) w in
      let '(events, toolResults, w2) := run_tool_calls rest w1 in
      (ToolUse (tc_name toolCall) (tc_input toolCall) (tc_id toolCall)
         :: ToolResult toolResult (tc_id toolCall) (tc_name toolCall)
         :: events,
       ToolResultBlock (tc_id toolCall) (JSON_stringify toolResult) :: toolResults,
       w2)
  end.

(** How one pass through the body of the while loop ends. *)
Inductive Next := Continue | Stop.

(** The body of the while loop: the events it yields, the new state, and
    whether the loop goes on ([break] and [continueLoop = false] both stop). *)
Definition turn_body (chatId selectedModel : string) (st : State)
    : list StreamEvent * State * Next :=
  let '(w1, outcome) :=
    makeStreamingRequest B (world st) (getConversationHistory chatId st) selectedModel in
  let st1 := {| conversationHistory := conversationHistory st; world := w1 |} in
  match outcome with
  | FetchRejected message => ([ErrorEvent message], st1, Stop)
  | Response false status _ (Some message) => ([ErrorEvent message], st1, Stop)
  | Response false status _ None =>
      ([ErrorEvent ("API error: " +:+ pretty status)], st1, Stop)
  | Response true _ _ (Some message) => ([ErrorEvent message], st1, Stop)
  | Response true _ chunks None =>
      let result := processStream chunks in
      let texts := textChunks result in
      let thoughts :=
        if JsString.truthy (thinking result) then [Thinking (thinking result)] else [] in
      match toolCalls result with
      | _ :: _ =>
          let '(events, toolResults, w2) := run_tool_calls (toolCalls result) w1 in
          let st2 := {| conversationHistory := conversationHistory st; world := w2 |} in
          let st3 :=
            add_message chatId
              {| role := Assistant; content := Blocks (assistantContent result) |} st2 in
          let st4 :=
            add_message chatId {| role := User; content := Blocks toolResults |} st3 in
          (texts ++ thoughts ++ events, st4, Continue)
      | [] =>
          let st2 :=
            match assistantContent result with
            | _ :: _ =>
                add_message chatId
                  {| role := Assistant; content := Blocks (assistantContent result) |} st1
            | [] => st1
            end in
          (texts ++ thoughts, st2, Stop)
      end
  end.

(** The while loop [while (continueLoop && turn < maxTurns)]; it returns the
    events, the final turn counter and the state. [fuel] bounds the number of
    passes: the loop needs at most [maxTurns - turn] of them. *)
Fixpoint turns (fuel : nat) (chatId selectedModel : string) (turn : Z) (st : State)
    : list StreamEvent * Z * State :=
  match fuel with
  | O => ([], turn, st)
  | S fuel' =>
      if (turn <? maxTurns cfg)%Z then
        let turn := (turn + 1)%Z in
        let '(events, st1, next) := turn_body chatId selectedModel st in
        match next with
        | Stop => (events, turn, st1)
        | Continue =>
            let '(later, final, st2) := turns fuel' chatId selectedModel turn st1 in
            (events ++ later, final, st2)
        end
      else ([], turn, st)
  end.

Definition max_turns_notice : StreamEvent :=
  Text (lf +:+ lf +:+ "[Reached maximum turns]").

(** [query]: the events yielded to the caller, the number of turns taken and
    the state afterwards. *)
Definition query (prompt chatId : string) (requested_model : option string) (st : State)
    : list StreamEvent * Z * State :=
  let selectedModel :=
    match requested_model with
    | Some m =>
        if JsString.truthy m then m
        else if needsThinkingModel prompt then thinkingModel cfg else model cfg
    | None => if needsThinkingModel prompt then thinkingModel cfg else model cfg
    end in
  let st := {| conversationHistory := conversationHistory st;
               world := setSessionId B chatId (world st) |} in
  let st := add_message chatId {| role := User; content := PlainText prompt |} st in
  let '(events, turn, st) :=
    turns (Z.to_nat (maxTurns cfg)) chatId selectedModel 0%Z st in
  (SessionInit chatId :: events
     ++ (if (maxTurns cfg <=? turn)%Z then [max_turns_notice] else [])
     ++ [Done],
   turn, st).

(** Every conversation holds at most 100 messages. *)
Definition bounded (st : State) : Prop :=
  forall chatId history,
    conversationHistory st !! chatId = Some history -> length history <= 100.

End WithBackend.

(** *** Vocabulary of the stream properties *)

(** The events of a turn: text, thinking, tool_use, tool_result. *)
Definition is_turn_event (e : StreamEvent) : bool :=
  match e with
  | Text _ | Thinking _ | ToolUse _ _ _ | ToolResult _ _ _ => true
  | SessionInit _ | ErrorEvent _ | Done => false
  end.

(** The ids of the tool_use events, in order. *)
Fixpoint tool_use_ids (events : list StreamEvent) : list string :=
  match events with
  | [] => []
  | ToolUse _ _ id :: rest => id :: tool_use_ids rest
  | _ :: rest => tool_use_ids rest
  end.

(** The correlation ids of the tool_result events, in order. *)
Fixpoint tool_result_ids (events : list StreamEvent) : list string :=
  match events with
  | [] => []
  | ToolResult _ id _ :: rest => id :: tool_result_ids rest
  | _ :: rest => tool_result_ids rest
  end.

(** Every tool_use is directly followed by the tool_result of the same id
    and name, and no tool_result stands elsewhere. *)
Fixpoint paired (events : list StreamEvent) : bool :=
  match events with
  | [] => true
  | ToolUse name _ id :: ToolResult _ id' name' :: rest =>
      String.eqb id id' && String.eqb name name' && paired rest
  | ToolUse _ _ _ :: _ => false
  | ToolResult _ _ _ :: _ => false
  | _ :: rest => paired rest
  end.

(** The tool events a list of decoded tool calls gives rise to, for some
    results of the executor. *)
Definition tool_events_of (calls : list ToolCall) (events : list StreamEvent) : Prop :=
  exists results : list jsval,
    length results = length calls /\
    events = flat_map (fun cr : ToolCall * jsval =>
                         [ ToolUse (tc_name cr.1) (tc_input cr.1) (tc_id cr.1);
                           ToolResult cr.2 (tc_id cr.1) (tc_name cr.1) ])
                      (zip calls results).

Definition turn_event (e : StreamEvent) : Prop := is_turn_event e = true.

Definition is_text (e : StreamEvent) : Prop :=
  match e with Text _ => True | _ => False end.

Definition no_tool_event (e : StreamEvent) : Prop :=
  match e with ToolUse _ _ _ | ToolResult _ _ _ => False | _ => True end.

(** The events of one pass of the loop: the text and thinking events, then
    the tool events of the decoded calls; or a single error event, which
    stops the loop. *)
Inductive pass_events : list StreamEvent -> Next -> Prop :=
| pass_error message : pass_events [ErrorEvent message] Stop
| pass_turn pre tools calls next :
    Forall turn_event pre ->
    Forall no_tool_event pre ->
    tool_events_of calls tools ->
    pass_events (pre ++ tools) next.

(** The events of the loop: turn events, well paired, then possibly one
    error event. *)
Definition loop_events (events : list StreamEvent) : Prop :=
  exists body err,
    events = body ++ err /\
    Forall turn_event body /\
    paired body = true /\
    tool_use_ids body = tool_result_ids body /\
    (err = [] \/ exists message, err = [ErrorEvent message]).

(** The strict reading of the terminal-event rule for an aborted run: an
    error event is the last event of the stream. *)
Definition error_is_terminal : Prop :=
  forall (B : Backend) (cfg : Config) (prompt chatId : string)
         (requested_model : option string) (st : State B) (message : string),
    In (ErrorEvent message) (query B cfg prompt chatId requested_model st).1.1 ->
    last (query B cfg prompt chatId requested_model st).1.1 = Some (ErrorEvent message).

End WithEngine.
End Provider.

(** ** The browser bridge (WebSocket server for the extension) *)

Module Bridge.
Import Js.

(** What happens to the server: a connection, a call of sendCommand by a
    tool, a message from a socket, a timer that fires, a socket that closes or
    changes its readyState. Sockets and timers are named by numbers; the timer
    of a request is named by the request id. *)
Inductive IncomingMessage :=
| Unparsable
| Register (client version : jsval)
| ResultMessage (id : option Z) (message : jsval)
| ErrorMessage (id : option Z) (error : string)
| OtherMessage.

Inductive Input :=
| Connection (ws : nat)
| SendCommand (action : string) (params : jsval)
| Message (ws : nat) (data : IncomingMessage)
| TimerFires (id : Z)
| Close (ws : nat)
| ReadyState (ws : nat) (state : Z).

(** A call of the resolve or reject function of a request's promise. *)
Inductive Settle :=
| ResolveCall (id : Z) (message : jsval)
| RejectCall (id : Z) (error : string).

Definition settle_id (c : Settle) : Z :=
  match c with ResolveCall id _ | RejectCall id _ => id end.

Inductive Outgoing :=
| Envelope (id : Z) (action : string) (params : jsval)
| Registered.

Record State := {
  browserExtensionSocket : option nat;
  readyState : gmap nat Z;
  (** id -> the timer handle stored with resolve and reject *)
  pendingRequests : gmap Z Z;
  requestIdCounter : Z;
  (** armed timers: handle -> the action named in the timeout error *)
  timers : gmap Z string;
  (** the calls of resolve and reject so far *)
  settled : list Settle;
  (** sendCommand calls that threw 'Browser extension not connected' *)
  refused : list string;
  sent : list (nat * Outgoing)
}.

Definition initial : State :=
  {| browserExtensionSocket := None; readyState := ∅; pendingRequests := ∅;
     requestIdCounter := 0; timers := ∅; settled := []; refused := []; sent := [] |}.

(** [browserExtensionSocket && browserExtensionSocket.readyState === 1] *)
Definition isConnected (st : State) : bool :=
  match browserExtensionSocket st with
  | Some ws => bool_decide (readyState st !! ws = Some 1%Z)
  | None => false
  end.

Definition sendCommand (action : string) (params : jsval) (st : State) : State :=
  match browserExtensionSocket st with
  | Some ws =>
      if bool_decide (readyState st !! ws = Some 1%Z) then
        let id := (requestIdCounter st + 1)%Z in
        {| browserExtensionSocket := browserExtensionSocket st;
           readyState := readyState st;
           pendingRequests := <[id := id]> (pendingRequests st);
           requestIdCounter := id;
           timers := <[id := action]> (timers st);
           settled := settled st;
           refused := refused st;
           sent := sent st ++ [(ws, Envelope id action params)] |}
      else
        {| browserExtensionSocket := browserExtensionSocket st;
           readyState := readyState st; pendingRequests := pendingRequests st;
           requestIdCounter := requestIdCounter st; timers := timers st;
           settled := settled st; refused := refused st ++ [action]; sent := sent st |}
  | None =>
      {| browserExtensionSocket := browserExtensionSocket st;
         readyState := readyState st; pendingRequests := pendingRequests st;
         requestIdCounter := requestIdCounter st; timers := timers st;
         settled := settled st; refused := refused st ++ [action]; sent := sent st |}
  end.

(** The callback given to setTimeout; a timer fires at most once and only
    while it is armed. *)
Definition on_timeout (id : Z) (st : State) : State :=
  match timers st !! id with
  | None => st
  | Some action =>
      {| browserExtensionSocket := browserExtensionSocket st;
         readyState := readyState st;
         pendingRequests := delete id (pendingRequests st);
         requestIdCounter := requestIdCounter st;
         timers := delete id (timers st);
         settled := settled st ++
                    [RejectCall id ("Browser command " +:+ action +:+ " timed out")];
         refused := refused st; sent := sent st |}
  end.

(** The part of the message handler for result and error messages. *)
Definition on_response (id : option Z) (call : Z -> Settle) (st : State) : State :=
  match id ≫= fun i => (fun handle => (i, handle)) <$> pendingRequests st !! i with
  | None => st
  | Some (i, handle) =>
      {| browserExtensionSocket := browserExtensionSocket st;
         readyState := readyState st;
         pendingRequests := delete i (pendingRequests st);
         requestIdCounter := requestIdCounter st;
         timers := delete handle (timers st);
         settled := settled st ++ [call i];
         refused := refused st; sent := sent st |}
  end.

Definition on_message (ws : nat) (data : IncomingMessage) (st : State) : State :=
  match data with
  | Unparsable => st
  | Register _ _ =>
      {| browserExtensionSocket := browserExtensionSocket st;
         readyState := readyState st; pendingRequests := pendingRequests st;
         requestIdCounter := requestIdCounter st; timers := timers st;
         settled := settled st; refused := refused st;
         sent := sent st ++ [(ws, Registered)] |}
  | ResultMessage id message => on_response id (fun i => ResolveCall i message) st
  | ErrorMessage id error => on_response id (fun i => RejectCall i error) st
  | OtherMessage => st
  end.

Definition step (st : State) (input : Input) : State :=
  match input with
  | Connection ws =>
      {| browserExtensionSocket := Some ws;
         readyState := <[ws := 1%Z]> (readyState st);
         pendingRequests := pendingRequests st;
         requestIdCounter := requestIdCounter st; timers := timers st;
         settled := settled st; refused := refused st; sent := sent st |}
  | SendCommand action params => sendCommand action params st
  | Message ws data => on_message ws data st
  | TimerFires id => on_timeout id st
  | Close ws =>
      {| browserExtensionSocket :=
           if bool_decide (browserExtensionSocket st = Some ws) then None
           else browserExtensionSocket st;
         readyState := <[ws := 3%Z]> (readyState st);
         pendingRequests := pendingRequests st;
         requestIdCounter := requestIdCounter st; timers := timers st;
         settled := settled st; refused := refused st; sent := sent st |}
  | ReadyState ws state =>
      {| browserExtensionSocket := browserExtensionSocket st;
         readyState := <[ws := state]> (readyState st);
         pendingRequests := pendingRequests st;
         requestIdCounter := requestIdCounter st; timers := timers st;
         settled := settled st; refused := refused st; sent := sent st |}
  end.

Definition run (st : State) (inputs : list Input) : State := foldl step st inputs.

(** How often resolve or reject was called for request [id]. *)
Definition settle_count (id : Z) (st : State) : nat :=
  length (List.filter (fun c => Z.eqb (settle_id c) id) (settled st)).

(** The life of request [id]: waiting, with its entry in the map and its
    timer armed and nothing settled; or over, with no entry, no timer and
    exactly one call of resolve or reject. *)
Definition waiting (id : Z) (st : State) : Prop :=
  pendingRequests st !! id = Some id /\ is_Some (timers st !! id) /\ settle_count id st = 0.

Definition over (id : Z) (st : State) : Prop :=
  pendingRequests st !! id = None /\ timers st !! id = None /\ settle_count id st = 1.

Definition issued (id : Z) (st : State) : Prop :=
  (1 <= id <= requestIdCounter st)%Z.

(** The invariant of the bridge: every issued request is waiting or over,
    and nothing is known about an id that was never issued. *)
Definition bridge_inv (st : State) : Prop :=
  (0 <= requestIdCounter st)%Z /\
  (forall id, issued id st -> waiting id st \/ over id st) /\
  (forall id, ~ issued id st ->
     pendingRequests st !! id = None /\ timers st !! id = None /\ settle_count id st = 0).

End Bridge.

(** A POSIX instance of the platform, on paths that are already normal:
    used to evaluate the definitions on concrete inputs. *)
Module Posix.
#[export] Instance posix : NodePlatform := {|
  path_normalize := fun p => p;
  path_join := fun a b => a +:+ "/" +:+ b;
  path_dirname := fun p => p;
  path_extname := fun _ => EmptyString;
  userHome := "/home/u";
  cwd := "/srv/nimbus";
  platform := "linux"
|}.
End Posix.

(** ** Concrete gate runs *)

Module SandboxData.
Import JsString Sandbox Posix.

Definition after_deny : State :=
  run initial [ OpValidate "perm_1" "s1" "write" "/home/u/Documents/x.txt" None;
                OpDeny "perm_1" ].

Definition unrelated_approval : list Op :=
  [ OpValidate "perm_2" "s1" "read" "/home/u/Pictures/a.png" None;
    OpApprove "perm_2" ].

(** Two requests for one path, resolved in opposite ways. *)
Definition approve_then_deny : list Op :=
  [ OpValidate "perm_1" "s1" "write" "/home/u/Documents/x.txt" None;
    OpValidate "perm_2" "s1" "write" "/home/u/Documents/x.txt" None;
    OpApprove "perm_1";
    OpDeny "perm_2" ].

Definition one_request_at_a_time : list Op :=
  [ OpValidate "perm_1" "s1" "write" "/home/u/Documents/x.txt" None;
    OpApprove "perm_1";
    OpValidate "perm_2" "s1" "read" "/home/u/Pictures/a.png" None;
    OpDeny "perm_2" ].

End SandboxData.

(** ** A concrete runtime for the tool executor *)

Module ToolsData.
Import JsString Js Runtime Tools Posix.

(** Builtins that keep the text unchanged and find nothing: enough to
    evaluate the handlers, whose control flow does not depend on them. *)
#[export] Instance plain_builtins : Builtins := {|
  replace_all_occurrences := fun content _ _ => content;
  replace_first_occurrence := fun content _ _ => content;
  regexp_valid := fun _ => true;
  grep_file := fun _ _ _ lastIndex => ([], lastIndex);
  parse_results := fun _ _ => [];
  parse_links := fun _ _ => [];
  extract_text := fun html => html;
  analyze_lines := fun file _ => JObj [("file", file)];
  count_by_extension := fun _ => JObj [];
  package_report := fun _ => None;
  powershell_script := fun name _ => name;
  xdo_keys := fun keys => keys;
  nircmd_keys := fun keys => keys;
  encodeURIComponent := toString;
  number_lines := fun _ lines => String.concat lf lines
|}.

(** An environment in which every call succeeds: paths are regular files,
    commands print nothing, the clock stands still. *)
Definition calm_respond {W : Type} (R : Type) (w : W) (c : Call R) : W * Result R :=
  (w,
   match c in Call R return Result R with
   | FsStat _ => Resolved {| isDirectory := false; isFile := true; size := 42 |}
   | FsReadFile _ => Resolved "hello"
   | FsReadFileBase64 _ => Resolved "aGVsbG8="
   | FsWriteFile _ _ => Resolved tt
   | FsMkdir _ => Resolved tt
   | FsRename _ _ => Resolved tt
   | FsCp _ _ => Resolved tt
   | FsCopyFile _ _ => Resolved tt
   | FsRm _ _ => Resolved tt
   | FsUnlink _ => Resolved tt
   | FsReaddir _ => Resolved []
   | Glob _ _ _ _ => Resolved []
   | ExecAsync _ _ => Resolved (EmptyString, EmptyString)
   | FetchUrl _ => Resolved "<html></html>"
   | SetTimeout _ => Resolved tt
   | SendCommand _ _ => Resolved JNull
   end).

Definition calm_answer (R : Type) (w : unit) (q : Query R) : unit * R :=
  (tt,
   match q in Query R return R with
   | DateNow => 1700000000000%Z
   | RandomSuffix => "k3x9q2"
   | IsoTimestamp => "2026-01-01T00:00:00.000Z"
   | IsConnected => false
   end).

Definition calm : Env :=
  {| world := unit; respond := @calm_respond unit; answer := calm_answer |}.

(** The same environment with a clock that advances by one millisecond at
    every reading. *)
Definition ticking_answer (R : Type) (w : Z) (q : Query R) : Z * R :=
  match q in Query R return Z * R with
  | DateNow => ((w + 1)%Z, (1700000000000 + w)%Z)
  | RandomSuffix => (w, "k3x9q2")
  | IsoTimestamp => (w, "2026-01-01T00:00:00.000Z")
  | IsConnected => (w, false)
  end.

Definition ticking : Env :=
  {| world := Z; respond := @calm_respond Z; answer := ticking_answer |}.

Definition delete_then_confirm : list (string * jsval) :=
  [ ("Delete", JObj [("path", JStr "/tmp/report.txt"); ("reason", JStr "cleanup")]);
    ("ConfirmDelete", JObj [("deletion_id", JStr "del_1700000000000_k3x9q2")]) ].

(** Session s1 reads a file under Documents, is asked for permission, and
    the permission is then denied. *)
Definition read_notes : jsval := JObj [("file_path", JStr "/home/u/Documents/notes.txt")].

Definition asked_once : ToolState * Z :=
  let run := exec ticking (executeTool "Read" read_notes (setSessionId "s1" initial)) 0%Z in
  (run.1.1.2, run.1.2).

End ToolsData.

(** ** Concrete proxies for the agent loop *)

Module ProviderData.
Import JsString Js Provider.

Definition q (s : string) : string := dq +:+ s +:+ dq.

(** The texts of three server-sent events. *)
Definition start_prefix : string :=
  "{" +:+ q "type" +:+ ":" +:+ q "content_block_start" +:+ "," +:+ q "content_block" +:+
  ":{" +:+ q "type" +:+ ":" +:+ q "tool_use" +:+ "," +:+ q "name" +:+ ":" +:+ q "Read" +:+
  "," +:+ q "id" +:+ ":" +:+ dq.

Definition tool_start (id : string) : string := start_prefix +:+ id +:+ dq +:+ "}}".

Definition block_stop : string := "{" +:+ q "type" +:+ ":" +:+ q "content_block_stop" +:+ "}".

Definition text_prefix : string :=
  "{" +:+ q "type" +:+ ":" +:+ q "content_block_delta" +:+ "," +:+ q "delta" +:+ ":{" +:+
  q "type" +:+ ":" +:+ q "text_delta" +:+ "," +:+ q "text" +:+ ":" +:+ dq.

Definition text_delta (t : string) : string := text_prefix +:+ t +:+ dq +:+ "}}".

(** The characters before the first double quote. *)
Fixpoint until_quote (s : string) : string :=
  match s with
  | EmptyString => EmptyString
  | String c s' => if Ascii.eqb c (ascii_of_nat 34) then EmptyString
                   else String c (until_quote s')
  end.

(** An engine that understands these three event texts and nothing else. *)
#[export] Instance small_engine : Engine := {|
  parse_event := fun data =>
    if String.eqb data block_stop then Some ContentBlockStop
    else if startsWith data start_prefix then
      Some (ContentBlockStart
              (Some (until_quote (string_slice (String.length start_prefix) data), "Read")))
    else if startsWith data text_prefix then
      Some (ContentBlockDelta
              (TextDelta (until_quote (string_slice (String.length text_prefix) data))))
    else None;
  JSON_parse := fun _ => None;
  JSON_stringify := fun v => toString (field v "error");
  needsThinkingModel := fun _ => false
|}.

Definition sse (events : list string) : string :=
  String.concat EmptyString (map (fun e => "data: " +:+ e +:+ lf) events).

(** A proxy that is down. *)
Definition down : Backend :=
  {| W := unit;
     makeStreamingRequest := fun w _ _ => (w, Response false 500 [] None);
     executeTool := fun _ _ w => (JNull, w);
     setSessionId := fun _ w => w |}.

Definition fresh (B : Backend) (w : W B) : State B :=
  {| conversationHistory := ∅; world := w |}.

(** A model that asks for the same tool in every turn, and an executor whose
    tools always fail. *)
Definition stubborn : Backend :=
  {| W := unit;
     makeStreamingRequest := fun w _ _ =>
       (w, Response true 200 [sse [tool_start "t1"; block_stop]] None);
     executeTool := fun _ _ w => (JObj [("error", JStr "ENOENT")], w);
     setSessionId := fun _ w => w |}.

Definition three_turns : Config := make_config None (Some 3%Z).

(** An agent at work: the first request fails, the next 49 answers each
    ask for one tool call, and every later answer is empty. *)
Definition busy : Backend :=
  {| W := nat;
     makeStreamingRequest := fun w _ _ =>
       (S w,
        if Nat.eqb w 0 then FetchRejected "ECONNREFUSED"
        else if Nat.leb w 49 then
          Response true 200 [sse [tool_start ("t" +:+ pretty w); block_stop]] None
        else Response true 200 [] None);
     executeTool := fun _ _ w => (JObj [("content", JStr "ok")], w);
     setSessionId := fun _ w => w |}.

(** Two queries in one conversation: the first aborts, the second takes 49
    tool turns and then stops. *)
Definition after_two_queries : State busy :=
  let cfg := make_config None None in
  let st1 := (query busy cfg "first" "c1" None (fresh busy 0)).2 in
  (query busy cfg "second" "c1" None st1).2.

Definition reached_history : list Message := getConversationHistory busy "c1" after_two_queries.

Definition third_prompt : Message := {| role := User; content := PlainText "third" |}.

End ProviderData.

(** ** A concrete bridge run *)

Module BridgeData.
Import Js Bridge.

(** The extension connects and a tool sends one click command. *)
Definition one_click : list Input :=
  [ Connection 7; SendCommand "click" (JObj [("selector", JStr "#ok")]) ].

End BridgeData.

(** ** Concrete permission stores *)

Module PermissionData.
Import JsString Js Runtime Posix.

(** A permission requested by the permission gate for session s1. *)
Definition gate_asked : Sandbox.State :=
  Sandbox.run Sandbox.initial
    [ Sandbox.OpValidate "perm_1" "s1" "write" "/home/u/Documents/x.txt" None ].

Definition gate_permission : Sandbox.Permission :=
  {| Sandbox.perm_id := "perm_1"; Sandbox.perm_sessionId := "s1";
     Sandbox.perm_operation := "write"; Sandbox.perm_path := "/home/u/Documents/x.txt";
     Sandbox.perm_reason := "write operation on sensitive path";
     Sandbox.perm_status := "pending" |}.

End PermissionData.

(** ** The capability gate: sessions, audit log, configuration and routes *)

Module SandboxAdmin.
Import JsString Js Runtime Sandbox.

(** [JSON.stringify(this.config, null, 2)] *)
Class ConfigJson := {
  stringify_config : SandboxConfig -> string
}.

Definition set_config (c : SandboxConfig) (st : State) : State :=
  {| config := c; pendingPermissions := pendingPermissions st;
     approvedPaths := approvedPaths st; deniedPaths := deniedPaths st;
     auditLog := auditLog st |}.

(** [!sessionId] for an optional string argument. *)
Definition absent (sessionId : option string) : bool :=
  match sessionId with
  | Some s => negb (JsString.truthy s)
  | None => true
  end.

(** [getPendingPermissions]: the pending permissions of one session, or all
    of them when no session is named. The list is kept in the order of the
    map's keys; the properties below do not depend on the order. *)
Definition getPendingPermissions (sessionId : option string) (st : State)
    : list Permission :=
  List.filter (fun perm =>
                 absent sessionId
                 || bool_decide (Some (perm_sessionId perm) = sessionId))
              (map snd (map_to_list (pendingPermissions st))).

(** [clearSession] *)
Definition clearSession (sessionId : string) (st : State) : State :=
  {| config := config st;
     pendingPermissions :=
       filter (fun kv : string * Permission => perm_sessionId kv.2 <> sessionId)
              (pendingPermissions st);
     approvedPaths := delete sessionId (approvedPaths st);
     deniedPaths := delete sessionId (deniedPaths st);
     auditLog := auditLog st |}.

(** [getAuditLog(limit = 100)]: [this.auditLog.slice(-limit)] *)
Definition getAuditLog (limit : option Z) (st : State) : list AuditEntry :=
  Tools.slice_from (auditLog st) (- default 100%Z limit).

Section WithPlatform.
Context `{NodePlatform} `{ConfigJson}.

Definition SANDBOX_CONFIG_PATH : string :=
  path_join (path_join cwd ".nimbus") "sandbox.json".

(** [saveConfig]: the error, if the write is rejected. *)
Definition saveConfig (st : State) : Prog (option JsError) :=
  Do (FsWriteFile (JStr SANDBOX_CONFIG_PATH) (JStr (stringify_config (config st))))
     (fun r => match r with
               | Resolved _ => Ret None
               | Rejected e => Ret (Some e)
               end).

(** [addAllowedPath]: the pattern is pushed before the configuration is
    saved; a rejected save rejects the call and leaves the pattern in. *)
Definition addAllowedPath (pathPattern : string) (st : State)
    : Prog (option JsError * State) :=
  if existsb (String.eqb pathPattern) (allowedPaths (config st)) then Ret (None, st)
  else
    let st' :=
      set_config {| allowedPaths := allowedPaths (config st) ++ [pathPattern];
                    cfg_deniedPaths := cfg_deniedPaths (config st);
                    requireApproval := requireApproval (config st);
                    sensitivePaths := sensitivePaths (config st) |} st in
    bindProg (saveConfig st') (fun r => Ret (r, st')).

(** [addDeniedPath] *)
Definition addDeniedPath (pathPattern : string) (st : State)
    : Prog (option JsError * State) :=
  if existsb (String.eqb pathPattern) (cfg_deniedPaths (config st)) then Ret (None, st)
  else
    let st' :=
      set_config {| allowedPaths := allowedPaths (config st);
                    cfg_deniedPaths := cfg_deniedPaths (config st) ++ [pathPattern];
                    requireApproval := requireApproval (config st);
                    sensitivePaths := sensitivePaths (config st) |} st in
    bindProg (saveConfig st') (fun r => Ret (r, st')).

(** *** The permission routes of the server

    The request bodies are taken to hold strings where the handlers expect
    them. *)

(** POST /api/sandbox/validate: [sessionId = 'default'] when the body has
    none; no reason is passed. *)
Definition api_validate (newId targetPath operation : string)
    (sessionId : option string) (st : State) : ValidationResult * State :=
  validateOperation newId (default "default" sessionId) operation targetPath None st.

(** POST /api/confirm-permission *)
Definition api_confirm_permission (permissionId : string) (st : State) : jsval * State :=
  match approvePermission permissionId st with
  | (None, st') => (JObj [("error", JStr "Permission not found")], st')
  | (Some perm, st') =>
      (JObj [("approved", JBool true); ("path", JStr (perm_path perm))], st')
  end.

(** POST /api/deny-permission *)
Definition api_deny_permission (permissionId : string) (st : State) : jsval * State :=
  match denyPermission permissionId st with
  | (None, st') => (JObj [("error", JStr "Permission not found")], st')
  | (Some perm, st') =>
      (JObj [("denied", JBool true); ("path", JStr (perm_path perm))], st')
  end.

(** GET /api/pending-permissions *)
Definition api_pending_permissions (sessionId : option string) (st : State)
    : list Permission * nat :=
  let pending := getPendingPermissions sessionId st in
  (pending, length pending).

End WithPlatform.
End SandboxAdmin.

(** ** The tool executor: exported stores and vocabulary *)

Module ToolsApi.
Import Js Runtime JsString Tools.

(** [!sessionId || entry.session === sessionId] *)
Definition of_session (sessionId : option string) (session : string) : bool :=
  match sessionId with
  | Some s => negb (truthy s) || String.eqb session s
  | None => true
  end.

(** [getPendingPermissions]: the entries with their ids. The list is kept in
    the order of the map's keys; the properties below do not depend on the
    order. *)
Definition getPendingPermissions (sessionId : option string) (st : ToolState)
    : list (string * PendingPermission) :=
  List.filter (fun kv => of_session sessionId (pp_sessionId kv.2))
              (map_to_list (pendingPermissions st)).

(** [getPendingDeletions] *)
Definition getPendingDeletions (sessionId : option string) (st : ToolState)
    : list (string * PendingDeletion) :=
  List.filter (fun kv => of_session sessionId (del_session kv.2))
              (map_to_list (pendingDeletions st)).

(** [getProgress]: [progressTracker.get(sessionId) || []] *)
Definition getProgress (sessionId : option string) (st : ToolState) : list jsval :=
  default [] (sessionId ≫= fun s => progressTracker st !! s).

(** [setBrowserExtension(ext)]; [connected] is [ext !== null]. *)
Definition setBrowserExtension (connected : bool) (st : ToolState) : ToolState :=
  {| todoStorage := todoStorage st; pendingDeletions := pendingDeletions st;
     pendingPermissions := pendingPermissions st; approvedPaths := approvedPaths st;
     progressTracker := progressTracker st; browserExtension := connected;
     currentSessionId := currentSessionId st; nircmdAvailable := nircmdAvailable st |}.

(** *** Vocabulary of the properties *)

(** The call with which ConfirmDelete carries out a pending deletion. *)
Definition deletion_call (pending : PendingDeletion) : Call unit :=
  if del_isDirectory pending
  then FsRm (del_path pending) (del_recursive pending)
  else FsUnlink (del_path pending).

(** Calls that change something outside the executor: the file system, a
    child process, the browser. *)
Definition mutating (e : Event) : bool :=
  match e with
  | EvCall c =>
      match c with
      | FsWriteFile _ _ | FsMkdir _ | FsRename _ _ | FsCp _ _ | FsCopyFile _ _
      | FsRm _ _ | FsUnlink _ | ExecAsync _ _ | SendCommand _ _ => true
      | FsStat _ | FsReadFile _ | FsReadFileBase64 _ | FsReaddir _
      | Glob _ _ _ _ | FetchUrl _ | SetTimeout _ => false
      end
  end.

(** The tools that only look. *)
Definition read_only_tools : list string :=
  [ "Read"; "Glob"; "Grep"; "ListDir"; "Delete"; "CancelDelete";
    "ConfirmPermission"; "DenyPermission"; "Progress"; "WebSearch"; "WebFetch";
    "TodoWrite"; "TodoRead"; "CodeAnalysis"; "Wait" ].

(** The browser-extension tools. *)
Definition browser_tools : list string :=
  [ "BrowserNavigate"; "BrowserClick"; "BrowserType"; "BrowserRead";
    "BrowserScreenshot"; "BrowserScroll"; "BrowserGetTabs"; "BrowserSwitchTab";
    "BrowserFillForm"; "BrowserGetElements" ].

Definition not_connected : jsval :=
  obj [ ("error", JStr "Browser extension not connected. Please install and connect the Chrome extension.") ].

(** The tools that take a source and a destination: name, then operation
    and reason reported for the source, then those for the destination. *)
Definition two_path_tools : list (string * (string * string) * (string * string)) :=
  [ ("Move", ("move from", "Moving files from this location"),
             ("move to", "Moving files to this location"));
    ("Copy", ("copy from", "Copying files from this location"),
             ("copy to", "Copying files to this location")) ].

(** The tools that can write each of the executor's stores. *)
Definition permission_tools : list string :=
  [ "Read"; "Write"; "Edit"; "ListDir"; "MakeDir"; "Move"; "Copy";
    "ConfirmPermission"; "DenyPermission" ].

Definition deletion_tools : list string := [ "Delete"; "ConfirmDelete"; "CancelDelete" ].

Definition nircmd_tools : list string := [ "Screenshot"; "MouseClick"; "TypeText"; "KeyPress" ].

(** Every session's progress list holds at most 50 entries. *)
Definition progress_bounded (st : ToolState) : Prop :=
  forall sessionId entries,
    progressTracker st !! sessionId = Some entries -> length entries <= 50.

Section WithPlatform.
Context `{NodePlatform} `{Builtins}.

(** [isSensitivePath(p) && !isPathApproved(currentSessionId, p)] on a string. *)
Definition asks_for (st : ToolState) (p : string) : bool :=
  sensitive_path p && negb (path_approved st (currentSessionId st) p).

(** The first call a gated tool makes on a path it may touch. *)
Definition first_access (name p : string) : option Event :=
  if String.eqb name "Read" then Some (EvCall (FsReadFile (JStr p)))
  else if String.eqb name "Write" then Some (EvCall (FsMkdir (JStr (path_dirname p))))
  else if String.eqb name "Edit" then Some (EvCall (FsReadFile (JStr p)))
  else if String.eqb name "ListDir" then Some (EvCall (FsReaddir (JStr p)))
  else if String.eqb name "MakeDir" then Some (EvCall (FsMkdir (JStr p)))
  else None.

End WithPlatform.
End ToolsApi.

(** ** The agent loop: vocabulary of the decoder properties *)

Module ProviderStream.
Import Js JsString Provider.

(** The text of a stream delivered in chunks. *)
Definition joined (chunks : list string) : string :=
  fold_right String.append EmptyString chunks.

(** The text holds no line feed. *)
Fixpoint no_newline (s : string) : bool :=
  match s with
  | EmptyString => true
  | String c s' => negb (Ascii.eqb c (ascii_of_nat 10)) && no_newline s'
  end.

(** Put a character in front of the first line. *)
Definition cons_head (c : ascii) (L : list string) : list string :=
  match L with
  | [] => [String c EmptyString]
  | l :: ls => String c l :: ls
  end.

(** The text events that a list of content blocks stands for, and the tool
    calls it records. *)
Definition texts_of (blocks : list ContentBlock) : list StreamEvent :=
  flat_map (fun b => match b with TextBlock t => [Text t] | _ => [] end) blocks.

Definition calls_of (blocks : list ContentBlock) : list ToolCall :=
  flat_map (fun b => match b with
                     | ToolUseBlock id name input =>
                         [{| tc_id := id; tc_name := name; tc_input := input |}]
                     | _ => []
                     end) blocks.

(** The decoder's text events and tool calls are those of the assistant
    content it has built. *)
Definition mirrors (d : Decoder) : Prop :=
  dec_textChunks d = texts_of (dec_assistantContent d) /\
  dec_toolCalls d = calls_of (dec_assistantContent d).

(** The prompt as it is pushed to the history. *)
Definition prompt_message (prompt : string) : Message :=
  {| role := User; content := PlainText prompt |}.

(** The request was answered with a response that could be decoded. *)
Definition decoded (outcome : FetchOutcome) : bool :=
  match outcome with
  | Response true _ _ None => true
  | _ => false
  end.

End ProviderStream.

(** ** The browser bridge: vocabulary of the envelope properties *)

Module BridgeLog.
Import Js Bridge.

(** The ids of the command envelopes among the messages sent, in order. *)
Definition envelope_ids (sent : list (nat * Outgoing)) : list Z :=
  flat_map (fun m => match m.2 with Envelope id _ _ => [id] | Registered => [] end) sent.

(** The calls of sendCommand among the inputs. *)
Definition commands (inputs : list Input) : list (string * jsval) :=
  flat_map (fun i => match i with SendCommand action params => [(action, params)] | _ => [] end)
           inputs.

(** The envelopes sent are numbered from 1 to the counter, and an armed timer
    names the action of the envelope sent under its id. *)
Definition numbered (st : State) : Prop :=
  (0 <= requestIdCounter st)%Z /\
  envelope_ids (sent st) = seqZ 1 (requestIdCounter st) /\
  (forall id action, timers st !! id = Some action ->
     exists ws params, In (ws, Envelope id action params) (sent st)).

End BridgeLog.

(** ** The local provider (OllamaProvider) *)

Module Ollama.
Import Js JsString.

Record ChatMessage := {
  msg_id : string;
  msg_role : string;
  msg_content : string;
  (** the time of [new Date()], in milliseconds *)
  msg_timestamp : Z
}.

(** A message as it is sent to the model. *)
Record Outgoing := { out_role : string; out_content : string }.

Inductive StreamEvent :=
| Text (content : string)
| Done
| ErrorEvent (error : string).

(** What [client.chat] does with one request: the call is rejected, or it
    returns a stream that delivers some parts and then ends or fails. A part
    carries [part.message?.content], if there is one; a failure carries the
    message of the thrown value, if it is an [Error]. *)
Inductive ChatOutcome :=
| ChatRejected (error : option string)
| ChatStream (parts : list (option string)) (failure : option (option string)).

(** The surroundings: the Ollama client and the clock. *)
Record Client := {
  W : Type;
  chat : W -> string -> list Outgoing -> W * ChatOutcome;
  (** [Date.now()] and [new Date()] *)
  now : W -> W * Z
}.

(** [addToHistory] on one conversation: push, then keep the last 50. *)
Definition push_trim (history : list ChatMessage) (message : ChatMessage)
    : list ChatMessage :=
  let history := history ++ [message] in
  if Nat.ltb 50 (length history) then drop (length history - 50) history else history.

Definition addToHistory (chatId : string) (message : ChatMessage)
    (conversationHistory : gmap string (list ChatMessage))
    : gmap string (list ChatMessage) :=
  <[chatId := push_trim (default [] (conversationHistory !! chatId)) message]>
    conversationHistory.

(** [error instanceof Error ? error.message : 'Unknown error'] in the event
    of the [catch]. *)
Definition error_event (error : option string) : StreamEvent :=
  ErrorEvent ("Ollama error: " +:+ default "Unknown error" error).

(** The contents that are yielded: [if (part.message?.content)]. *)
Definition contents (parts : list (option string)) : list string :=
  flat_map (fun part => match part with
                        | Some c => if truthy c then [c] else []
                        | None => []
                        end) parts.

(** [fullContent], built by [+=]. *)
Definition full_content (parts : list (option string)) : string :=
  fold_left String.append (contents parts) EmptyString.

(** The messages of a request: the history, behind the system prompt when
    there is one. *)
Definition request_messages (systemPrompt : option string) (history : list ChatMessage)
    : list Outgoing :=
  let messages :=
    map (fun msg => {| out_role := msg_role msg; out_content := msg_content msg |}) history in
  match systemPrompt with
  | Some s => if truthy s then {| out_role := "system"; out_content := s |} :: messages
              else messages
  | None => messages
  end.

Section WithClient.
Variable C : Client.

Record State := {
  conversationHistory : gmap string (list ChatMessage);
  world : W C
}.

(** [getHistory] *)
Definition getHistory (chatId : string) (st : State) : list ChatMessage :=
  default [] (conversationHistory st !! chatId).

(** A new message, with its id from [Date.now()] and its time stamp from
    [new Date()], pushed to the conversation. *)
Definition record (chatId role content : string) (st : State) : State :=
  let '(w1, t) := now C (world st) in
  let '(w2, stamp) := now C w1 in
  {| conversationHistory :=
       addToHistory chatId
         {| msg_id := "msg_" +:+ pretty t; msg_role := role; msg_content := content;
            msg_timestamp := stamp |}
         (conversationHistory st);
     world := w2 |}.

(** [query]: the events yielded and the state afterwards. *)
Definition query (prompt chatId : string) (model systemPrompt : option string) (st : State)
    : list StreamEvent * State :=
  let model := default "llama3.2" model in
  let st1 := record chatId "user" prompt st in
  let messages := request_messages systemPrompt (getHistory chatId st1) in
  let '(w, outcome) := chat C (world st1) model messages in
  let st2 := {| conversationHistory := conversationHistory st1; world := w |} in
  match outcome with
  | ChatRejected error => ([error_event error], st2)
  | ChatStream parts (Some error) => (map Text (contents parts) ++ [error_event error], st2)
  | ChatStream parts None =>
      (map Text (contents parts) ++ [Done],
       record chatId "assistant" (full_content parts) st2)
  end.

(** [clearHistory(chatId?)] *)
Definition clearHistory (chatId : option string) (st : State) : State :=
  match chatId with
  | Some c =>
      if truthy c
      then {| conversationHistory := delete c (conversationHistory st); world := world st |}
      else {| conversationHistory := ∅; world := world st |}
  | None => {| conversationHistory := ∅; world := world st |}
  end.

(** Every conversation holds at most 50 messages. *)
Definition bounded (st : State) : Prop :=
  forall chatId history,
    conversationHistory st !! chatId = Some history -> length history <= 50.

(** The request that [query] sends for a prompt. *)
Definition request_of (prompt chatId : string) (systemPrompt : option string) (st : State)
    : list Outgoing :=
  request_messages systemPrompt (getHistory chatId (record chatId "user" prompt st)).

(** The answer of the client to the request of [query]. *)
Definition answer_of (prompt chatId : string) (model systemPrompt : option string)
    (st : State) : ChatOutcome :=
  (chat C (world (record chatId "user" prompt st)) (default "llama3.2" model)
     (request_of prompt chatId systemPrompt st)).2.

End WithClient.
End Ollama.

(** ** Concrete calls of the gate's administration *)

Module SandboxAdminData.
Import Js Runtime JsString Sandbox SandboxAdmin Posix SandboxData.

#[export] Instance plain_json : ConfigJson := {|
  stringify_config := fun c => String.concat "," (cfg_deniedPaths c)
|}.

(** A gate that has validated two operations: four audit entries. *)
Definition two_validations : State :=
  run initial [ OpValidate "perm_1" "s1" "read" "/srv/data/a.txt" None;
                OpValidate "perm_2" "s1" "read" "/home/u/Documents/x.txt" None ].

(** Session s1 was denied a path under Documents. *)
Definition denied_documents : State := after_deny.

End SandboxAdminData.

(** ** Concrete tool states *)

Module ToolsApiData.
Import Js Runtime JsString Tools ToolsApi Posix ToolsData.

Definition rm_command : list (string * jsval) :=
  [ ("command", JStr "sudo RM -RF /var/www") ].

(** The pending deletion that Delete records for /tmp/report.txt in the calm
    environment, and the state that holds it. *)
Definition report_deletion : PendingDeletion :=
  {| del_path := JStr "/tmp/report.txt"; del_recursive := JBool false;
     del_reason := JStr "cleanup"; del_isDirectory := false; del_size := 42;
     del_fileCount := 1; del_createdAt := "2026-01-01T00:00:00.000Z";
     del_session := "default" |}.

Definition deletion_requested : ToolState :=
  (exec calm (executeTool "Delete"
                (JObj [("path", JStr "/tmp/report.txt"); ("reason", JStr "cleanup")])
                initial) tt).1.1.2.

Definition report_id : list (string * jsval) :=
  [ ("deletion_id", JStr "del_1700000000000_k3x9q2") ].

Definition two_todos : list jsval :=
  [ JObj [("content", JStr "read"); ("status", JStr "completed")];
    JObj [("content", JStr "write"); ("status", JStr "pending")] ].

(** The permission that session s1 was asked for in [asked_once]. *)
Definition notes_permission : PendingPermission :=
  {| pp_path := JStr "/home/u/Documents/notes.txt"; pp_operation := "read";
     pp_reason := "Reading files from this location"; pp_sessionId := "s1";
     pp_requestedAt := "2026-01-01T00:00:00.000Z" |}.

Definition move_into_documents : list (string * jsval) :=
  [ ("source", JStr "/srv/a.txt"); ("destination", JStr "/home/u/Documents/a.txt") ].

End ToolsApiData.

(** ** Concrete streams *)

Module ProviderStreamData.
Import Js JsString Provider ProviderStream ProviderData.

(** One text event, delivered in one chunk and cut in two. *)
Definition whole : list string := [ sse [text_delta "hi"] ].

Definition cut : list string :=
  [ "data: "; text_delta "hi"; lf ].

(** A complete event that is not followed by a line feed. *)
Definition unfinished : string := "data: " +:+ text_delta "lost".

(** A limit below zero. *)
Definition no_turns : Config := make_config None (Some (-1)%Z).

End ProviderStreamData.

(** ** Concrete clients of the local provider *)

Module OllamaData.
Import Js JsString Ollama.

(** A client that answers every request with the same four parts, two of
    them without text, and a clock that advances by one millisecond at every
    reading. *)
Definition steady : Client :=
  {| W := Z;
     chat := fun w _ _ => (w, ChatStream [Some "Hel"; None; Some EmptyString; Some "lo"] None);
     now := fun w => ((w + 1)%Z, (1700000000000 + w)%Z) |}.

Definition fresh (C : Client) (w : W C) : State C :=
  {| conversationHistory := ∅; world := w |}.

(** One question asked and answered in chat c1. *)
Definition answered : State steady :=
  (query steady "hi" "c1" None None (fresh steady 0%Z)).2.

Definition greeting : ChatMessage :=
  {| msg_id := "msg_1"; msg_role := "user"; msg_content := "hello"; msg_timestamp := 1 |}.

End OllamaData.

(** * Properties *)

(** Settle a decidable proposition on closed terms by evaluation. *)
Ltac decide_by_compute := refine (bool_decide_unpack _ _); vm_compute; exact I.

Module JsStringFacts.
Import JsString.

Lemma prefix_refl (s : string) : String.prefix s s = true.
Proof.
  induction s as [|c s IH]; simpl; [reflexivity|].
  destruct (ascii_dec c c) as [_|Hne]; [exact IH | congruence].
Qed.

Lemma startsWith_refl (s : string) : startsWith s s = true.
Proof. apply prefix_refl. Qed.

End JsStringFacts.

Module RuntimeFacts.
Import Js Runtime.

Lemma wp_mono {A} (P P' : Event -> Prop) (Q Q' : A -> Prop) (p : Prog A) :
  (forall e, P e -> P' e) -> (forall a, Q a -> Q' a) -> wp P Q p -> wp P' Q' p.
Proof.
  intros HP HQ. induction p as [a|R c k IH|R q k IH]; simpl.
  - apply HQ.
  - intros [Hc Hk]. split; [apply HP, Hc|]. intros r. apply IH, Hk.
  - intros Hk r. apply IH, Hk.
Qed.

Lemma wp_bind {A B} (P : Event -> Prop) (Q : B -> Prop) (p : Prog A) (f : A -> Prog B) :
  wp P (fun a => wp P Q (f a)) p -> wp P Q (bindProg p f).
Proof.
  induction p as [a|R c k IH|R q k IH]; simpl.
  - exact id.
  - intros [Hc Hk]. split; [exact Hc|]. intros r. apply IH, Hk.
  - intros Hk r. apply IH, Hk.
Qed.

(** Soundness of [wp] for every environment. *)
Lemma wp_exec (E : Env) {A} (P : Event -> Prop) (Q : A -> Prop) (p : Prog A) :
  wp P Q p ->
  forall w, Q (exec E p w).1.1 /\ Forall P (exec E p w).2.
Proof.
  induction p as [a|R c k IH|R q k IH]; simpl; intros Hwp w.
  - split; [exact Hwp|constructor].
  - destruct Hwp as [Hc Hk].
    destruct (respond E R w c) as [w1 r].
    specialize (IH r (Hk r) w1).
    destruct (exec E (k r) w1) as [[a w2] tr]. simpl in *.
    destruct IH as [HQ HF]. split; [exact HQ|]. constructor; assumption.
  - destruct (answer E R w q) as [w1 r].
    exact (IH r (Hwp r) w1).
Qed.

End RuntimeFacts.

Module ToolsFacts.
Import JsString Js Runtime RuntimeFacts Tools.

Create HintDb safe_db.

Section Rules.
Variable Inv : ToolState -> Prop.
Variable P : Event -> Prop.

Lemma safe_ret {A} (a : A) : safe Inv P (ret a).
Proof. intros st Hst. exact Hst. Qed.

Lemma safe_throw {A} (e : JsError) : safe Inv P (@throw A e).
Proof. intros st Hst. exact Hst. Qed.

Lemma safe_bind {A B} (m : M A) (f : A -> M B) :
  safe Inv P m -> (forall a, safe Inv P (f a)) -> safe Inv P (bind m f).
Proof.
  intros Hm Hf st Hst. unfold bind. apply wp_bind.
  eapply wp_mono; [exact (fun e He => He) | | exact (Hm st Hst)].
  intros [[a|e] st'] Hst'; simpl in *; [exact (Hf a st' Hst') | exact Hst'].
Qed.

Lemma safe_bind_get {B} (f : ToolState -> M B) :
  (forall st0, Inv st0 -> safe Inv P (f st0)) -> safe Inv P (bind get f).
Proof. intros Hf st Hst. exact (Hf st Hst st Hst). Qed.

Lemma safe_put (st' : ToolState) : Inv st' -> safe Inv P (put st').
Proof. intros Hst' st _. exact Hst'. Qed.

Lemma safe_await {R} (c : Call R) : P (EvCall c) -> safe Inv P (await c).
Proof. intros Hc st Hst. split; [exact Hc|]. intros [v|e]; exact Hst. Qed.

Lemma safe_ask {R} (q : Query R) : safe Inv P (ask q).
Proof. intros st Hst r. exact Hst. Qed.

Lemma safe_try_catch {A} (m : M A) (h : JsError -> M A) :
  safe Inv P m -> (forall e, safe Inv P (h e)) -> safe Inv P (try_catch m h).
Proof.
  intros Hm Hh st Hst. unfold try_catch. apply wp_bind.
  eapply wp_mono; [exact (fun e He => He) | | exact (Hm st Hst)].
  intros [[a|e] st'] Hst'; simpl in *; [exact Hst' | exact (Hh e st' Hst')].
Qed.

Lemma safe_lift (f : ToolState -> Res jsval * ToolState) :
  (forall st, Inv st -> Inv (f st).2) -> safe Inv P (lift f).
Proof. intros Hf st Hst. exact (Hf st Hst). Qed.

Lemma safe_bind_object_of {B} (input : jsval) (f : jsval -> M B) :
  safe Inv P (f input) -> safe Inv P (bind (object_of input) f).
Proof.
  intros Hf st Hst. unfold bind, object_of.
  destruct (nullish input); simpl; [exact Hst | exact (Hf st Hst)].
Qed.

End Rules.

#[export] Hint Resolve safe_ret safe_throw safe_ask : safe_db.

(** One step of a proof that a handler is [safe]. *)
Ltac safe_step :=
  lazymatch goal with
  | |- safe _ _ (bind get _) => apply safe_bind_get; intros ? ?
  | |- safe _ _ (bind (object_of _) _) => apply safe_bind_object_of
  | |- safe _ _ (bind _ _) => apply safe_bind; [| intros ?]
  | |- safe _ _ (try_catch _ _) => apply safe_try_catch; [| intros ?]
  | |- safe _ _ (ret _) => apply safe_ret
  | |- safe _ _ (throw _) => apply safe_throw
  | |- safe _ _ (ask _) => apply safe_ask
  | |- safe _ _ (await _) => apply safe_await
  | |- safe _ _ (put _) => apply safe_put
  | |- safe _ _ (if ?b then _ else _) => destruct b
  | |- safe _ _ (match ?x with _ => _ end) => destruct x
  | |- safe _ _ _ => solve [auto with safe_db nocore]
  end.

Section Handlers.
Context `{NodePlatform} `{Builtins}.

(** The paths requested so far, and a predicate on calls that admits every
    call that is not a deletion. *)
Variable R : list jsval.
Variable P : Event -> Prop.
Hypothesis P_other : forall e, deletion_target e = None -> P e.

Lemma pending_within_frame st st' :
  pendingDeletions st' = pendingDeletions st ->
  pending_within R st -> pending_within R st'.
Proof. unfold pending_within. intros ->. exact id. Qed.

Lemma pending_within_delete k st :
  pending_within R st ->
  pending_within R (set_pendingDeletions (delete k (pendingDeletions st)) st).
Proof.
  unfold pending_within. simpl. intros Hst k' pd Hl.
  apply lookup_delete_Some in Hl as [_ Hl]. exact (Hst k' pd Hl).
Qed.

Lemma pending_within_insert k pd st :
  In (del_path pd) R ->
  pending_within R st ->
  pending_within R (set_pendingDeletions (<[k := pd]> (pendingDeletions st)) st).
Proof.
  unfold pending_within. simpl. intros Hin Hst k' pd' Hl.
  apply lookup_insert_Some in Hl as [[_ <-]|[_ Hl]]; [exact Hin|exact (Hst k' pd' Hl)].
Qed.

Ltac side :=
  first [ apply P_other; reflexivity
        | eapply pending_within_frame; [|eassumption]; reflexivity
        | apply pending_within_delete; assumption
        | assumption ].

Ltac safe_auto := repeat (safe_step; try side).

Lemma safe_object_of input : safe (pending_within R) P (object_of input).
Proof. unfold object_of. safe_auto. Qed.

Lemma safe_path_arg v : safe (pending_within R) P (path_arg v).
Proof. unfold path_arg. safe_auto. Qed.

Lemma safe_string_arg v : safe (pending_within R) P (string_arg v).
Proof. unfold string_arg. safe_auto. Qed.

Lemma safe_js_length v : safe (pending_within R) P (js_length v).
Proof. unfold js_length. safe_auto. Qed.

#[local] Hint Resolve safe_object_of safe_path_arg safe_string_arg safe_js_length : safe_db.

Lemma safe_isSensitivePath p : safe (pending_within R) P (isSensitivePath p).
Proof. unfold isSensitivePath. safe_auto. Qed.

Lemma safe_isPathApproved s p : safe (pending_within R) P (isPathApproved s p).
Proof. unfold isPathApproved. safe_auto. Qed.

#[local] Hint Resolve safe_isSensitivePath safe_isPathApproved : safe_db.

Lemma safe_needsPermission p : safe (pending_within R) P (needsPermission p).
Proof. unfold needsPermission. safe_auto. Qed.

Lemma safe_requestPathPermission p op r :
  safe (pending_within R) P (requestPathPermission p op r).
Proof. unfold requestPathPermission. safe_auto. Qed.

#[local] Hint Resolve safe_needsPermission safe_requestPathPermission : safe_db.

Lemma safe_executeRead input : safe (pending_within R) P (executeRead input).
Proof. unfold executeRead. safe_auto. Qed.

Lemma safe_executeWrite input : safe (pending_within R) P (executeWrite input).
Proof. unfold executeWrite. safe_auto. Qed.

Lemma safe_executeEdit input : safe (pending_within R) P (executeEdit input).
Proof. unfold executeEdit. safe_auto. Qed.

Lemma safe_executeGlob input : safe (pending_within R) P (executeGlob input).
Proof. unfold executeGlob. safe_auto. Qed.

Lemma safe_grep_files pattern files : forall results lastIndex,
  safe (pending_within R) P (grep_files pattern files results lastIndex).
Proof.
  induction files as [|file rest IH]; intros results lastIndex; simpl.
  - apply safe_ret.
  - apply safe_bind.
    + apply safe_try_catch; [|intros e; apply safe_ret].
      apply safe_bind; [apply safe_await; apply P_other; reflexivity|].
      intros content. destruct (grep_file pattern file content lastIndex).
      apply safe_ret.
    + intros [[results' lastIndex'] stop]. destruct stop; [apply safe_ret|apply IH].
Qed.

#[local] Hint Resolve safe_grep_files : safe_db.

Lemma safe_executeGrep input : safe (pending_within R) P (executeGrep input).
Proof. unfold executeGrep. safe_auto. Qed.

Lemma safe_list_items d entries : safe (pending_within R) P (list_items d entries).
Proof.
  induction entries as [|e rest IH]; simpl; [apply safe_ret|].
  safe_auto.
Qed.

#[local] Hint Resolve safe_list_items : safe_db.

Lemma safe_executeListDir input : safe (pending_within R) P (executeListDir input).
Proof. unfold executeListDir. safe_auto. Qed.

Lemma safe_executeMakeDir input : safe (pending_within R) P (executeMakeDir input).
Proof. unfold executeMakeDir. safe_auto. Qed.

Lemma safe_executeMove input : safe (pending_within R) P (executeMove input).
Proof. unfold executeMove. safe_auto. Qed.

Lemma safe_executeCopy input : safe (pending_within R) P (executeCopy input).
Proof. unfold executeCopy. safe_auto. Qed.

Lemma safe_executeDelete input :
  In (field input "path") R ->
  safe (pending_within R) P (executeDelete input).
Proof.
  intros Hreq. unfold executeDelete.
  apply safe_bind_object_of.
  apply safe_bind; [safe_auto|]. intros [stat|]; [|apply safe_ret].
  do 2 (apply safe_bind; [apply safe_ask|]; intros ?).
  apply safe_bind; [safe_auto|]. intros fileCount.
  apply safe_bind; [apply safe_ask|]. intros createdAt.
  apply safe_bind_get. intros st0 Hst0.
  apply safe_bind; [|intros; apply safe_ret].
  apply safe_put, pending_within_insert; [exact Hreq|exact Hst0].
Qed.

Lemma safe_executeConfirmDelete input :
  (forall p r, In p R -> P (EvCall (FsRm p r))) ->
  (forall p, In p R -> P (EvCall (FsUnlink p))) ->
  safe (pending_within R) P (executeConfirmDelete input).
Proof.
  intros Hrm Hunlink. unfold executeConfirmDelete.
  apply safe_bind_object_of.
  apply safe_bind_get. intros st0 Hst0.
  destruct (key_of (field input "deletion_id")) as [k|] eqn:Hk; simpl; [|apply safe_ret].
  destruct (pendingDeletions st0 !! k) as [pending|] eqn:Hp; [|apply safe_ret].
  pose proof (Hst0 k pending Hp) as Hin.
  apply safe_try_catch; [|intros e; apply safe_ret].
  apply safe_bind.
  - destruct (del_isDirectory pending); apply safe_await; auto.
  - intros _. safe_auto.
Qed.

Lemma safe_executeCancelDelete input :
  safe (pending_within R) P (executeCancelDelete input).
Proof.
  unfold executeCancelDelete.
  apply safe_bind_object_of.
  apply safe_bind_get. intros st0 Hst0.
  destruct (key_of (field input "deletion_id")) as [k|] eqn:Hk; simpl; [|apply safe_ret].
  destruct (pendingDeletions st0 !! k) as [pending|] eqn:Hp; [|apply safe_ret].
  safe_auto.
Qed.

Lemma safe_executeProgress input : safe (pending_within R) P (executeProgress input).
Proof. unfold executeProgress. safe_auto. Qed.

Lemma safe_executeBash input : safe (pending_within R) P (executeBash input).
Proof. unfold executeBash. safe_auto. Qed.

Lemma safe_executeWebSearch input : safe (pending_within R) P (executeWebSearch input).
Proof. unfold executeWebSearch. safe_auto. Qed.

Lemma safe_executeWebFetch input : safe (pending_within R) P (executeWebFetch input).
Proof. unfold executeWebFetch. safe_auto. Qed.

Lemma safe_executeTodoWrite input : safe (pending_within R) P (executeTodoWrite input).
Proof. unfold executeTodoWrite. safe_auto. Qed.

Lemma safe_executeTodoRead : safe (pending_within R) P executeTodoRead.
Proof. unfold executeTodoRead. safe_auto. Qed.

Lemma safe_executeCodeAnalysis input : safe (pending_within R) P (executeCodeAnalysis input).
Proof. unfold executeCodeAnalysis. safe_auto. Qed.

Lemma safe_checkNircmd : safe (pending_within R) P checkNircmd.
Proof. unfold checkNircmd. safe_auto. Qed.

#[local] Hint Resolve safe_checkNircmd : safe_db.

Lemma safe_executeOpenBrowser input : safe (pending_within R) P (executeOpenBrowser input).
Proof. unfold executeOpenBrowser. safe_auto. Qed.

Lemma safe_executeWait input : safe (pending_within R) P (executeWait input).
Proof. unfold executeWait. safe_auto. Qed.

Lemma safe_checkBrowserExtension : safe (pending_within R) P checkBrowserExtension.
Proof. unfold checkBrowserExtension. safe_auto. Qed.

#[local] Hint Resolve safe_checkBrowserExtension : safe_db.

Lemma safe_browser_tool action params :
  safe (pending_within R) P params ->
  safe (pending_within R) P (browser_tool action params).
Proof. intros Hp. unfold browser_tool. safe_auto. Qed.

Lemma safe_confirmPermission v : safe (pending_within R) P (lift (confirmPermission v)).
Proof.
  apply safe_lift. intros st Hst. unfold confirmPermission.
  destruct (key_of v ≫= _) as [perm|]; [|exact Hst].
  destruct (pp_path perm); exact Hst.
Qed.

Lemma safe_denyPermission v : safe (pending_within R) P (lift (denyPermission v)).
Proof.
  apply safe_lift. intros st Hst. unfold denyPermission.
  destruct (key_of v ≫= _) as [perm|]; exact Hst.
Qed.

(** The computer-use tools unlink the files they created themselves. *)
Section ComputerUse.
Hypothesis P_temp : forall p, temp_file p -> P (EvCall (FsUnlink p)).

Lemma script_is_temp name :
  In name script_names -> temp_file (JStr (path_join cwd name)).
Proof. intros Hin. exists name. split; [reflexivity|left; exact Hin]. Qed.

Lemma safe_run_script name args timeout :
  In name script_names ->
  safe (pending_within R) P (run_script name args timeout).
Proof.
  intros Hin. unfold run_script. safe_auto.
  apply P_temp, script_is_temp, Hin.
Qed.

Lemma safe_executeScreenshot input : safe (pending_within R) P (executeScreenshot input).
Proof.
  unfold executeScreenshot.
  apply safe_bind; [apply safe_ask|]. intros now.
  apply safe_try_catch; [|intros e; apply safe_ret].
  apply safe_bind.
  - safe_auto. apply safe_run_script. simpl. auto.
  - intros _. safe_auto. apply P_temp. eexists. split; [reflexivity|].
    right. exists now. reflexivity.
Qed.

Lemma safe_executeMouseClick input : safe (pending_within R) P (executeMouseClick input).
Proof.
  unfold executeMouseClick. safe_auto.
  all: apply safe_run_script; simpl; auto.
Qed.

Lemma safe_type_chars text : safe (pending_within R) P (type_chars text).
Proof. induction text as [|c rest IH]; simpl; safe_auto. Qed.

Lemma safe_executeTypeText input : safe (pending_within R) P (executeTypeText input).
Proof.
  unfold executeTypeText. safe_auto.
  all: first [apply safe_type_chars | apply safe_run_script; simpl; auto 10].
Qed.

Lemma safe_executeKeyPress input : safe (pending_within R) P (executeKeyPress input).
Proof.
  unfold executeKeyPress. safe_auto.
  all: apply safe_run_script; simpl; auto 10.
Qed.

Lemma safe_executeScroll input : safe (pending_within R) P (executeScroll input).
Proof.
  unfold executeScroll. safe_auto.
  all: apply safe_run_script; simpl; auto 10.
Qed.

End ComputerUse.

End Handlers.

Section Dispatch.
Context `{NodePlatform} `{Builtins}.

Lemma allowed_other R name e : deletion_target e = None -> allowed_deletion R name e.
Proof. unfold allowed_deletion. intros ->. exact I. Qed.

Lemma allowed_temp R name p :
  computer_use name -> temp_file p -> allowed_deletion R name (EvCall (FsUnlink p)).
Proof. intros Hn Hp. right. split; assumption. Qed.

Lemma allowed_mono R R' name e :
  (forall p, In p R -> In p R') -> allowed_deletion R name e -> allowed_deletion R' name e.
Proof.
  unfold allowed_deletion. intros Hsub. destruct (deletion_target e) as [p|]; [|exact id].
  intros [[Hn Hp]|Ht]; [left; split; auto|right; exact Ht].
Qed.

Lemma pending_within_mono R R' st :
  (forall p, In p R -> In p R') -> pending_within R st -> pending_within R' st.
Proof. unfold pending_within. intros Hsub Hst k pd Hl. apply Hsub, (Hst k pd Hl). Qed.

(** With [String.eqb name s = true] in hand, replace [name] by [s]. *)
Ltac name_is E := apply String.eqb_eq in E; subst.

Lemma safe_handler R name input :
  safe (pending_within (requested name input ++ R)) (allowed_deletion R name)
       (handler name input).
Proof.
  unfold handler.
  repeat match goal with
         | |- safe _ _ (if String.eqb name ?s then _ else _) =>
             let E := fresh "E" in
             destruct (String.eqb name s) eqn:E; [name_is E|]
         end.
  - apply safe_executeRead; try apply allowed_other.
  - apply safe_executeWrite; try apply allowed_other.
  - apply safe_executeEdit; try apply allowed_other.
  - apply safe_executeBash; try apply allowed_other.
  - apply safe_executeGlob; try apply allowed_other.
  - apply safe_executeGrep; try apply allowed_other.
  - apply safe_executeListDir; try apply allowed_other.
  - apply safe_executeMakeDir; try apply allowed_other.
  - apply safe_executeMove; try apply allowed_other.
  - apply safe_executeCopy; try apply allowed_other.
  - apply safe_executeDelete; [apply allowed_other|]. simpl. left. reflexivity.
  - apply safe_executeConfirmDelete.
    + intros p r Hp. left. split; [reflexivity|exact Hp].
    + intros p Hp. left. split; [reflexivity|exact Hp].
  - apply safe_executeCancelDelete; try apply allowed_other.
  - apply safe_bind_object_of, safe_confirmPermission.
  - apply safe_bind_object_of, safe_denyPermission.
  - apply safe_executeProgress; try apply allowed_other.
  - apply safe_executeWebSearch; try apply allowed_other.
  - apply safe_executeWebFetch; try apply allowed_other.
  - apply safe_executeTodoWrite; try apply allowed_other.
  - apply safe_executeTodoRead; try apply allowed_other.
  - apply safe_executeCodeAnalysis; try apply allowed_other.
  - apply safe_executeScreenshot; [apply allowed_other|].
    intros p Hp. apply allowed_temp; [|exact Hp]. unfold computer_use. simpl. auto 10.
  - apply safe_executeMouseClick; [apply allowed_other|].
    intros p Hp. apply allowed_temp; [|exact Hp]. unfold computer_use. simpl. auto 10.
  - apply safe_executeTypeText; [apply allowed_other|].
    intros p Hp. apply allowed_temp; [|exact Hp]. unfold computer_use. simpl. auto 10.
  - apply safe_executeKeyPress; [apply allowed_other|].
    intros p Hp. apply allowed_temp; [|exact Hp]. unfold computer_use. simpl. auto 10.
  - apply safe_executeOpenBrowser; try apply allowed_other.
  - apply safe_executeScroll; [apply allowed_other|].
    intros p Hp. apply allowed_temp; [|exact Hp]. unfold computer_use. simpl. auto 10.
  - apply safe_executeWait; try apply allowed_other.
  - apply safe_browser_tool; [apply allowed_other|].
    apply safe_bind_object_of, safe_ret.
  - apply safe_browser_tool; [apply allowed_other|apply safe_ret].
  - apply safe_browser_tool; [apply allowed_other|apply safe_ret].
  - apply safe_browser_tool; [apply allowed_other|apply safe_ret].
  - apply safe_browser_tool; [apply allowed_other|apply safe_ret].
  - apply safe_browser_tool; [apply allowed_other|apply safe_ret].
  - apply safe_browser_tool; [apply allowed_other|apply safe_ret].
  - apply safe_browser_tool; [apply allowed_other|apply safe_ret].
  - apply safe_browser_tool; [apply allowed_other|apply safe_ret].
  - apply safe_browser_tool; [apply allowed_other|apply safe_ret].
  - apply safe_ret.
Qed.

(** One invocation: its deletions are allowed by the requests made so far,
    and afterwards every pending deletion is for a requested path. *)
Lemma wp_executeTool R name input st :
  pending_within R st ->
  wp (allowed_deletion R name)
     (fun x => pending_within (requested name input ++ R) x.2)
     (executeTool name input st).
Proof.
  intros Hst. unfold executeTool. apply wp_bind.
  eapply wp_mono; [exact (fun e He => He) | |].
  2: { apply safe_handler. eapply pending_within_mono; [|exact Hst].
       intros p Hp. apply in_or_app. right. exact Hp. }
  intros [[a|e] st'] Hst'; exact Hst'.
Qed.

End Dispatch.

Section Runs.
Context `{NodePlatform} `{Builtins}.

Lemma run_tools_calls E calls : forall st w,
  map fst (run_tools E calls st w).2 = calls.
Proof.
  induction calls as [|[name input] rest IH]; intros st w; simpl; [reflexivity|].
  destruct (exec E (executeTool name input st) w) as [[[result st1] w1] tr].
  specialize (IH st1 w1).
  destruct (run_tools E rest st1 w1) as [[st2 w2] log]. simpl in *.
  rewrite IH. reflexivity.
Qed.

Lemma run_tools_allowed E calls : forall st w R,
  pending_within R st ->
  forall i name input tr,
    (run_tools E calls st w).2 !! i = Some (name, input, tr) ->
    Forall (allowed_deletion (requests (take i calls) ++ R) name) tr.
Proof.
  induction calls as [|[name0 input0] rest IH]; intros st w R Hst i name input tr; simpl.
  - intros Hl. destruct i; discriminate.
  - pose proof (wp_exec E _ _ _ (wp_executeTool R name0 input0 st Hst) w) as [Hpost Htr].
    destruct (exec E (executeTool name0 input0 st) w) as [[[result st1] w1] tr0].
    simpl in Hpost, Htr.
    specialize (IH st1 w1 _ Hpost).
    destruct (run_tools E rest st1 w1) as [[st2 w2] log]. simpl in *.
    destruct i as [|i]; simpl.
    + intros Hl. inversion Hl; subst. exact Htr.
    + intros Hl. specialize (IH i name input tr Hl).
      eapply Forall_impl; [exact IH|].
      intros e. apply allowed_mono. intros p Hp.
      unfold requests in *. simpl.
      apply in_app_or in Hp as [Hp|Hp]; apply in_or_app.
      * left. apply in_or_app. right. exact Hp.
      * apply in_app_or in Hp as [Hp|Hp]; [left; apply in_or_app; left; exact Hp|right; exact Hp].
Qed.

Lemma requests_earlier calls i p :
  In p (requests (take i calls)) ->
  exists j input, j < i /\ calls !! j = Some ("Delete", input) /\ field input "path" = p.
Proof.
  unfold requests. intros Hin. apply in_flat_map in Hin as [[name input] [Hc Hp]].
  simpl in Hp. unfold requested in Hp.
  destruct (String.eqb name "Delete") eqn:E; [|destruct Hp].
  apply String.eqb_eq in E. subst name. destruct Hp as [Hp|[]].
  apply list_elem_of_In, elem_of_take in Hc as [j [Hj Hlt]].
  exists j, input. split; [exact Hlt|]. split; [exact Hj|exact Hp].
Qed.

(** C1 (amended): in every run of tool invocations from the initial state,
    against every environment, an fs.rm or fs.unlink call is issued either by
    ConfirmDelete, for the path an earlier Delete invocation requested, or by
    one of the computer-use tools (Screenshot, MouseClick, TypeText, KeyPress,
    Scroll) for a file the tool creates itself in the working directory. *)
Theorem deletions_follow_requests
    (E : Env) (calls : list (string * jsval)) (w : world E)
    (i : nat) (name : string) (input : jsval) (tr : list Event)
    (e : Event) (p : jsval) :
  (run_tools E calls initial w).2 !! i = Some (name, input, tr) ->
  In e tr ->
  deletion_target e = Some p ->
  (name = "ConfirmDelete" /\ requested_earlier (run_tools E calls initial w).2 i p)
  \/ (computer_use name /\ temp_file p).
Proof.
  intros Hl He Hp.
  assert (Hinit : pending_within [] initial).
  { intros k pd Hk. simpl in Hk. rewrite lookup_empty in Hk. discriminate. }
  pose proof (run_tools_allowed E calls initial w [] Hinit i name input tr Hl) as Hall.
  rewrite Forall_forall in Hall. specialize (Hall e (proj2 (list_elem_of_In _ _) He)).
  unfold allowed_deletion in Hall. rewrite Hp in Hall.
  destruct Hall as [[Hn Hin]|Htemp]; [left|right; exact Htemp].
  split; [exact Hn|].
  rewrite app_nil_r in Hin.
  destruct (requests_earlier calls i p Hin) as (j & input' & Hlt & Hj & Hpath).
  pose proof (run_tools_calls E calls initial w) as Hcalls.
  rewrite <- Hcalls in Hj. rewrite list_lookup_fmap in Hj.
  destruct ((run_tools E calls initial w).2 !! j) as [[c tr']|] eqn:Hlog; [|discriminate].
  simpl in Hj. inversion Hj; subst c.
  exists j, input', tr'. split; [exact Hlt|]. split; [exact Hlog|exact Hpath].
Qed.

End Runs.

Section Permissions.
Context `{NodePlatform} `{Builtins}.

Lemma needsPermission_true st path :
  sensitive_path path = true ->
  path_approved st (currentSessionId st) path = false ->
  needsPermission (JStr path) st = Ret (Ok true, st).
Proof.
  intros Hs Ha. unfold needsPermission, isSensitivePath, isPathApproved, bind, get, ret.
  simpl. rewrite Hs. simpl.
  unfold path_approved in Ha.
  destruct (approvedPaths st !! currentSessionId st) as [approved|]; simpl.
  - rewrite Ha. reflexivity.
  - reflexivity.
Qed.

Lemma requestPathPermission_exec (E : Env) st w targetPath operation reason :
  let run := exec E (requestPathPermission targetPath operation reason st) w in
  run.1.1 =
    (Ok (permission_request (next_permission_id E w) targetPath operation reason),
     set_pendingPermissions
       (<[next_permission_id E w :=
            {| pp_path := targetPath; pp_operation := operation; pp_reason := reason;
               pp_sessionId := currentSessionId st;
               pp_requestedAt := next_requestedAt E w |}]> (pendingPermissions st)) st)
  /\ run.2 = [].
Proof.
  unfold requestPathPermission, next_permission_id, next_requestedAt, bind, ask, get, put, ret.
  simpl.
  destruct (answer E Z w DateNow) as [w1 now].
  destruct (answer E string w1 RandomSuffix) as [w2 rnd].
  destruct (answer E string w2 IsoTimestamp) as [w3 iso]. simpl.
  split; reflexivity.
Qed.

Lemma exec_bindProg (E : Env) {A B} (p : Prog A) (f : A -> Prog B) (w : world E) :
  exec E (bindProg p f) w =
  let '(a, w1, tr1) := exec E p w in
  let '(b, w2, tr2) := exec E (f a) w1 in
  (b, w2, tr1 ++ tr2).
Proof.
  revert w. induction p as [a|R c k IH|R q k IH]; intros w; simpl.
  - destruct (exec E (f a) w) as [[b w2] tr2]. reflexivity.
  - destruct (respond E R w c) as [w1 r]. rewrite IH.
    destruct (exec E (k r) w1) as [[a w2] tr1].
    destruct (exec E (f a) w2) as [[b w3] tr2]. reflexivity.
  - destruct (answer E R w q) as [w1 r]. apply IH.
Qed.

(** A gated tool called on a sensitive path that is not approved runs
    [requestPathPermission] and nothing else. *)
Lemma gated_tool_program st name fld operation reason fields path :
  In (name, fld, operation, reason) gated_tools ->
  assoc fld fields = JStr path ->
  sensitive_path path = true ->
  path_approved st (currentSessionId st) path = false ->
  executeTool name (JObj fields) st =
  bindProg (requestPathPermission (JStr path) operation reason st) finish.
Proof.
  intros Hin Hfld Hs Ha.
  pose proof (needsPermission_true st path Hs Ha) as Hneeds.
  simpl in Hin.
  repeat (destruct Hin as [Hin|Hin];
          [inversion Hin; subst; clear Hin;
           unfold executeTool, handler; simpl;
           cbv delta [executeRead executeWrite executeEdit executeListDir
                      executeMakeDir bind object_of]; simpl;
           rewrite Hfld, Hneeds; simpl; reflexivity|]).
  destruct Hin.
Qed.

Lemma gated_tool_asks (E : Env) st w name fld operation reason fields path :
  In (name, fld, operation, reason) gated_tools ->
  assoc fld fields = JStr path ->
  sensitive_path path = true ->
  path_approved st (currentSessionId st) path = false ->
  (exec E (executeTool name (JObj fields) st) w).1.1 =
    (permission_request (next_permission_id E w) (JStr path) operation reason,
     set_pendingPermissions
       (<[next_permission_id E w :=
            {| pp_path := JStr path; pp_operation := operation; pp_reason := reason;
               pp_sessionId := currentSessionId st;
               pp_requestedAt := next_requestedAt E w |}]> (pendingPermissions st)) st)
  /\ (exec E (executeTool name (JObj fields) st) w).2 = [].
Proof.
  intros Hin Hfld Hs Ha.
  rewrite (gated_tool_program st name fld operation reason fields path Hin Hfld Hs Ha).
  pose proof (requestPathPermission_exec E st w (JStr path) operation reason) as Hreq.
  cbv zeta in Hreq. rewrite exec_bindProg.
  destruct (exec E (requestPathPermission (JStr path) operation reason st) w)
    as [[[r st'] w1] tr1]. simpl in Hreq. destruct Hreq as [Hr Htr].
  inversion Hr; subst. simpl. split; reflexivity.
Qed.


End Permissions.

End ToolsFacts.

Module SandboxFacts.
Import JsString JsStringFacts Sandbox.

Section WithPlatform.
Context `{NodePlatform}.

Lemma existsb_elements_true (f : string -> bool) (S : gset string) (x : string) :
  x ∈ S -> f x = true -> existsb f (elements S) = true.
Proof.
  intros Hx Hf. apply existsb_exists. exists x. split; [|exact Hf].
  apply list_elem_of_In, elem_of_elements, Hx.
Qed.

Lemma existsb_elements_false (f : string -> bool) (S : gset string) (x : string) :
  existsb f (elements S) = false -> x ∈ S -> f x = false.
Proof.
  intros Hf Hx. destruct (f x) eqn:E; [|reflexivity].
  rewrite (existsb_elements_true f S x Hx E) in Hf. discriminate.
Qed.

Lemma isDenied_logAudit e st s p : isDenied (logAudit e st) s p = isDenied st s p.
Proof. reflexivity. Qed.

Lemma in_denied_isDenied st s d target :
  in_denied st s d ->
  startsWith (normalizePath target) d = true ->
  isDenied st s target = true.
Proof.
  unfold in_denied, isDenied. intros Hin Hpre.
  destruct (deniedPaths st !! s) as [S|]; simpl in Hin.
  - exact (existsb_elements_true _ S d Hin Hpre).
  - exfalso. revert Hin. apply not_elem_of_empty.
Qed.

Lemma validateOperation_denied newId s op target reason st d :
  in_denied st s d ->
  startsWith (normalizePath target) d = true ->
  allowed (fst (validateOperation newId s op target reason st)) = false.
Proof.
  intros Hin Hpre. unfold validateOperation.
  set (st1 := logAudit _ st).
  destruct (isBlocked st1 target); [reflexivity|].
  assert (Hd : isDenied st1 s target = true).
  { unfold st1. rewrite isDenied_logAudit. eapply in_denied_isDenied; eauto. }
  rewrite Hd. reflexivity.
Qed.

Lemma deniedPaths_requestPermission newId s op p r st :
  deniedPaths (snd (requestPermission newId s op p r st)) = deniedPaths st.
Proof. reflexivity. Qed.

Lemma deniedPaths_validateOperation newId s op target reason st :
  deniedPaths (snd (validateOperation newId s op target reason st)) = deniedPaths st.
Proof.
  unfold validateOperation.
  repeat match goal with
         | |- context [if ?b then _ else _] => destruct b
         end; reflexivity.
Qed.

Lemma in_add_path_mono s p s' p' (m : gmap string (gset string)) :
  p' ∈ default (∅ : gset string) (m !! s') ->
  p' ∈ default (∅ : gset string) (add_path s p m !! s').
Proof.
  unfold add_path. intros Hin.
  destruct (decide (s = s')) as [->|Hne].
  - rewrite lookup_insert_eq. simpl. set_solver.
  - rewrite lookup_insert_ne by done. exact Hin.
Qed.

Lemma in_denied_step st o s d : in_denied st s d -> in_denied (step st o) s d.
Proof.
  unfold in_denied. intros Hin. destruct o as [newId s0 op p r|i|i]; simpl.
  - rewrite deniedPaths_validateOperation. exact Hin.
  - unfold approvePermission. destruct (pendingPermissions st !! i); exact Hin.
  - unfold denyPermission. destruct (pendingPermissions st !! i); simpl; [|exact Hin].
    apply in_add_path_mono, Hin.
Qed.

Lemma in_denied_run ops : forall st s d, in_denied st s d -> in_denied (run st ops) s d.
Proof.
  induction ops as [|o ops IH]; intros st s d Hin; [exact Hin|].
  simpl. apply IH, in_denied_step, Hin.
Qed.

(** C6: a path that starts with a path of the session's denied set is never
    classified as allowed, immediately or after any later sequence of
    validate / approve / deny calls: the denied check precedes the approved
    check and nothing removes a denied path. *)
Theorem denied_prefix_never_allowed
    (st : State) (sessionId d target : string) (later : list Op)
    (newId operation : string) (reason : option string) :
  in_denied st sessionId d ->
  startsWith (normalizePath target) d = true ->
  allowed (fst (validateOperation newId sessionId operation target reason
                  (run st later))) = false.
Proof.
  intros Hin Hpre. eapply validateOperation_denied; [|exact Hpre].
  apply in_denied_run, Hin.
Qed.

(** *** Disjointness of the approved and denied sets *)

Lemma or_else_truthy a b : truthy a = true -> or_else a b = a.
Proof. unfold or_else. intros ->. reflexivity. Qed.

Lemma in_add_path s p s0 p0 (m : gmap string (gset string)) :
  p0 ∈ default (∅ : gset string) (add_path s p m !! s0) <->
  (s0 = s /\ p0 = p) \/ p0 ∈ default (∅ : gset string) (m !! s0).
Proof.
  unfold add_path. destruct (decide (s = s0)) as [->|Hne].
  - rewrite lookup_insert_eq. simpl. rewrite elem_of_union, elem_of_singleton.
    split; intros [Hl|Hr]; auto. destruct Hl; auto.
  - rewrite lookup_insert_ne by done. split; auto.
    intros [[Heq _]|Hr]; [congruence|exact Hr].
Qed.

Lemma isApproved_false_not_in st s target :
  isApproved st s target = false -> ~ in_approved st s (normalizePath target).
Proof.
  unfold isApproved, in_approved. intros Hf Hin.
  destruct (approvedPaths st !! s) as [S|]; simpl in Hin.
  - pose proof (existsb_elements_false _ S _ Hf Hin) as Hs. simpl in Hs.
    rewrite startsWith_refl in Hs. discriminate.
  - revert Hin. apply not_elem_of_empty.
Qed.

Lemma isDenied_false_not_in st s target :
  isDenied st s target = false -> ~ in_denied st s (normalizePath target).
Proof.
  unfold isDenied, in_denied. intros Hf Hin.
  destruct (deniedPaths st !! s) as [S|]; simpl in Hin.
  - pose proof (existsb_elements_false _ S _ Hf Hin) as Hs. simpl in Hs.
    rewrite startsWith_refl in Hs. discriminate.
  - revert Hin. apply not_elem_of_empty.
Qed.

Lemma gate_inv_same_tables st st' :
  pendingPermissions st' = pendingPermissions st ->
  approvedPaths st' = approvedPaths st ->
  deniedPaths st' = deniedPaths st ->
  gate_inv st -> gate_inv st'.
Proof.
  unfold gate_inv, disjoint_sets, in_approved, in_denied.
  intros -> -> ->. exact id.
Qed.

Lemma gate_inv_logAudit e st : gate_inv st -> gate_inv (logAudit e st).
Proof. apply gate_inv_same_tables; reflexivity. Qed.

Lemma gate_inv_initial : gate_inv initial.
Proof.
  unfold gate_inv, disjoint_sets, in_approved, in_denied. simpl.
  split; [|split].
  - intros s p [Ha _]. rewrite lookup_empty in Ha. simpl in Ha.
    revert Ha. apply not_elem_of_empty.
  - intros i p Hl. rewrite lookup_empty in Hl. discriminate.
  - intros i1 i2 p1 p2 Hl. rewrite lookup_empty in Hl. discriminate.
Qed.

Lemma no_pending_for st s target i p :
  forallb (fun kv =>
             negb (String.eqb (effective_session (snd kv)) s
                   && String.eqb (normalizePath (perm_path (snd kv)))
                                 (normalizePath target)))
          (map_to_list (pendingPermissions st)) = true ->
  pendingPermissions st !! i = Some p ->
  truthy (perm_sessionId p) = true ->
  perm_sessionId p = s ->
  normalizePath (perm_path p) = normalizePath target ->
  False.
Proof.
  intros Hall Hl Ht Hs Hp.
  rewrite forallb_forall in Hall.
  specialize (Hall (i, p)). simpl in Hall.
  unfold effective_session in Hall. rewrite (or_else_truthy _ _ Ht) in Hall.
  rewrite Hs, Hp, !String.eqb_refl in Hall. simpl in Hall.
  assert (Hin : In (i, p) (map_to_list (pendingPermissions st))).
  { apply list_elem_of_In, elem_of_map_to_list, Hl. }
  specialize (Hall Hin). discriminate.
Qed.

Lemma gate_inv_requestPermission newId s op target r st :
  gate_inv st ->
  truthy s = true ->
  isDenied st s target = false ->
  isApproved st s target = false ->
  forallb (fun kv =>
             negb (String.eqb (effective_session (snd kv)) s
                   && String.eqb (normalizePath (perm_path (snd kv)))
                                 (normalizePath target)))
          (map_to_list (pendingPermissions st)) = true ->
  gate_inv (snd (requestPermission newId s op target r st)).
Proof.
  intros (I1 & I2 & I3) Hs Hd Ha Hfresh.
  unfold requestPermission. simpl. apply gate_inv_logAudit.
  unfold gate_inv, disjoint_sets, in_approved, in_denied. simpl.
  split; [exact I1|]. split.
  - intros i p Hl. destruct (decide (newId = i)) as [->|Hne].
    + rewrite lookup_insert_eq in Hl. inversion Hl; subst p; simpl.
      split; [exact Hs|]. split.
      * apply isApproved_false_not_in, Ha.
      * apply isDenied_false_not_in, Hd.
    + rewrite lookup_insert_ne in Hl by done. exact (I2 i p Hl).
  - intros i1 i2 p1 p2 Hl1 Hl2 Hses Hpath.
    destruct (decide (newId = i1)) as [E1|N1], (decide (newId = i2)) as [E2|N2].
    + congruence.
    + subst i1. rewrite lookup_insert_eq in Hl1. inversion Hl1; subst p1.
      rewrite lookup_insert_ne in Hl2 by done. simpl in *.
      exfalso. eapply (no_pending_for st s target i2 p2); eauto.
      exact (proj1 (I2 i2 p2 Hl2)).
    + subst i2. rewrite lookup_insert_eq in Hl2. inversion Hl2; subst p2.
      rewrite lookup_insert_ne in Hl1 by done. simpl in *.
      exfalso. eapply (no_pending_for st s target i1 p1); eauto.
      exact (proj1 (I2 i1 p1 Hl1)).
    + rewrite lookup_insert_ne in Hl1 by done.
      rewrite lookup_insert_ne in Hl2 by done. eauto.
Qed.

Lemma fresh_request_logAudit e st o :
  fresh_request (logAudit e st) o = fresh_request st o.
Proof. reflexivity. Qed.

Lemma gate_inv_validateOperation newId s op target r st :
  gate_inv st ->
  fresh_request st (OpValidate newId s op target r) = true ->
  gate_inv (snd (validateOperation newId s op target r st)).
Proof.
  intros Hinv Hfresh. simpl in Hfresh.
  apply andb_prop in Hfresh as [Hs Hall].
  unfold validateOperation.
  set (st1 := logAudit _ st).
  assert (Hinv1 : gate_inv st1) by (apply gate_inv_logAudit, Hinv).
  destruct (isBlocked st1 target); [apply gate_inv_logAudit, Hinv1|].
  destruct (isDenied st1 s target) eqn:Hd; [exact Hinv1|].
  destruct (isApproved st1 s target) eqn:Ha; [apply gate_inv_logAudit, Hinv1|].
  destruct (requireApproval (config st1) && isSensitive st1 target).
  { match goal with
    | |- context [requestPermission ?a ?b ?c ?d ?e ?f] =>
        pose proof (gate_inv_requestPermission a b c d e f Hinv1 Hs Hd Ha Hall) as Hr;
        destruct (requestPermission a b c d e f) as [q st2]
    end. exact Hr. }
  destruct ((String.eqb op "write" || String.eqb op "execute")
            && isDangerousExtension target).
  { match goal with
    | |- context [requestPermission ?a ?b ?c ?d ?e ?f] =>
        pose proof (gate_inv_requestPermission a b c d e f Hinv1 Hs Hd Ha Hall) as Hr;
        destruct (requestPermission a b c d e f) as [q st2]
    end. exact Hr. }
  apply gate_inv_logAudit, Hinv1.
Qed.

Lemma gate_inv_approvePermission i st :
  gate_inv st -> gate_inv (snd (approvePermission i st)).
Proof.
  intros (I1 & I2 & I3). unfold approvePermission.
  destruct (pendingPermissions st !! i) as [p|] eqn:Hp; [|exact (conj I1 (conj I2 I3))].
  simpl. apply gate_inv_logAudit.
  destruct (I2 i p Hp) as (Ht & Hna & Hnd).
  rewrite (or_else_truthy _ _ Ht).
  unfold gate_inv, disjoint_sets, in_approved, in_denied in *. simpl.
  split; [|split].
  - intros s0 p0 [Ha Hd]. apply in_add_path in Ha as [[-> ->]|Ha].
    + exact (Hnd Hd).
    + exact (I1 s0 p0 (conj Ha Hd)).
  - intros j q Hq. destruct (decide (i = j)) as [->|Hne].
    + rewrite lookup_delete_eq in Hq. discriminate.
    + rewrite lookup_delete_ne in Hq by done.
      destruct (I2 j q Hq) as (Ht' & Hna' & Hnd').
      split; [exact Ht'|]. split; [|exact Hnd'].
      intros Hin. apply in_add_path in Hin as [[Hs Hpath]|Hin]; [|exact (Hna' Hin)].
      apply Hne. symmetry. exact (I3 j i q p Hq Hp Hs Hpath).
  - intros i1 i2 p1 p2 H1 H2.
    apply lookup_delete_Some in H1 as [_ H1].
    apply lookup_delete_Some in H2 as [_ H2]. eauto.
Qed.

Lemma gate_inv_denyPermission i st :
  gate_inv st -> gate_inv (snd (denyPermission i st)).
Proof.
  intros (I1 & I2 & I3). unfold denyPermission.
  destruct (pendingPermissions st !! i) as [p|] eqn:Hp; [|exact (conj I1 (conj I2 I3))].
  simpl. apply gate_inv_logAudit.
  destruct (I2 i p Hp) as (Ht & Hna & Hnd).
  rewrite (or_else_truthy _ _ Ht).
  unfold gate_inv, disjoint_sets, in_approved, in_denied in *. simpl.
  split; [|split].
  - intros s0 p0 [Ha Hd]. apply in_add_path in Hd as [[-> ->]|Hd].
    + exact (Hna Ha).
    + exact (I1 s0 p0 (conj Ha Hd)).
  - intros j q Hq. destruct (decide (i = j)) as [->|Hne].
    + rewrite lookup_delete_eq in Hq. discriminate.
    + rewrite lookup_delete_ne in Hq by done.
      destruct (I2 j q Hq) as (Ht' & Hna' & Hnd').
      split; [exact Ht'|]. split; [exact Hna'|].
      intros Hin. apply in_add_path in Hin as [[Hs Hpath]|Hin]; [|exact (Hnd' Hin)].
      apply Hne. symmetry. exact (I3 j i q p Hq Hp Hs Hpath).
  - intros i1 i2 p1 p2 H1 H2.
    apply lookup_delete_Some in H1 as [_ H1].
    apply lookup_delete_Some in H2 as [_ H2]. eauto.
Qed.

Lemma gate_inv_run ops : forall st,
  gate_inv st -> spaced_run st ops = true -> gate_inv (run st ops).
Proof.
  induction ops as [|o ops IH]; intros st Hinv Hsp; [exact Hinv|].
  simpl in Hsp. apply andb_prop in Hsp as [Hf Hrest].
  simpl. apply IH; [|exact Hrest].
  destruct o as [newId s op p r|i|i]; simpl.
  - apply gate_inv_validateOperation; assumption.
  - apply gate_inv_approvePermission, Hinv.
  - apply gate_inv_denyPermission, Hinv.
Qed.

(** C5 (amended): along every run of validate / approve / deny calls from the
    initial state in which validateOperation is only called for a named
    session and for a path that has no pending permission of that session,
    no normalized path is in both the approved and the denied set of a
    session. *)
Theorem spaced_run_disjoint (ops : list Op) :
  spaced_run initial ops = true ->
  disjoint_sets (run initial ops).
Proof.
  intros Hsp. exact (proj1 (gate_inv_run ops initial gate_inv_initial Hsp)).
Qed.

End WithPlatform.
End SandboxFacts.

Module SandboxExamples.
Import JsString Sandbox SandboxFacts Posix SandboxData.

Lemma denied_prefix_never_allowed_witness :
  in_denied after_deny "s1" "/home/u/documents/x.txt" /\
  startsWith (normalizePath "/home/u/Documents/x.txt/notes") "/home/u/documents/x.txt" = true /\
  in_approved (run after_deny unrelated_approval) "s1" "/home/u/pictures/a.png" /\
  allowed (fst (validateOperation "perm_3" "s1" "write" "/home/u/Documents/x.txt/notes" None
                  (run after_deny unrelated_approval))) = false.
Proof.
  assert (Hd : in_denied after_deny "s1" "/home/u/documents/x.txt").
  { unfold in_denied. decide_by_compute. }
  assert (Hp : startsWith (normalizePath "/home/u/Documents/x.txt/notes")
                 "/home/u/documents/x.txt" = true) by reflexivity.
  split; [exact Hd|]. split; [exact Hp|]. split.
  - unfold in_approved. decide_by_compute.
  - exact (denied_prefix_never_allowed after_deny "s1" "/home/u/documents/x.txt"
             "/home/u/Documents/x.txt/notes" unrelated_approval "perm_3" "write" None Hd Hp).
Defined.

(** C5 as stated fails: after [approve_then_deny] the path is in both sets of
    session s1. *)
Lemma approved_and_denied_overlap :
  ~ (forall ops : list Op, disjoint_sets (run initial ops)).
Proof.
  intros Hall.
  apply (Hall approve_then_deny "s1" "/home/u/documents/x.txt").
  split; [unfold in_approved | unfold in_denied]; decide_by_compute.
Qed.

Lemma spaced_run_disjoint_witness :
  spaced_run initial one_request_at_a_time = true /\
  disjoint_sets (run initial one_request_at_a_time).
Proof.
  assert (Hs : spaced_run initial one_request_at_a_time = true)
    by (vm_compute; reflexivity).
  split; [exact Hs|]. exact (spaced_run_disjoint one_request_at_a_time Hs).
Defined.

End SandboxExamples.

(** ** The agent loop *)

Module ProviderFacts.
Import JsString Js Provider.

Section WithBackend.
Context `{Engine}.
Variable B : Backend.
Variable cfg : Config.

(** *** Tool calls of one turn *)

Lemma run_tool_calls_events calls : forall w,
  tool_events_of calls (run_tool_calls B calls w).1.1.
Proof.
  induction calls as [|c rest IH]; intros w; simpl.
  - exists []. split; reflexivity.
  - destruct (executeTool B (tc_name c) (tc_input c) w) as [r w1].
    specialize (IH w1). destruct (run_tool_calls B rest w1) as [[events blocks] w2].
    simpl in *. destruct IH as (results & Hlen & ->).
    exists (r :: results). split; [simpl; congruence|reflexivity].
Qed.

Lemma run_tool_calls_blocks calls : forall w,
  map (fun b => match b with
                | ToolResultBlock id _ => Some id
                | _ => None
                end) (run_tool_calls B calls w).1.2
  = map (fun c => Some (tc_id c)) calls.
Proof.
  induction calls as [|c rest IH]; intros w; simpl; [reflexivity|].
  destruct (executeTool B (tc_name c) (tc_input c) w) as [r w1].
  specialize (IH w1). destruct (run_tool_calls B rest w1) as [[events blocks] w2].
  simpl in *. rewrite IH. reflexivity.
Qed.

Lemma tool_events_paired calls events :
  tool_events_of calls events -> paired events = true.
Proof.
  intros (results & _ & ->). revert results.
  induction calls as [|c rest IH]; intros [|r results]; simpl; try reflexivity.
  rewrite !String.eqb_refl. simpl. apply IH.
Qed.

Lemma tool_events_use_ids calls events :
  tool_events_of calls events ->
  tool_use_ids events = map tc_id calls /\
  tool_result_ids events = map tc_id calls.
Proof.
  intros (results & Hlen & ->). revert results Hlen.
  induction calls as [|c rest IH]; intros [|r results] Hlen; simpl in *;
    try discriminate; [split; reflexivity|].
  destruct (IH results) as [Hu Hr]; [congruence|].
  rewrite Hu, Hr. split; reflexivity.
Qed.

Lemma tool_events_turn calls events :
  tool_events_of calls events -> Forall (fun e => is_turn_event e = true) events.
Proof.
  intros (results & _ & ->). revert results.
  induction calls as [|c rest IH]; intros [|r results]; simpl; try constructor;
    [reflexivity|]. constructor; [reflexivity|]. apply IH.
Qed.

(** *** Lists of events *)

Lemma paired_skip pre rest :
  Forall no_tool_event pre -> paired (pre ++ rest) = paired rest.
Proof.
  induction 1 as [|e pre He _ IH]; simpl; [reflexivity|].
  destruct e; simpl in He; try contradiction; exact IH.
Qed.

Lemma paired_app_aux n : forall a b,
  length a <= n -> paired a = true -> paired (a ++ b) = paired b.
Proof.
  induction n as [|n IH]; intros a b Hlen Ha.
  - destruct a; [reflexivity|simpl in Hlen; lia].
  - destruct a as [|e a]; [reflexivity|]. simpl in Hlen.
    destruct e; simpl in *; try (apply IH; [lia|exact Ha]); try discriminate.
    destruct a as [|e' a]; [discriminate|].
    destruct e'; try discriminate. simpl in *.
    apply andb_prop in Ha as [Hids Ha]. rewrite Hids. simpl.
    apply IH; [lia|exact Ha].
Qed.

Lemma paired_app a b : paired a = true -> paired (a ++ b) = paired b.
Proof. apply (paired_app_aux (length a)). lia. Qed.

Lemma tool_use_ids_app a b : tool_use_ids (a ++ b) = tool_use_ids a ++ tool_use_ids b.
Proof.
  induction a as [|e a IH]; simpl; [reflexivity|].
  destruct e; simpl; rewrite IH; reflexivity.
Qed.

Lemma tool_result_ids_app a b :
  tool_result_ids (a ++ b) = tool_result_ids a ++ tool_result_ids b.
Proof.
  induction a as [|e a IH]; simpl; [reflexivity|].
  destruct e; simpl; rewrite IH; reflexivity.
Qed.

Lemma no_tool_ids pre :
  Forall no_tool_event pre -> tool_use_ids pre = [] /\ tool_result_ids pre = [].
Proof.
  induction 1 as [|e pre He _ [IHu IHr]]; simpl; [split; reflexivity|].
  destruct e; simpl in He; try contradiction; split; assumption.
Qed.

(** *** The decoder yields text events only *)

Lemma on_event_texts event d :
  Forall is_text (dec_textChunks d) -> Forall is_text (dec_textChunks (on_event event d)).
Proof.
  intros Hd. destruct event as [[[id name]|]|[text|t|j|]| |stop|]; simpl; try exact Hd.
  - destruct (JsString.truthy text); simpl; [|exact Hd].
    apply Forall_app. split; [exact Hd|]. constructor; [exact I|constructor].
  - destruct (JsString.truthy t); exact Hd.
  - destruct (JsString.truthy j); exact Hd.
  - destruct (currentToolCall d) as [[id name]|]; exact Hd.
  - destruct (JsString.truthy stop); exact Hd.
Qed.

Lemma on_line_texts line d :
  Forall is_text (dec_textChunks d) -> Forall is_text (dec_textChunks (on_line line d)).
Proof.
  intros Hd. unfold on_line.
  destruct (negb (startsWith line "data: ")); [exact Hd|].
  destruct (String.eqb _ "[DONE]"); [exact Hd|].
  destruct (parse_event _); [apply on_event_texts, Hd|exact Hd].
Qed.

Lemma on_lines_texts lines : forall d,
  Forall is_text (dec_textChunks d) ->
  Forall is_text (dec_textChunks (foldl (fun d line => on_line line d) d lines)).
Proof.
  induction lines as [|l lines IH]; intros d Hd; simpl; [exact Hd|].
  apply IH, on_line_texts, Hd.
Qed.

Lemma on_chunk_texts d chunk :
  Forall is_text (dec_textChunks d) -> Forall is_text (dec_textChunks (on_chunk d chunk)).
Proof. intros Hd. unfold on_chunk. apply on_lines_texts. exact Hd. Qed.

Lemma processStream_texts chunks : Forall is_text (textChunks (processStream chunks)).
Proof.
  unfold processStream. simpl.
  assert (Hgen : forall d, Forall is_text (dec_textChunks d) ->
                           Forall is_text (dec_textChunks (foldl on_chunk d chunks))).
  { induction chunks as [|c chunks IH]; intros d Hd; simpl; [exact Hd|].
    apply IH, on_chunk_texts, Hd. }
  apply Hgen. constructor.
Qed.

Lemma texts_no_tool l : Forall is_text l -> Forall no_tool_event l.
Proof. intros Hl. eapply Forall_impl; [exact Hl|]. intros []; simpl; tauto. Qed.

Lemma texts_turn l : Forall is_text l -> Forall (fun e => is_turn_event e = true) l.
Proof. intros Hl. eapply Forall_impl; [exact Hl|]. intros []; simpl; tauto. Qed.

(** *** One pass of the loop *)

Lemma thinking_events t :
  Forall turn_event (if JsString.truthy t then [Thinking t] else []) /\
  Forall no_tool_event (if JsString.truthy t then [Thinking t] else []).
Proof.
  destruct (JsString.truthy t); split; repeat constructor.
Qed.

Lemma texts_turn_true l : Forall is_text l -> Forall turn_event l.
Proof.
  intros Hl. eapply Forall_impl; [exact Hl|].
  intros []; simpl; try tauto. intros _. reflexivity.
Qed.

Lemma turn_body_pass chatId selectedModel st :
  pass_events (turn_body B chatId selectedModel st).1.1
              (turn_body B chatId selectedModel st).2.
Proof.
  unfold turn_body.
  destruct (makeStreamingRequest B (world B st) (getConversationHistory B chatId st)
              selectedModel) as [w1 outcome].
  destruct outcome as [message|ok status chunks failure]; [apply pass_error|].
  destruct ok, failure as [message|]; try apply pass_error.
  pose proof (processStream_texts chunks) as Htexts.
  destruct (thinking_events (thinking (processStream chunks))) as [Hth1 Hth2].
  assert (Hpre1 : Forall turn_event
            (textChunks (processStream chunks) ++
             (if JsString.truthy (thinking (processStream chunks))
              then [Thinking (thinking (processStream chunks))] else []))).
  { apply Forall_app. split; [apply texts_turn_true, Htexts|exact Hth1]. }
  assert (Hpre2 : Forall no_tool_event
            (textChunks (processStream chunks) ++
             (if JsString.truthy (thinking (processStream chunks))
              then [Thinking (thinking (processStream chunks))] else []))).
  { apply Forall_app. split; [apply texts_no_tool, Htexts|exact Hth2]. }
  destruct (toolCalls (processStream chunks)) as [|c calls] eqn:Hcalls.
  - simpl. rewrite <- (app_nil_r (_ ++ _)).
    apply (pass_turn _ [] []); [exact Hpre1|exact Hpre2|].
    exists []. split; reflexivity.
  - pose proof (run_tool_calls_events (c :: calls) w1) as Hev.
    destruct (run_tool_calls B (c :: calls) w1) as [[events blocks] w2].
    simpl in Hev |- *. rewrite app_assoc.
    apply (pass_turn _ _ (c :: calls)); assumption.
Qed.

Lemma turn_body_continue chatId selectedModel st :
  (turn_body B chatId selectedModel st).2 = Continue ->
  exists pre tools calls,
    (turn_body B chatId selectedModel st).1.1 = pre ++ tools /\
    Forall turn_event pre /\ Forall no_tool_event pre /\
    tool_events_of calls tools.
Proof.
  intros Hnext. pose proof (turn_body_pass chatId selectedModel st) as Hpass.
  rewrite Hnext in Hpass. inversion Hpass; subst. eauto 10.
Qed.

(** *** The loop *)

Lemma tool_events_loop calls tools :
  tool_events_of calls tools ->
  Forall turn_event tools /\ paired tools = true /\
  tool_use_ids tools = tool_result_ids tools.
Proof.
  intros Ht. split; [|split].
  - eapply Forall_impl; [apply (tool_events_turn calls), Ht|]. intros e He. exact He.
  - apply (tool_events_paired calls), Ht.
  - destruct (tool_events_use_ids calls tools Ht) as [-> ->]. reflexivity.
Qed.

Lemma loop_events_pass events next later :
  pass_events events next ->
  (next = Stop -> later = []) ->
  (next = Continue -> loop_events later) ->
  loop_events (events ++ later).
Proof.
  intros Hpass Hstop Hcont. destruct Hpass as [message|pre tools calls next Hpre1 Hpre2 Ht].
  - rewrite (Hstop eq_refl), app_nil_r.
    exists [], [ErrorEvent message]. repeat split; eauto; constructor.
  - destruct (tool_events_loop calls tools Ht) as (Ht1 & Ht2 & Ht3).
    destruct (no_tool_ids pre Hpre2) as [Hu Hr].
    assert (Hl : loop_events later).
    { destruct next; [apply Hcont; reflexivity|].
      rewrite (Hstop eq_refl). exists [], []. repeat split; auto; constructor. }
    destruct Hl as (body & err & -> & Hb1 & Hb2 & Hb3 & Herr).
    exists (pre ++ tools ++ body), err. split; [|split; [|split; [|split]]].
    + rewrite <- !app_assoc. reflexivity.
    + repeat (apply Forall_app; split); assumption.
    + rewrite paired_skip by exact Hpre2. rewrite paired_app by exact Ht2. exact Hb2.
    + rewrite !tool_use_ids_app, !tool_result_ids_app, Hu, Hr, Ht3, Hb3. reflexivity.
    + exact Herr.
Qed.

Lemma turns_loop_events fuel chatId selectedModel : forall turn st,
  loop_events (turns B cfg fuel chatId selectedModel turn st).1.1.
Proof.
  induction fuel as [|fuel IH]; intros turn st; simpl.
  - exists [], []. repeat split; auto; constructor.
  - destruct (turn <? maxTurns cfg)%Z.
    2: { exists [], []. repeat split; auto; constructor. }
    pose proof (turn_body_pass chatId selectedModel st) as Hpass.
    destruct (turn_body B chatId selectedModel st) as [[events st1] next]. simpl in Hpass.
    destruct next.
    + specialize (IH (turn + 1)%Z st1).
      destruct (turns B cfg fuel chatId selectedModel (turn + 1) st1) as [[later final] st2].
      simpl in *. eapply loop_events_pass; [exact Hpass|discriminate|intros _; exact IH].
    + simpl. rewrite <- (app_nil_r events).
      eapply loop_events_pass; [exact Hpass|reflexivity|discriminate].
Qed.

Lemma turns_counter fuel chatId selectedModel : forall turn st,
  (turn <= (turns B cfg fuel chatId selectedModel turn st).1.2 <= Z.max turn (maxTurns cfg))%Z.
Proof.
  induction fuel as [|fuel IH]; intros turn st; simpl; [lia|].
  destruct (turn <? maxTurns cfg)%Z eqn:Hlt; [|simpl; lia].
  apply Z.ltb_lt in Hlt.
  destruct (turn_body B chatId selectedModel st) as [[events st1] next].
  destruct next; [|simpl; lia].
  specialize (IH (turn + 1)%Z st1).
  destruct (turns B cfg fuel chatId selectedModel (turn + 1) st1) as [[later final] st2].
  simpl in *. lia.
Qed.

(** The fuel given by [query] is enough: more fuel changes nothing. *)
Lemma turns_fuel fuel chatId selectedModel : forall fuel' turn st,
  Z.to_nat (maxTurns cfg - turn) <= fuel ->
  Z.to_nat (maxTurns cfg - turn) <= fuel' ->
  turns B cfg fuel chatId selectedModel turn st =
  turns B cfg fuel' chatId selectedModel turn st.
Proof.
  induction fuel as [|fuel IH]; intros fuel' turn st Hf Hf'.
  - assert (Hge : (maxTurns cfg <= turn)%Z) by lia.
    destruct fuel'; simpl; [reflexivity|].
    apply Z.ltb_ge in Hge. rewrite Hge. reflexivity.
  - destruct fuel' as [|fuel'].
    + assert (Hge : (maxTurns cfg <= turn)%Z) by lia.
      simpl. apply Z.ltb_ge in Hge. rewrite Hge. reflexivity.
    + simpl. destruct (turn <? maxTurns cfg)%Z eqn:Hlt; [|reflexivity].
      apply Z.ltb_lt in Hlt.
      destruct (turn_body B chatId selectedModel st) as [[events st1] next].
      destruct next; [|reflexivity].
      rewrite (IH fuel' (turn + 1)%Z st1) by lia. reflexivity.
Qed.

(** When every pass continues, the loop stops only at the cap. *)
Lemma turns_exhaust chatId selectedModel :
  (forall st, (turn_body B chatId selectedModel st).2 = Continue) ->
  forall fuel turn st,
    Z.to_nat (maxTurns cfg - turn) <= fuel ->
    (turns B cfg fuel chatId selectedModel turn st).1.2 = Z.max turn (maxTurns cfg).
Proof.
  intros Hcont. induction fuel as [|fuel IH]; intros turn st Hf; simpl; [lia|].
  destruct (turn <? maxTurns cfg)%Z eqn:Hlt.
  - apply Z.ltb_lt in Hlt. specialize (Hcont st).
    destruct (turn_body B chatId selectedModel st) as [[events st1] next].
    simpl in Hcont. subst next.
    specialize (IH (turn + 1)%Z st1).
    destruct (turns B cfg fuel chatId selectedModel (turn + 1) st1) as [[later final] st2].
    simpl in *. rewrite IH by lia. lia.
  - apply Z.ltb_ge in Hlt. simpl. lia.
Qed.

(** *** The stream of a query *)

Lemma turn_body_decoded chatId selectedModel st :
  match (makeStreamingRequest B (world B st) (getConversationHistory B chatId st)
           selectedModel).2 with
  | Response true _ chunks None =>
      exists pre tools,
        (turn_body B chatId selectedModel st).1.1 = pre ++ tools /\
        Forall no_tool_event pre /\
        tool_events_of (toolCalls (processStream chunks)) tools
  | _ => exists message, (turn_body B chatId selectedModel st).1.1 = [ErrorEvent message]
  end.
Proof.
  unfold turn_body.
  destruct (makeStreamingRequest B (world B st) (getConversationHistory B chatId st)
              selectedModel) as [w1 outcome]. cbn [fst snd].
  destruct outcome as [message|ok status chunks failure]; [eauto|].
  destruct ok, failure as [message|]; cbn [fst snd]; eauto.
  pose proof (processStream_texts chunks) as Htexts.
  destruct (thinking_events (thinking (processStream chunks))) as [_ Hth].
  assert (Hpre : Forall no_tool_event
            (textChunks (processStream chunks) ++
             (if JsString.truthy (thinking (processStream chunks))
              then [Thinking (thinking (processStream chunks))] else []))).
  { apply Forall_app. split; [apply texts_no_tool, Htexts|exact Hth]. }
  destruct (toolCalls (processStream chunks)) as [|c calls] eqn:Hcalls.
  - cbn [fst snd]. eexists _, []. rewrite app_nil_r. split; [reflexivity|].
    split; [exact Hpre|]. exists []. split; reflexivity.
  - pose proof (run_tool_calls_events (c :: calls) w1) as Hev.
    destruct (run_tool_calls B (c :: calls) w1) as [[events blocks] w2].
    cbn [fst snd] in Hev |- *. eexists _, events. rewrite app_assoc.
    split; [reflexivity|]. split; assumption.
Qed.

Lemma query_events prompt chatId requested_model st :
  exists (loop : list StreamEvent) (turn : Z),
    (query B cfg prompt chatId requested_model st).1.1 =
      SessionInit chatId :: loop
        ++ (if (maxTurns cfg <=? turn)%Z then [max_turns_notice] else []) ++ [Done] /\
    (query B cfg prompt chatId requested_model st).1.2 = turn /\
    loop_events loop /\
    (0 <= turn <= Z.max 0 (maxTurns cfg))%Z.
Proof.
  unfold query.
  match goal with
  | |- context [turns B cfg ?f ?c ?m ?t ?s] =>
      pose proof (turns_loop_events f c m t s) as Hloop;
      pose proof (turns_counter f c m t s) as Hcount;
      destruct (turns B cfg f c m t s) as [[events turn] st']
  end.
  simpl in *. exists events, turn. repeat split; auto; lia.
Qed.

(** C2 (amended): the stream of every run of query begins with session_init
    and ends with exactly one done event, which is last. Between them come
    the turn events (text, thinking, tool_use, tool_result), then at most one
    error event (the run aborted), then at most the max-turns notice. *)
Theorem stream_ends_with_done
    (prompt chatId : string) (requested_model : option string) (st : State B) :
  exists body err note,
    (query B cfg prompt chatId requested_model st).1.1 =
      SessionInit chatId :: body ++ err ++ note ++ [Done] /\
    Forall turn_event body /\
    (err = [] \/ exists message, err = [ErrorEvent message]) /\
    (note = [] \/ note = [max_turns_notice]).
Proof.
  destruct (query_events prompt chatId requested_model st)
    as (loop & turn & Hq & _ & Hloop & _).
  destruct Hloop as (body & err & -> & Hbody & _ & _ & Herr).
  exists body, err, (if (maxTurns cfg <=? turn)%Z then [max_turns_notice] else []).
  split; [rewrite Hq, <- app_assoc; reflexivity|].
  split; [exact Hbody|]. split; [exact Herr|].
  destruct (maxTurns cfg <=? turn)%Z; auto.
Qed.

(** C3: in every pass of the loop the tool events are, for the tool calls
    decoded in that pass and in their order, a tool_use directly followed by
    the tool_result that carries the same id; in the stream of a whole run
    every tool_use is directly followed by its tool_result and the two id
    sequences are equal. *)
Theorem tool_results_follow_calls
    (prompt chatId selectedModel : string) (requested_model : option string)
    (st : State B) :
  match (makeStreamingRequest B (world B st) (getConversationHistory B chatId st)
           selectedModel).2 with
  | Response true _ chunks None =>
      exists pre tools,
        (turn_body B chatId selectedModel st).1.1 = pre ++ tools /\
        Forall no_tool_event pre /\
        tool_events_of (toolCalls (processStream chunks)) tools
  | _ => exists message, (turn_body B chatId selectedModel st).1.1 = [ErrorEvent message]
  end
  /\ paired (query B cfg prompt chatId requested_model st).1.1 = true
  /\ tool_use_ids (query B cfg prompt chatId requested_model st).1.1 =
     tool_result_ids (query B cfg prompt chatId requested_model st).1.1.
Proof.
  split; [apply turn_body_decoded|].
  destruct (query_events prompt chatId requested_model st)
    as (loop & turn & Hq & _ & Hloop & _).
  destruct Hloop as (body & err & -> & Hbody & Hpaired & Hids & Herr).
  rewrite Hq. simpl.
  assert (Htail : forall tail,
            paired tail = true -> tool_use_ids tail = [] -> tool_result_ids tail = [] ->
            paired (body ++ tail) = true /\
            tool_use_ids (body ++ tail) = tool_result_ids (body ++ tail)).
  { intros tail Ht Hu Hr. split; [rewrite paired_app by exact Hpaired; exact Ht|].
    rewrite tool_use_ids_app, tool_result_ids_app, Hu, Hr, Hids. reflexivity. }
  rewrite <- app_assoc. apply Htail.
  - destruct Herr as [->|[message ->]]; destruct (maxTurns cfg <=? turn)%Z; reflexivity.
  - destruct Herr as [->|[message ->]]; destruct (maxTurns cfg <=? turn)%Z; reflexivity.
  - destruct Herr as [->|[message ->]]; destruct (maxTurns cfg <=? turn)%Z; reflexivity.
Qed.

(** C7: whatever the proxy and the tools answer, the loop makes at most
    maxTurns passes and the stream ends with done; when the cap is reached the
    max-turns notice precedes done; and when every pass ends with tool calls
    (so the loop never stops by itself) the loop makes exactly maxTurns
    passes and the stream ends with the notice and done. *)
Theorem turn_loop_bounded
    (prompt chatId : string) (requested_model : option string) (st : State B) :
  let run := query B cfg prompt chatId requested_model st in
  (0 <= run.1.2 <= Z.max 0 (maxTurns cfg))%Z /\
  (exists body, run.1.1 = SessionInit chatId :: body ++ [Done]) /\
  ((maxTurns cfg <= run.1.2)%Z ->
   exists body, run.1.1 = SessionInit chatId :: body ++ [max_turns_notice; Done]) /\
  ((forall selectedModel s, (turn_body B chatId selectedModel s).2 = Continue) ->
   run.1.2 = Z.max 0 (maxTurns cfg) /\
   exists body, run.1.1 = SessionInit chatId :: body ++ [max_turns_notice; Done]).
Proof.
  cbv zeta.
  destruct (query_events prompt chatId requested_model st)
    as (loop & turn & Hq & Ht & _ & Hbound).
  rewrite Hq, Ht.
  assert (Hcap : (maxTurns cfg <= turn)%Z ->
            exists body,
              SessionInit chatId :: loop
                ++ (if (maxTurns cfg <=? turn)%Z then [max_turns_notice] else []) ++ [Done]
              = SessionInit chatId :: body ++ [max_turns_notice; Done]).
  { intros Hge. apply Z.leb_le in Hge. rewrite Hge. exists loop. reflexivity. }
  split; [exact Hbound|]. split; [|split; [exact Hcap|]].
  - exists (loop ++ (if (maxTurns cfg <=? turn)%Z then [max_turns_notice] else [])).
    rewrite <- app_assoc. reflexivity.
  - intros Hcont.
    assert (Hturn : turn = Z.max 0 (maxTurns cfg)).
    { rewrite <- Ht. unfold query.
      match goal with
      | |- context [turns B cfg ?f ?c ?m ?t ?s] =>
          pose proof (turns_exhaust c m (Hcont m) f t s) as Hex;
          destruct (turns B cfg f c m t s) as [[events final] st']
      end.
      simpl in *. apply Hex. lia. }
    split; [exact Hturn|]. apply Hcap. lia.
Qed.

(** *** The history window *)

Lemma push_trim_window history message :
  length history <= 100 ->
  length (push_trim history message) <= 100 /\
  (exists old, history ++ [message] = old ++ push_trim history message) /\
  (100 < length (history ++ [message]) -> length (push_trim history message) = 80) /\
  last (push_trim history message) = Some message.
Proof.
  intros Hlen. unfold push_trim.
  assert (Hl : length (history ++ [message]) = S (length history))
    by (rewrite length_app; simpl; lia).
  destruct (Nat.ltb 100 (length (history ++ [message]))) eqn:Hlt.
  - apply Nat.ltb_lt in Hlt.
    split; [rewrite length_drop; lia|]. split; [|split].
    + exists (take (length (history ++ [message]) - 80) (history ++ [message])).
      symmetry. apply take_drop.
    + intros _. rewrite length_drop. lia.
    + rewrite drop_app_le by lia. apply last_snoc.
  - apply Nat.ltb_ge in Hlt. split; [lia|]. split; [|split].
    + exists []. reflexivity.
    + lia.
    + apply last_snoc.
Qed.

Lemma add_message_bounded chatId message st :
  bounded B st -> bounded B (add_message B chatId message st).
Proof.
  unfold bounded, add_message, addToHistory. simpl. intros Hst c h Hl.
  apply lookup_insert_Some in Hl as [[_ <-]|[_ Hl]]; [|exact (Hst c h Hl)].
  apply push_trim_window.
  destruct (conversationHistory B st !! chatId) as [h0|] eqn:Hh; simpl.
  - exact (Hst chatId h0 Hh).
  - lia.
Qed.

Lemma turn_body_bounded chatId selectedModel st :
  bounded B st -> bounded B (turn_body B chatId selectedModel st).1.2.
Proof.
  intros Hst. unfold turn_body.
  destruct (makeStreamingRequest B (world B st) (getConversationHistory B chatId st)
              selectedModel) as [w1 outcome].
  destruct outcome as [message|ok status chunks failure]; [exact Hst|].
  destruct ok, failure as [message|]; try exact Hst.
  destruct (toolCalls (processStream chunks)) as [|c calls].
  - cbn [fst snd]. destruct (assistantContent (processStream chunks));
      [exact Hst|apply add_message_bounded; exact Hst].
  - destruct (run_tool_calls B (c :: calls) w1) as [[events blocks] w2].
    cbn [fst snd]. do 2 apply add_message_bounded. exact Hst.
Qed.

Lemma turns_bounded fuel chatId selectedModel : forall turn st,
  bounded B st -> bounded B (turns B cfg fuel chatId selectedModel turn st).2.
Proof.
  induction fuel as [|fuel IH]; intros turn st Hst; simpl; [exact Hst|].
  destruct (turn <? maxTurns cfg)%Z; [|exact Hst].
  pose proof (turn_body_bounded chatId selectedModel st Hst) as Hb.
  destruct (turn_body B chatId selectedModel st) as [[events st1] next].
  simpl in Hb. destruct next; [|exact Hb].
  specialize (IH (turn + 1)%Z st1 Hb).
  destruct (turns B cfg fuel chatId selectedModel (turn + 1) st1) as [[later final] st2].
  exact IH.
Qed.

(** C4 (amended): a push keeps a history of at most 100 messages within 100:
    what remains is a suffix of the old history followed by the new message
    (the oldest entries go first), and when the push makes more than 100
    entries exactly the newest 80 remain. A whole run of query keeps every
    conversation within 100 messages. Nothing is said about pairs: the cut is
    by count. *)
Theorem history_window
    (history : list Message) (message : Message)
    (prompt chatId : string) (requested_model : option string) (st : State B) :
  length history <= 100 ->
  bounded B st ->
  length (push_trim history message) <= 100 /\
  (exists old, history ++ [message] = old ++ push_trim history message) /\
  (100 < length (history ++ [message]) -> length (push_trim history message) = 80) /\
  last (push_trim history message) = Some message /\
  bounded B (query B cfg prompt chatId requested_model st).2.
Proof.
  intros Hlen Hst.
  destruct (push_trim_window history message Hlen) as (H1 & H2 & H3 & H4).
  repeat split; try assumption.
  unfold query.
  match goal with
  | |- context [turns B cfg ?f ?c ?m ?t ?s] =>
      assert (Hs : bounded B s) by (apply add_message_bounded; exact Hst);
      pose proof (turns_bounded f c m t s Hs) as Hb;
      destruct (turns B cfg f c m t s) as [[events turn] st']
  end.
  exact Hb.
Qed.

End WithBackend.
End ProviderFacts.

(** ** Resolving a permission twice *)

Module PermissionFacts.
Import JsString Js Runtime.

Section WithPlatform.
Context `{NodePlatform} `{Tools.Builtins}.

Lemma sandbox_approve_found st i perm :
  Sandbox.pendingPermissions st !! i = Some perm ->
  let first := Sandbox.approvePermission i st in
  first.1 = Some (Sandbox.set_status "approved" perm) /\
  Sandbox.pendingPermissions first.2 !! i = None /\
  Sandbox.in_approved first.2 (Sandbox.effective_session perm)
    (Sandbox.normalizePath (Sandbox.perm_path perm)) /\
  Sandbox.deniedPaths first.2 = Sandbox.deniedPaths st.
Proof.
  intros Hp. unfold Sandbox.approvePermission. rewrite Hp. simpl.
  split; [reflexivity|]. split; [apply lookup_delete_eq|]. split; [|reflexivity].
  unfold Sandbox.in_approved, Sandbox.add_path. simpl.
  rewrite lookup_insert_eq. simpl. set_solver.
Qed.

Lemma sandbox_deny_found st i perm :
  Sandbox.pendingPermissions st !! i = Some perm ->
  let first := Sandbox.denyPermission i st in
  first.1 = Some (Sandbox.set_status "denied" perm) /\
  Sandbox.pendingPermissions first.2 !! i = None /\
  Sandbox.in_denied first.2 (Sandbox.effective_session perm)
    (Sandbox.normalizePath (Sandbox.perm_path perm)) /\
  Sandbox.approvedPaths first.2 = Sandbox.approvedPaths st.
Proof.
  intros Hp. unfold Sandbox.denyPermission. rewrite Hp. simpl.
  split; [reflexivity|]. split; [apply lookup_delete_eq|]. split; [|reflexivity].
  unfold Sandbox.in_denied, Sandbox.add_path. simpl.
  rewrite lookup_insert_eq. simpl. set_solver.
Qed.

Lemma sandbox_not_pending st i :
  Sandbox.pendingPermissions st !! i = None ->
  Sandbox.approvePermission i st = (None, st) /\
  Sandbox.denyPermission i st = (None, st).
Proof.
  intros Hp. unfold Sandbox.approvePermission, Sandbox.denyPermission.
  rewrite Hp. split; reflexivity.
Qed.

Lemma tools_confirm_found st i perm p :
  Tools.pendingPermissions st !! i = Some perm ->
  Tools.pp_path perm = JStr p ->
  let first := Tools.confirmPermission (JStr i) st in
  first.1 = Tools.Ok (Tools.obj [ ("approved", JBool true); ("path", JStr p) ]) /\
  Tools.pendingPermissions first.2 !! i = None /\
  path_normalize p ∈ default (∅ : gset string)
                       (Tools.approvedPaths first.2 !! Tools.pp_sessionId perm).
Proof.
  intros Hp Hpath. unfold Tools.confirmPermission. simpl. rewrite Hp, Hpath. simpl.
  split; [reflexivity|]. split; [apply lookup_delete_eq|].
  rewrite lookup_insert_eq. simpl. set_solver.
Qed.

Lemma tools_deny_found st i perm :
  Tools.pendingPermissions st !! i = Some perm ->
  let first := Tools.denyPermission (JStr i) st in
  first.1 = Tools.Ok (Tools.obj [ ("denied", JBool true); ("path", Tools.pp_path perm) ]) /\
  Tools.pendingPermissions first.2 !! i = None /\
  Tools.approvedPaths first.2 = Tools.approvedPaths st.
Proof.
  intros Hp. unfold Tools.denyPermission. simpl. rewrite Hp. simpl.
  split; [reflexivity|]. split; [apply lookup_delete_eq|reflexivity].
Qed.

Lemma tools_not_pending st i :
  Tools.pendingPermissions st !! i = None ->
  Tools.confirmPermission (JStr i) st =
    (Tools.Ok (Tools.obj [ ("error", JStr "Permission request not found or expired") ]), st) /\
  Tools.denyPermission (JStr i) st =
    (Tools.Ok (Tools.obj [ ("error", JStr "Permission request not found") ]), st).
Proof.
  intros Hp. unfold Tools.confirmPermission, Tools.denyPermission. simpl.
  rewrite Hp. split; reflexivity.
Qed.

(** C9: resolving a permission id twice is safe, in the permission gate and in the tool
    executor. The first approve (deny) of a pending id returns the permission,
    removes the pending entry and records the normalized path in the
    session's approved (denied) set; a second approve or deny of that id
    finds nothing, reports so (null in the permission gate, a not-found error object in
    the executor) and leaves the whole state as it is. *)
Theorem second_resolution_is_noop :
  (forall (st : Sandbox.State) (i : string) (perm : Sandbox.Permission),
     Sandbox.pendingPermissions st !! i = Some perm ->
     let approved := Sandbox.approvePermission i st in
     let denied := Sandbox.denyPermission i st in
     approved.1 = Some (Sandbox.set_status "approved" perm) /\
     Sandbox.in_approved approved.2 (Sandbox.effective_session perm)
       (Sandbox.normalizePath (Sandbox.perm_path perm)) /\
     Sandbox.approvePermission i approved.2 = (None, approved.2) /\
     Sandbox.denyPermission i approved.2 = (None, approved.2) /\
     denied.1 = Some (Sandbox.set_status "denied" perm) /\
     Sandbox.in_denied denied.2 (Sandbox.effective_session perm)
       (Sandbox.normalizePath (Sandbox.perm_path perm)) /\
     Sandbox.approvePermission i denied.2 = (None, denied.2) /\
     Sandbox.denyPermission i denied.2 = (None, denied.2))
  /\
  (forall (st : Tools.ToolState) (i : string) (perm : Tools.PendingPermission) (p : string),
     Tools.pendingPermissions st !! i = Some perm ->
     Tools.pp_path perm = JStr p ->
     let confirmed := Tools.confirmPermission (JStr i) st in
     let denied := Tools.denyPermission (JStr i) st in
     confirmed.1 = Tools.Ok (Tools.obj [ ("approved", JBool true); ("path", JStr p) ]) /\
     path_normalize p ∈ default (∅ : gset string)
                          (Tools.approvedPaths confirmed.2 !! Tools.pp_sessionId perm) /\
     Tools.confirmPermission (JStr i) confirmed.2 =
       (Tools.Ok (Tools.obj [ ("error", JStr "Permission request not found or expired") ]),
        confirmed.2) /\
     Tools.denyPermission (JStr i) confirmed.2 =
       (Tools.Ok (Tools.obj [ ("error", JStr "Permission request not found") ]), confirmed.2) /\
     denied.1 = Tools.Ok (Tools.obj [ ("denied", JBool true); ("path", JStr p) ]) /\
     Tools.confirmPermission (JStr i) denied.2 =
       (Tools.Ok (Tools.obj [ ("error", JStr "Permission request not found or expired") ]),
        denied.2) /\
     Tools.denyPermission (JStr i) denied.2 =
       (Tools.Ok (Tools.obj [ ("error", JStr "Permission request not found") ]), denied.2)).
Proof.
  split.
  - intros st i perm Hp. cbv zeta.
    destruct (sandbox_approve_found st i perm Hp) as (Ha1 & Ha2 & Ha3 & _).
    destruct (sandbox_deny_found st i perm Hp) as (Hd1 & Hd2 & Hd3 & _).
    destruct (sandbox_not_pending _ i Ha2) as [Haa Had].
    destruct (sandbox_not_pending _ i Hd2) as [Hda Hdd].
    repeat split; assumption.
  - intros st i perm p Hp Hpath. cbv zeta.
    destruct (tools_confirm_found st i perm p Hp Hpath) as (Hc1 & Hc2 & Hc3).
    destruct (tools_deny_found st i perm Hp) as (Hd1 & Hd2 & _).
    destruct (tools_not_pending _ i Hc2) as [Hcc Hcd].
    destruct (tools_not_pending _ i Hd2) as [Hdc Hdd].
    rewrite Hpath in Hd1.
    repeat split; assumption.
Qed.

End WithPlatform.
End PermissionFacts.

(** ** The tool executor on concrete inputs *)

Module ToolsExamples.
Import JsString Js Runtime RuntimeFacts Tools ToolsFacts Posix ToolsData.

Lemma deletions_follow_requests_witness :
  (run_tools calm delete_then_confirm initial tt).2 !! 1 =
    Some ("ConfirmDelete", JObj [("deletion_id", JStr "del_1700000000000_k3x9q2")],
          [EvCall (FsUnlink (JStr "/tmp/report.txt"))]) /\
  requested_earlier (run_tools calm delete_then_confirm initial tt).2 1
    (JStr "/tmp/report.txt").
Proof.
  assert (Hl : (run_tools calm delete_then_confirm initial tt).2 !! 1 =
    Some ("ConfirmDelete", JObj [("deletion_id", JStr "del_1700000000000_k3x9q2")],
          [EvCall (FsUnlink (JStr "/tmp/report.txt"))])) by (vm_compute; reflexivity).
  split; [exact Hl|].
  destruct (deletions_follow_requests calm delete_then_confirm tt 1 "ConfirmDelete" _ _
              (EvCall (FsUnlink (JStr "/tmp/report.txt"))) (JStr "/tmp/report.txt")
              Hl (or_introl eq_refl) eq_refl) as [[_ Hreq]|[Hcu _]].
  - exact Hreq.
  - exfalso. unfold computer_use in Hcu. simpl in Hcu.
    repeat (destruct Hcu as [Hcu|Hcu]; [discriminate|]). exact Hcu.
Defined.

(** C1 as stated fails: on Linux the Screenshot tool unlinks the image file
    it has just read, with no pending deletion and no Delete request. *)
Lemma screenshot_unlinks_directly : ~ every_deletion_confirmed.
Proof.
  intros Hall.
  assert (Hl : (run_tools calm [("Screenshot", JObj [])] initial tt).2 !! 0 =
    Some ("Screenshot", JObj [],
          [ EvCall (ExecAsync ("scrot " +:+ quoted "/srv/nimbus/screenshot_1700000000000.png")
                              no_options);
            EvCall (FsReadFileBase64 (JStr "/srv/nimbus/screenshot_1700000000000.png"));
            EvCall (FsUnlink (JStr "/srv/nimbus/screenshot_1700000000000.png")) ]))
    by (vm_compute; reflexivity).
  destruct (Hall calm [("Screenshot", JObj [])] tt 0 "Screenshot" _ _
              (EvCall (FsUnlink (JStr "/srv/nimbus/screenshot_1700000000000.png")))
              (JStr "/srv/nimbus/screenshot_1700000000000.png")
              Hl (or_intror (or_intror (or_introl eq_refl))) eq_refl) as [Hname _].
  discriminate.
Qed.

(** The Bash tool hands a command that deletes files to the shell as it is:
    the only commands it refuses contain one of the four [dangerous]
    patterns. No pending deletion is involved. *)
Lemma bash_hands_rm_to_shell :
  let run := exec calm (executeTool "Bash"
                          (JObj [("command", JStr "rm -r /home/u/project")]) initial) tt in
  map shell_command run.2 = [Some "rm -r /home/u/project"] /\
  pendingDeletions run.1.1.2 = ∅.
Proof. vm_compute. split; reflexivity. Qed.


End ToolsExamples.

(** ** The browser bridge *)

Module BridgeFacts.
Import Js Bridge.

Lemma settle_count_snoc id st st' c :
  settled st' = settled st ++ [c] ->
  settle_count id st' = settle_count id st + (if Z.eqb (settle_id c) id then 1 else 0).
Proof.
  unfold settle_count. intros ->. rewrite List.filter_app, length_app. simpl.
  destruct (Z.eqb (settle_id c) id); reflexivity.
Qed.

Lemma settle_count_same id st st' :
  settled st' = settled st -> settle_count id st' = settle_count id st.
Proof. unfold settle_count. intros ->. reflexivity. Qed.

Lemma bridge_inv_initial : bridge_inv initial.
Proof.
  unfold bridge_inv, issued. simpl. split; [lia|]. split; [intros id Hid; lia|].
  intros id _. rewrite !lookup_empty. repeat split; reflexivity.
Qed.

(** A step that leaves the map, the counter, the timers and the log alone. *)
Lemma bridge_inv_frame st st' :
  pendingRequests st' = pendingRequests st ->
  requestIdCounter st' = requestIdCounter st ->
  timers st' = timers st ->
  settled st' = settled st ->
  bridge_inv st -> bridge_inv st'.
Proof.
  unfold bridge_inv, issued, waiting, over, settle_count.
  intros -> -> -> ->. exact id.
Qed.

Lemma timer_is_waiting st id action :
  bridge_inv st -> timers st !! id = Some action -> issued id st /\ waiting id st.
Proof.
  intros (_ & Hiss & Hnot) Ht.
  destruct (decide (issued id st)) as [Hi|Hn].
  - split; [exact Hi|]. destruct (Hiss id Hi) as [Hw|(_ & Hnone & _)]; [exact Hw|congruence].
  - destruct (Hnot id Hn) as (_ & Hnone & _). congruence.
Qed.

Lemma entry_is_waiting st id handle :
  bridge_inv st -> pendingRequests st !! id = Some handle ->
  handle = id /\ issued id st /\ waiting id st.
Proof.
  intros (_ & Hiss & Hnot) Hp.
  destruct (decide (issued id st)) as [Hi|Hn].
  - destruct (Hiss id Hi) as [Hw|(Hnone & _)]; [|congruence].
    destruct Hw as (Hp' & Hw). split; [congruence|]. split; [exact Hi|].
    split; [exact Hp'|exact Hw].
  - destruct (Hnot id Hn) as (Hnone & _). congruence.
Qed.

(** Settling request [id]: its entry and timer go, one call is logged. *)
Lemma bridge_inv_settle st st' id c :
  bridge_inv st ->
  waiting id st ->
  issued id st ->
  settle_id c = id ->
  pendingRequests st' = delete id (pendingRequests st) ->
  requestIdCounter st' = requestIdCounter st ->
  timers st' = delete id (timers st) ->
  settled st' = settled st ++ [c] ->
  bridge_inv st' /\ over id st'.
Proof.
  intros (Hc & Hiss & Hnot) (Hw1 & Hw2 & Hw3) Hi Hid Hp Hcnt Ht Hs.
  assert (Hover : over id st').
  { unfold over. rewrite Hp, Ht, !lookup_delete_eq.
    rewrite (settle_count_snoc id st st' c Hs), Hid, Z.eqb_refl, Hw3.
    repeat split; reflexivity. }
  split; [|exact Hover].
  unfold bridge_inv, issued. rewrite Hcnt. split; [exact Hc|]. split.
  - intros id' Hi'. destruct (decide (id' = id)) as [->|Hne]; [right; exact Hover|].
    assert (Hcount : settle_count id' st' = settle_count id' st).
    { rewrite (settle_count_snoc id' st st' c Hs), Hid.
      destruct (Z.eqb_spec id id'); [congruence|lia]. }
    unfold waiting, over. rewrite Hp, Ht, Hcount, !lookup_delete_ne by congruence.
    exact (Hiss id' Hi').
  - intros id' Hn'. destruct (decide (id' = id)) as [->|Hne]; [contradiction|].
    assert (Hcount : settle_count id' st' = settle_count id' st).
    { rewrite (settle_count_snoc id' st st' c Hs), Hid.
      destruct (Z.eqb_spec id id'); [congruence|lia]. }
    rewrite Hp, Ht, Hcount, !lookup_delete_ne by congruence.
    exact (Hnot id' Hn').
Qed.

Lemma bridge_inv_sendCommand action params st :
  bridge_inv st -> bridge_inv (sendCommand action params st).
Proof.
  intros Hinv. unfold sendCommand.
  destruct (browserExtensionSocket st) as [ws|];
    [|eapply bridge_inv_frame; [..|exact Hinv]; reflexivity].
  destruct (bool_decide (readyState st !! ws = Some 1%Z));
    [|eapply bridge_inv_frame; [..|exact Hinv]; reflexivity].
  destruct Hinv as (Hc & Hiss & Hnot).
  set (new := (requestIdCounter st + 1)%Z).
  assert (Hfresh : ~ issued new st) by (unfold issued, new; lia).
  destruct (Hnot new Hfresh) as (Hp0 & Ht0 & Hs0).
  unfold bridge_inv, issued, waiting, over, settle_count. simpl. fold new.
  split; [lia|]. split.
  - intros id Hid. destruct (decide (id = new)) as [->|Hne].
    + left. rewrite !lookup_insert_eq. repeat split; eauto.
    + rewrite !lookup_insert_ne by congruence.
      apply Hiss. unfold issued, new in *. lia.
  - intros id Hid. assert (Hne : id <> new) by (unfold new in *; lia).
    rewrite !lookup_insert_ne by congruence.
    apply Hnot. unfold issued, new in *. lia.
Qed.

Lemma bridge_inv_on_timeout id st : bridge_inv st -> bridge_inv (on_timeout id st).
Proof.
  intros Hinv. unfold on_timeout.
  destruct (timers st !! id) as [action|] eqn:Ht; [|exact Hinv].
  destruct (timer_is_waiting st id action Hinv Ht) as [Hi Hw].
  eapply bridge_inv_settle; eauto; reflexivity.
Qed.

Lemma bridge_inv_on_response id call st :
  (forall i, settle_id (call i) = i) ->
  bridge_inv st -> bridge_inv (on_response id call st).
Proof.
  intros Hcall Hinv. unfold on_response.
  destruct id as [i|]; simpl; [|exact Hinv].
  destruct (pendingRequests st !! i) as [handle|] eqn:Hp; simpl; [|exact Hinv].
  destruct (entry_is_waiting st i handle Hinv Hp) as (-> & Hi & Hw).
  eapply bridge_inv_settle; eauto; reflexivity.
Qed.

Lemma bridge_inv_step st input : bridge_inv st -> bridge_inv (step st input).
Proof.
  intros Hinv. destruct input as [ws|action params|ws data|id|ws|ws state]; simpl.
  - eapply bridge_inv_frame; [..|exact Hinv]; reflexivity.
  - apply bridge_inv_sendCommand, Hinv.
  - destruct data as [|client version|id message|id error|]; simpl;
      try exact Hinv.
    + apply bridge_inv_on_response; [reflexivity|exact Hinv].
    + apply bridge_inv_on_response; [reflexivity|exact Hinv].
  - apply bridge_inv_on_timeout, Hinv.
  - eapply bridge_inv_frame; [..|exact Hinv]; reflexivity.
  - eapply bridge_inv_frame; [..|exact Hinv]; reflexivity.
Qed.

Lemma bridge_inv_run inputs : forall st, bridge_inv st -> bridge_inv (run st inputs).
Proof.
  induction inputs as [|input inputs IH]; intros st Hinv; [exact Hinv|].
  simpl. apply IH, bridge_inv_step, Hinv.
Qed.

(** A timer that is not armed does nothing. *)
Lemma over_timeout_noop id st : over id st -> on_timeout id st = st.
Proof. intros (_ & Ht & _). unfold on_timeout. rewrite Ht. reflexivity. Qed.

(** C8: in every state the bridge can reach, a request that was issued is
    either waiting (entry in the map, timer armed, neither resolve nor reject
    called) or over (no entry, no timer, exactly one call of resolve or
    reject), so no request is settled twice. If the timer of a waiting
    request fires, the request is rejected with the timeout error, its entry
    is removed and the timer cannot fire again; if a result or an error
    message for it arrives first, the timer is cleared, the entry is removed
    and the request is resolved or rejected, and the timer does nothing
    afterwards. *)
Theorem request_lifecycle (inputs : list Input) (id : Z) :
  let st := run initial inputs in
  (issued id st -> waiting id st \/ over id st) /\
  settle_count id st <= 1 /\
  (waiting id st ->
   let t := step st (TimerFires id) in
   over id t /\
   (exists action,
      settled t = settled st ++
                  [RejectCall id ("Browser command " +:+ action +:+ " timed out")]) /\
   step t (TimerFires id) = t) /\
  (waiting id st ->
   forall ws message,
     let r := step st (Message ws (ResultMessage (Some id) message)) in
     over id r /\ settled r = settled st ++ [ResolveCall id message] /\
     step r (TimerFires id) = r) /\
  (waiting id st ->
   forall ws error,
     let r := step st (Message ws (ErrorMessage (Some id) error)) in
     over id r /\ settled r = settled st ++ [RejectCall id error] /\
     step r (TimerFires id) = r).
Proof.
  cbv zeta.
  pose proof (bridge_inv_run inputs initial bridge_inv_initial) as Hinv.
  set (st := run initial inputs) in *.
  assert (Hcases : issued id st -> waiting id st \/ over id st)
    by (destruct Hinv as (_ & Hiss & _); apply Hiss).
  assert (Hissued : waiting id st -> issued id st).
  { intros (Hp & _). exact (proj1 (proj2 (entry_is_waiting st id id Hinv Hp))). }
  split; [exact Hcases|]. split; [|split; [|split]].
  - destruct (decide (issued id st)) as [Hi|Hn].
    + destruct (Hcases Hi) as [(_ & _ & ->)|(_ & _ & ->)]; lia.
    + destruct Hinv as (_ & _ & Hnot). destruct (Hnot id Hn) as (_ & _ & ->). lia.
  - intros Hw. pose proof Hw as (Hp & [action Ht] & Hs). simpl.
    assert (Hover : over id (on_timeout id st)).
    { unfold on_timeout. rewrite Ht.
      eapply bridge_inv_settle; eauto; reflexivity. }
    split; [exact Hover|]. split.
    + exists action. unfold on_timeout. rewrite Ht. reflexivity.
    + apply over_timeout_noop, Hover.
  - intros Hw ws message. pose proof Hw as (Hp & _). simpl.
    assert (Hover : over id (on_response (Some id) (fun i => ResolveCall i message) st)).
    { unfold on_response. simpl. rewrite Hp. simpl.
      eapply bridge_inv_settle; eauto; reflexivity. }
    split; [exact Hover|]. split.
    + unfold on_response. simpl. rewrite Hp. reflexivity.
    + apply over_timeout_noop, Hover.
  - intros Hw ws error. pose proof Hw as (Hp & _). simpl.
    assert (Hover : over id (on_response (Some id) (fun i => RejectCall i error) st)).
    { unfold on_response. simpl. rewrite Hp. simpl.
      eapply bridge_inv_settle; eauto; reflexivity. }
    split; [exact Hover|]. split.
    + unfold on_response. simpl. rewrite Hp. reflexivity.
    + apply over_timeout_noop, Hover.
Qed.

End BridgeFacts.

(** ** The agent loop on concrete inputs *)

Module ProviderExamples.
Import JsString Js Provider ProviderFacts ProviderData.

Lemma down_stream :
  (query down (make_config None None) "hello" "c1" None (fresh down tt)).1.1 =
  [SessionInit "c1"; ErrorEvent "API error: 500"; Done].
Proof. vm_compute. reflexivity. Qed.

(** C2 as stated fails: when the proxy answers 500 the error event is
    followed by done. *)
Lemma done_follows_error : ~ error_is_terminal.
Proof.
  intros Hall.
  specialize (Hall down (make_config None None) "hello" "c1" None (fresh down tt)
                   "API error: 500").
  rewrite down_stream in Hall.
  specialize (Hall (or_intror (or_introl eq_refl))). discriminate.
Qed.

Lemma stubborn_continues selectedModel (s : State stubborn) :
  (turn_body stubborn "c1" selectedModel s).2 = Continue.
Proof. reflexivity. Qed.

Lemma turn_loop_bounded_witness :
  (forall selectedModel s, (turn_body stubborn "c1" selectedModel s).2 = Continue) /\
  (query stubborn three_turns "go" "c1" None (fresh stubborn tt)).1.2 = 3%Z /\
  exists body,
    (query stubborn three_turns "go" "c1" None (fresh stubborn tt)).1.1 =
    SessionInit "c1" :: body ++ [max_turns_notice; Done].
Proof.
  split; [exact stubborn_continues|].
  destruct (turn_loop_bounded stubborn three_turns "go" "c1" None (fresh stubborn tt))
    as (_ & _ & _ & Hcap).
  destruct (Hcap stubborn_continues) as [Hturn Hbody].
  split; [exact Hturn|exact Hbody].
Defined.

Lemma reached_history_length : length reached_history = 100.
Proof. vm_compute. reflexivity. Qed.

(** The next push drops 21 entries: the last one dropped is the assistant
    message with tool use t10, the first one kept is the user message with
    the result of t10. *)
Lemma reached_history_cut :
  dropped reached_history third_prompt = 21 /\
  (tool_uses <$> (reached_history ++ [third_prompt]) !! 20) = Some ["t10"] /\
  (tool_results <$> (reached_history ++ [third_prompt]) !! 21) = Some ["t10"] /\
  (tool_results <$> head (push_trim reached_history third_prompt)) = Some ["t10"].
Proof. vm_compute. repeat split; reflexivity. Qed.

(** C4 as stated fails: the push of the third prompt separates the pair
    of tool call t10. *)
Lemma trim_splits_pair : ~ trim_never_splits.
Proof.
  intros Hall.
  assert (Hsplit : trim_splits reached_history third_prompt = true)
    by (vm_compute; reflexivity).
  rewrite (Hall reached_history third_prompt) in Hsplit; [discriminate|].
  rewrite reached_history_length. lia.
Qed.

Lemma history_window_witness :
  length reached_history <= 100 /\
  bounded busy (fresh busy 0) /\
  length (push_trim reached_history third_prompt) = 80 /\
  last (push_trim reached_history third_prompt) = Some third_prompt.
Proof.
  assert (Hlen : length reached_history <= 100)
    by (rewrite reached_history_length; lia).
  assert (Hb : bounded busy (fresh busy 0)).
  { intros c h Hl. simpl in Hl. rewrite lookup_empty in Hl. discriminate. }
  destruct (history_window busy (make_config None None) reached_history third_prompt
              "first" "c1" None (fresh busy 0) Hlen Hb) as (_ & _ & H80 & Hlast & _).
  split; [exact Hlen|]. split; [exact Hb|]. split; [|exact Hlast].
  apply H80. rewrite length_app, reached_history_length. simpl. lia.
Defined.

End ProviderExamples.

(** ** The bridge and the permission stores on concrete inputs *)

Module BridgeExamples.
Import Js Bridge BridgeFacts BridgeData.

Lemma request_lifecycle_witness :
  waiting 1 (run initial one_click) /\
  over 1 (step (run initial one_click) (TimerFires 1)) /\
  settled (step (run initial one_click) (TimerFires 1)) =
    [RejectCall 1 "Browser command click timed out"] /\
  over 1 (step (run initial one_click) (Message 7 (ResultMessage (Some 1%Z) JNull))) /\
  over 1 (step (run initial one_click) (Message 7 (ErrorMessage (Some 1%Z) "no such element"))).
Proof.
  assert (Hw : waiting 1 (run initial one_click)).
  { unfold waiting. split; [vm_compute; reflexivity|].
    split; [exists "click"; vm_compute; reflexivity|reflexivity]. }
  destruct (request_lifecycle one_click 1) as (_ & _ & Htimer & Hresult & Herror).
  destruct (Htimer Hw) as (Hover & [action Hlog] & _).
  destruct (Hresult Hw 7 JNull) as (Hres & _).
  destruct (Herror Hw 7 "no such element") as (Herr & _).
  split; [exact Hw|]. split; [exact Hover|]. split; [vm_compute; reflexivity|].
  split; [exact Hres|exact Herr].
Defined.

End BridgeExamples.

Module PermissionExamples.
Import JsString Js Runtime Posix PermissionFacts ToolsExamples PermissionData ToolsData.

Lemma second_resolution_is_noop_witness :
  Sandbox.pendingPermissions gate_asked !! "perm_1" = Some gate_permission /\
  Sandbox.approvePermission "perm_1" (Sandbox.approvePermission "perm_1" gate_asked).2 =
    (None, (Sandbox.approvePermission "perm_1" gate_asked).2) /\
  Tools.pendingPermissions asked_once.1 !! "perm_1700000000000_k3x9q2" =
    Some {| Tools.pp_path := JStr "/home/u/Documents/notes.txt";
            Tools.pp_operation := "read";
            Tools.pp_reason := "Reading files from this location";
            Tools.pp_sessionId := "s1";
            Tools.pp_requestedAt := "2026-01-01T00:00:00.000Z" |} /\
  Tools.confirmPermission (JStr "perm_1700000000000_k3x9q2")
    (Tools.confirmPermission (JStr "perm_1700000000000_k3x9q2") asked_once.1).2 =
    (Tools.Ok (Tools.obj [ ("error", JStr "Permission request not found or expired") ]),
     (Tools.confirmPermission (JStr "perm_1700000000000_k3x9q2") asked_once.1).2).
Proof.
  assert (Hg : Sandbox.pendingPermissions gate_asked !! "perm_1" = Some gate_permission)
    by (vm_compute; reflexivity).
  assert (Ht : Tools.pendingPermissions asked_once.1 !! "perm_1700000000000_k3x9q2" =
    Some {| Tools.pp_path := JStr "/home/u/Documents/notes.txt";
            Tools.pp_operation := "read";
            Tools.pp_reason := "Reading files from this location";
            Tools.pp_sessionId := "s1";
            Tools.pp_requestedAt := "2026-01-01T00:00:00.000Z" |})
    by (vm_compute; reflexivity).
  destruct second_resolution_is_noop as [Hgate Htools].
  destruct (Hgate gate_asked "perm_1" gate_permission Hg) as (_ & _ & Hagain & _).
  destruct (Htools asked_once.1 "perm_1700000000000_k3x9q2" _
              "/home/u/Documents/notes.txt" Ht eq_refl) as (_ & _ & Hconfirm & _).
  split; [exact Hg|]. split; [exact Hagain|]. split; [exact Ht|exact Hconfirm].
Defined.

End PermissionExamples.

(** ** The capability gate: sessions, audit log, configuration and routes *)

Module SandboxAdminFacts.
Import Js Runtime JsString JsStringFacts Sandbox SandboxFacts SandboxAdmin.

Section WithPlatform.
Context `{NodePlatform} `{ConfigJson}.

Lemma config_validateOperation newId s op target reason st :
  config (validateOperation newId s op target reason st).2 = config st.
Proof.
  unfold validateOperation.
  repeat match goal with
         | |- context [if ?b then _ else _] => destruct b
         end; reflexivity.
Qed.

Lemma config_step st o : config (step st o) = config st.
Proof.
  destruct o as [newId s op p r|i|i]; simpl.
  - apply config_validateOperation.
  - unfold approvePermission. destruct (pendingPermissions st !! i); reflexivity.
  - unfold denyPermission. destruct (pendingPermissions st !! i); reflexivity.
Qed.

Lemma config_run ops : forall st, config (run st ops) = config st.
Proof.
  induction ops as [|o ops IH]; intros st; [reflexivity|].
  change (config (run (step st o) ops) = config st). rewrite IH. apply config_step.
Qed.

Lemma isBlocked_config st st' p : config st' = config st -> isBlocked st' p = isBlocked st p.
Proof. unfold isBlocked. intros ->. reflexivity. Qed.

Lemma isSensitive_config st st' p :
  config st' = config st -> isSensitive st' p = isSensitive st p.
Proof. unfold isSensitive. intros ->. reflexivity. Qed.

(** X1: a path of the blocked list is refused as blocked whatever was
    requested, approved or denied before: the blocked check comes first and
    no validate, approve or deny call changes the list. Nothing is recorded
    for such a call but the audit entries. *)
Theorem blocked_path_never_allowed
    (st : State) (ops : list Op) (newId sessionId operation targetPath : string)
    (reason : option string) :
  isBlocked st targetPath = true ->
  let res := validateOperation newId sessionId operation targetPath reason (run st ops) in
  allowed res.1 = false /\ blocked res.1 = Some true /\
  requiresPermission res.1 = None /\ permission res.1 = None /\
  pendingPermissions res.2 = pendingPermissions (run st ops) /\
  approvedPaths res.2 = approvedPaths (run st ops) /\
  deniedPaths res.2 = deniedPaths (run st ops).
Proof.
  intros Hb. cbv zeta. unfold validateOperation.
  set (st1 := logAudit _ (run st ops)).
  assert (Hb1 : isBlocked st1 targetPath = true).
  { rewrite <- Hb. apply isBlocked_config. unfold st1. simpl. apply config_run. }
  rewrite Hb1. simpl. repeat split; reflexivity.
Qed.

(** *** The audit log *)

Lemma logAudit_bound e st : length (auditLog (logAudit e st)) <= 1000.
Proof.
  unfold logAudit. simpl.
  destruct (Nat.ltb_spec 1000 (length (auditLog st ++ [e]))) as [Hlt|Hle].
  - rewrite length_drop. lia.
  - exact Hle.
Qed.

Lemma logAudit_last e st : last (auditLog (logAudit e st)) = Some e.
Proof.
  unfold logAudit. simpl.
  destruct (Nat.ltb 1000 (length (auditLog st ++ [e]))); [|apply last_snoc].
  rewrite length_app. simpl.
  rewrite drop_app_le by lia. apply last_snoc.
Qed.

Lemma audit_bound_step st o :
  length (auditLog st) <= 1000 -> length (auditLog (step st o)) <= 1000.
Proof.
  intros Hst. destruct o as [newId s op p r|i|i]; simpl.
  - unfold validateOperation.
    set (st1 := logAudit _ st).
    destruct (isBlocked st1 p); [apply logAudit_bound|].
    destruct (isDenied st1 s p); [apply logAudit_bound|].
    destruct (isApproved st1 s p); [apply logAudit_bound|].
    destruct (requireApproval (config st1) && isSensitive st1 p); [apply logAudit_bound|].
    destruct ((String.eqb op "write" || String.eqb op "execute") && isDangerousExtension p);
      apply logAudit_bound.
  - unfold approvePermission. destruct (pendingPermissions st !! i); simpl;
      [apply logAudit_bound|exact Hst].
  - unfold denyPermission. destruct (pendingPermissions st !! i); simpl;
      [apply logAudit_bound|exact Hst].
Qed.

Lemma audit_bound_run ops : forall st,
  length (auditLog st) <= 1000 -> length (auditLog (run st ops)) <= 1000.
Proof.
  induction ops as [|o ops IH]; intros st Hst; [exact Hst|].
  change (length (auditLog (run (step st o) ops)) <= 1000).
  apply IH, audit_bound_step, Hst.
Qed.

(** X2: the audit log never holds more than 1000 entries, whatever sequence
    of validate, approve and deny calls was made, and the entry logged last
    is always its last entry: the oldest entries are the ones dropped. *)
Theorem audit_log_bounded (ops : list Op) (entry : AuditEntry) :
  (length (auditLog (run initial ops)) <= 1000) /\
  (length (auditLog (logAudit entry (run initial ops))) <= 1000) /\
  last (auditLog (logAudit entry (run initial ops))) = Some entry.
Proof.
  split; [apply audit_bound_run; simpl; lia|].
  split; [apply logAudit_bound|apply logAudit_last].
Qed.

Lemma slice_from_last {A} (l : list A) (n : Z) :
  (0 < n)%Z -> Tools.slice_from l (- n) = drop (length l - Z.to_nat n) l.
Proof.
  intros Hn. unfold Tools.slice_from, Tools.slice.
  destruct (Z.ltb_spec (- n) 0) as [_|Hge]; [|lia].
  destruct (Z.ltb_spec (Z.of_nat (length l)) 0) as [Hneg|_]; [lia|].
  rewrite Z.min_id.
  replace (Z.to_nat (Z.max (Z.of_nat (length l) + - n) 0)) with (length l - Z.to_nat n) by lia.
  apply take_ge. rewrite length_drop. lia.
Qed.

Lemma slice_from_zero {A} (l : list A) : Tools.slice_from l 0 = l.
Proof.
  unfold Tools.slice_from, Tools.slice. simpl.
  destruct (Z.ltb_spec (Z.of_nat (length l)) 0) as [Hneg|_]; [lia|].
  rewrite Z.min_id.
  replace (Z.min 0 (Z.of_nat (length l))) with 0%Z by lia.
  rewrite Z.sub_0_r, Nat2Z.id. simpl. apply take_ge. lia.
Qed.

(** X3: getAuditLog(limit) returns the newest [limit] entries of the log (all
    of them when there are fewer), in the order they were logged, and the
    newest 100 when no limit is given; but getAuditLog(0) returns the whole
    log, not an empty list, because slice(-0) is slice(0). *)
Theorem getAuditLog_window (st : State) (limit : Z) :
  ((0 < limit)%Z ->
   getAuditLog (Some limit) st = drop (length (auditLog st) - Z.to_nat limit) (auditLog st) /\
   length (getAuditLog (Some limit) st) = Nat.min (Z.to_nat limit) (length (auditLog st))) /\
  getAuditLog None st = drop (length (auditLog st) - 100) (auditLog st) /\
  getAuditLog (Some 0%Z) st = auditLog st.
Proof.
  split; [|split].
  - intros Hl. unfold getAuditLog. simpl. rewrite slice_from_last by exact Hl.
    split; [reflexivity|]. rewrite length_drop. lia.
  - unfold getAuditLog. simpl. rewrite (slice_from_last _ 100) by lia. reflexivity.
  - unfold getAuditLog. simpl. apply slice_from_zero.
Qed.

(** *** Sessions *)

Lemma isDenied_no_set st s p : deniedPaths st !! s = None -> isDenied st s p = false.
Proof. unfold isDenied. intros ->. reflexivity. Qed.

Lemma isApproved_no_set st s p : approvedPaths st !! s = None -> isApproved st s p = false.
Proof. unfold isApproved. intros ->. reflexivity. Qed.

(** What [validateOperation] does for a sensitive path that is neither
    blocked, denied nor approved. *)
Lemma validateOperation_asks newId s op p r st :
  isBlocked st p = false ->
  isDenied st s p = false ->
  isApproved st s p = false ->
  requireApproval (config st) = true ->
  isSensitive st p = true ->
  exists reason,
    let perm := {| perm_id := newId; perm_sessionId := s; perm_operation := op;
                   perm_path := p; perm_reason := reason; perm_status := "pending" |} in
    (validateOperation newId s op p r st).1 =
      {| allowed := false; vr_reason := None; blocked := None;
         requiresPermission := Some true; permission := Some perm |} /\
    pendingPermissions (validateOperation newId s op p r st).2 =
      <[newId := perm]> (pendingPermissions st) /\
    approvedPaths (validateOperation newId s op p r st).2 = approvedPaths st /\
    deniedPaths (validateOperation newId s op p r st).2 = deniedPaths st /\
    config (validateOperation newId s op p r st).2 = config st.
Proof.
  intros Hb Hd Ha Hr Hs. unfold validateOperation.
  set (st1 := logAudit _ st).
  change (isBlocked st1 p) with (isBlocked st p).
  change (isDenied st1 s p) with (isDenied st s p).
  change (isApproved st1 s p) with (isApproved st s p).
  change (isSensitive st1 p) with (isSensitive st p).
  change (config st1) with (config st).
  rewrite Hb, Hd, Ha, Hr, Hs. simpl.
  eexists. repeat split; reflexivity.
Qed.

(** X4: clearSession forgets what a session was granted and refused. After
    it, a sensitive path of that session is asked about again even when it
    had been denied (or approved) before; the session has no pending
    permission left; the other sessions keep their sets. *)
Theorem clearSession_asks_again
    (st : State) (sessionId newId operation targetPath : string) (reason : option string) :
  isBlocked st targetPath = false ->
  requireApproval (config st) = true ->
  isSensitive st targetPath = true ->
  let cleared := clearSession sessionId st in
  let res := validateOperation newId sessionId operation targetPath reason cleared in
  allowed res.1 = false /\ requiresPermission res.1 = Some true /\
  (exists perm, permission res.1 = Some perm /\ perm_id perm = newId /\
                perm_sessionId perm = sessionId /\ perm_path perm = targetPath /\
                pendingPermissions res.2 !! newId = Some perm) /\
  (forall i perm, pendingPermissions cleared !! i = Some perm <->
                  pendingPermissions st !! i = Some perm /\ perm_sessionId perm <> sessionId) /\
  (forall other, other <> sessionId ->
     approvedPaths cleared !! other = approvedPaths st !! other /\
     deniedPaths cleared !! other = deniedPaths st !! other).
Proof.
  intros Hb Hr Hs. cbv zeta.
  destruct (validateOperation_asks newId sessionId operation targetPath reason
              (clearSession sessionId st)) as (rsn & Hres & Hpend & _).
  - exact Hb.
  - apply isDenied_no_set. simpl. apply lookup_delete_eq.
  - apply isApproved_no_set. simpl. apply lookup_delete_eq.
  - exact Hr.
  - exact Hs.
  - cbv zeta in Hres, Hpend. rewrite Hres. simpl.
    split; [reflexivity|]. split; [reflexivity|]. split; [|split].
    + eexists. split; [reflexivity|]. repeat split.
      rewrite Hpend. apply lookup_insert_eq.
    + intros i perm. simpl. rewrite map_lookup_filter_Some. simpl. reflexivity.
    + intros other Hne. simpl. split; apply lookup_delete_ne; congruence.
Qed.
(** *** Approval through the routes *)

Lemma getPendingPermissions_In sessionId st perm :
  In perm (getPendingPermissions sessionId st) <->
  (exists i, pendingPermissions st !! i = Some perm) /\
  (absent sessionId = true \/ Some (perm_sessionId perm) = sessionId).
Proof.
  unfold getPendingPermissions. rewrite filter_In, in_map_iff.
  rewrite orb_true_iff, bool_decide_eq_true.
  split.
  - intros [[[i q] [Hq Hin]] Hs]. simpl in Hq. subst q.
    split; [|exact Hs]. exists i.
    apply elem_of_map_to_list, list_elem_of_In, Hin.
  - intros [[i Hl] Hs]. split; [|exact Hs].
    exists (i, perm). split; [reflexivity|].
    apply list_elem_of_In, elem_of_map_to_list, Hl.
Qed.

Lemma absent_or_same (sessionId : option string) :
  absent sessionId = true \/ Some (default "default" sessionId) = sessionId.
Proof. destruct sessionId as [s|]; simpl; auto. Qed.

Lemma in_approved_isApproved st s a target :
  in_approved st s a ->
  startsWith (normalizePath target) a = true ->
  isApproved st s target = true.
Proof.
  unfold in_approved, isApproved. intros Hin Hpre.
  destruct (approvedPaths st !! s) as [S|]; simpl in Hin.
  - exact (existsb_elements_true _ S a Hin Hpre).
  - exfalso. revert Hin. apply not_elem_of_empty.
Qed.

(** X5: the approval round trip through the server's routes. A validate
    request for a sensitive path answers that permission is required and the
    permission is listed as pending for the session; confirming it answers
    approved with the path and takes it off the list; validating the same
    path again for the same session is then allowed without asking, and
    creates no new pending permission. *)
Theorem api_approval_round_trip
    (st : State) (newId newId' targetPath operation operation' : string)
    (sessionId : option string) :
  isBlocked st targetPath = false ->
  requireApproval (config st) = true ->
  isSensitive st targetPath = true ->
  JsString.truthy (default "default" sessionId) = true ->
  isDenied st (default "default" sessionId) targetPath = false ->
  isApproved st (default "default" sessionId) targetPath = false ->
  let asked := api_validate newId targetPath operation sessionId st in
  let confirmed := api_confirm_permission newId asked.2 in
  let again := api_validate newId' targetPath operation' sessionId confirmed.2 in
  allowed asked.1 = false /\ requiresPermission asked.1 = Some true /\
  (exists perm, permission asked.1 = Some perm /\ perm_id perm = newId /\
                In perm (api_pending_permissions sessionId asked.2).1) /\
  confirmed.1 = JObj [("approved", JBool true); ("path", JStr targetPath)] /\
  pendingPermissions confirmed.2 = delete newId (pendingPermissions st) /\
  allowed again.1 = true /\ requiresPermission again.1 = None /\
  pendingPermissions again.2 = pendingPermissions confirmed.2.
Proof.
  intros Hb Hr Hs Ht Hd Ha. cbv zeta. unfold api_validate.
  set (s := default "default" sessionId) in *.
  destruct (validateOperation_asks newId s operation targetPath None st Hb Hd Ha Hr Hs)
    as (rsn & Hres & Hpend & Happ & Hden & Hcfg).
  cbv zeta in Hres, Hpend.
  destruct (validateOperation newId s operation targetPath None st) as [res st1] eqn:Hv.
  simpl in Hres, Hpend, Happ, Hden, Hcfg. subst res. simpl.
  split; [reflexivity|]. split; [reflexivity|]. split.
  { eexists. split; [reflexivity|]. split; [reflexivity|].
    unfold api_pending_permissions. simpl. apply getPendingPermissions_In. split.
    - exists newId. rewrite Hpend. apply lookup_insert_eq.
    - simpl. apply absent_or_same. }
  unfold api_confirm_permission, approvePermission.
  rewrite Hpend, lookup_insert_eq. simpl.
  rewrite (or_else_truthy s "default" Ht).
  split; [reflexivity|].
  split; [apply delete_insert_eq|].
  set (st2 := logAudit _ _).
  unfold validateOperation.
  set (st3 := logAudit _ st2).
  assert (Hb3 : isBlocked st3 targetPath = false).
  { rewrite <- Hb. apply isBlocked_config. unfold st3, st2. simpl. exact Hcfg. }
  assert (Hd3 : isDenied st3 s targetPath = false).
  { rewrite <- Hd. unfold isDenied, st3, st2. simpl. rewrite Hden. reflexivity. }
  assert (Ha3 : isApproved st3 s targetPath = true).
  { apply (in_approved_isApproved st3 s (normalizePath targetPath));
      [|apply startsWith_refl].
    unfold in_approved, st3, st2. simpl. apply in_add_path. left. auto. }
  rewrite Hb3, Hd3, Ha3. simpl. repeat split; reflexivity.
Qed.

(** The sets of the session named by the empty string are never created:
    approvals and denials of a permission without a session name are filed
    under 'default'. *)
Lemma or_else_default_named s : or_else s "default" <> EmptyString.
Proof. unfold or_else. destruct s; simpl; discriminate. Qed.

Lemma approvedPaths_validateOperation newId s op target reason st :
  approvedPaths (validateOperation newId s op target reason st).2 = approvedPaths st.
Proof.
  unfold validateOperation.
  repeat match goal with
         | |- context [if ?b then _ else _] => destruct b
         end; reflexivity.
Qed.

Lemma unnamed_step st o :
  approvedPaths st !! EmptyString = None /\ deniedPaths st !! EmptyString = None ->
  approvedPaths (step st o) !! EmptyString = None /\
  deniedPaths (step st o) !! EmptyString = None.
Proof.
  intros [Ha Hd]. destruct o as [newId s op p r|i|i]; simpl.
  - rewrite approvedPaths_validateOperation, deniedPaths_validateOperation. auto.
  - unfold approvePermission. destruct (pendingPermissions st !! i) as [perm|]; simpl; auto.
    split; [|exact Hd]. unfold add_path.
    rewrite lookup_insert_ne by apply or_else_default_named. exact Ha.
  - unfold denyPermission. destruct (pendingPermissions st !! i) as [perm|]; simpl; auto.
    split; [exact Ha|]. unfold add_path.
    rewrite lookup_insert_ne by apply or_else_default_named. exact Hd.
Qed.

Lemma unnamed_run ops : forall st,
  approvedPaths st !! EmptyString = None /\ deniedPaths st !! EmptyString = None ->
  approvedPaths (run st ops) !! EmptyString = None /\
  deniedPaths (run st ops) !! EmptyString = None.
Proof.
  induction ops as [|o ops IH]; intros st Hst; [exact Hst|].
  change (run st (o :: ops)) with (run (step st o) ops).
  apply IH, unnamed_step, Hst.
Qed.

(** X6: for the session named by the empty string an approval never takes
    effect. A resolved permission of that session is filed under 'default',
    but validateOperation looks the session up under its own name; so
    whatever was approved or denied before, a sensitive path that is not
    blocked is answered with a new permission request every time. *)
Theorem unnamed_session_always_asked
    (ops : list Op) (newId operation targetPath : string) (reason : option string) :
  isBlocked initial targetPath = false ->
  isSensitive initial targetPath = true ->
  let res := validateOperation newId EmptyString operation targetPath reason
               (run initial ops) in
  allowed res.1 = false /\ requiresPermission res.1 = Some true /\
  (exists perm, permission res.1 = Some perm /\ perm_id perm = newId) /\
  approvedPaths (run initial ops) !! EmptyString = None /\
  deniedPaths (run initial ops) !! EmptyString = None.
Proof.
  intros Hb Hs. cbv zeta.
  destruct (unnamed_run ops initial) as [Ha Hd]; [split; reflexivity|].
  destruct (validateOperation_asks newId EmptyString operation targetPath reason
              (run initial ops)) as (rsn & Hres & _).
  - rewrite <- Hb. apply isBlocked_config, config_run.
  - apply isDenied_no_set, Hd.
  - apply isApproved_no_set, Ha.
  - rewrite config_run. reflexivity.
  - rewrite <- Hs. apply isSensitive_config, config_run.
  - cbv zeta in Hres. rewrite Hres. simpl.
    split; [reflexivity|]. split; [reflexivity|]. split; [|split; assumption].
    eexists. split; reflexivity.
Qed.

(** *** The configured lists *)

Lemma existsb_eqb_In (x : string) (l : list string) :
  existsb (String.eqb x) l = true -> In x l.
Proof.
  intros Hx. apply existsb_exists in Hx as [y [Hin Heq]].
  apply String.eqb_eq in Heq. subst y. exact Hin.
Qed.

Lemma isBlocked_listed st pattern p :
  In pattern (cfg_deniedPaths (config st)) ->
  includes (normalizePath p) (normalizePath pattern) = true ->
  isBlocked st p = true.
Proof.
  intros Hin Hinc. unfold isBlocked. apply existsb_exists.
  exists pattern. split; assumption.
Qed.

(** X7: after addDeniedPath(pattern), whether or not the configuration could
    be saved, every path whose normalized form contains the normalized
    pattern is blocked; the permission tables and the audit log are left as
    they were; and adding the same pattern again does nothing and writes
    nothing. *)
Theorem addDeniedPath_blocks
    (E : Env) (w : world E) (st : State) (pathPattern targetPath : string) :
  includes (normalizePath targetPath) (normalizePath pathPattern) = true ->
  let st' := (exec E (addDeniedPath pathPattern st) w).1.1.2 in
  isBlocked st' targetPath = true /\
  addDeniedPath pathPattern st' = Ret (None, st') /\
  pendingPermissions st' = pendingPermissions st /\
  approvedPaths st' = approvedPaths st /\
  deniedPaths st' = deniedPaths st /\
  auditLog st' = auditLog st.
Proof.
  intros Hinc. cbv zeta. unfold addDeniedPath.
  destruct (existsb (String.eqb pathPattern) (cfg_deniedPaths (config st))) eqn:Hex.
  - simpl. rewrite Hex. repeat split; try reflexivity.
    eapply isBlocked_listed; [apply existsb_eqb_In, Hex|exact Hinc].
  - simpl. destruct (respond E unit w _) as [w1 [v|e]]; simpl.
    all: rewrite existsb_app; simpl; rewrite String.eqb_refl, orb_true_r.
    all: repeat split; try reflexivity.
    all: eapply isBlocked_listed; [|exact Hinc]; simpl; apply in_or_app; right; left; reflexivity.
Qed.

Lemma validateOperation_same_lists newId s op p r st st' :
  cfg_deniedPaths (config st') = cfg_deniedPaths (config st) ->
  requireApproval (config st') = requireApproval (config st) ->
  sensitivePaths (config st') = sensitivePaths (config st) ->
  approvedPaths st' = approvedPaths st ->
  deniedPaths st' = deniedPaths st ->
  (validateOperation newId s op p r st').1 = (validateOperation newId s op p r st).1.
Proof.
  intros Hd Hr Hs Ha Hdn. unfold validateOperation.
  set (st1' := logAudit _ st'). set (st1 := logAudit _ st).
  assert (Hb : isBlocked st1' p = isBlocked st1 p).
  { unfold isBlocked, st1', st1. simpl. rewrite Hd. reflexivity. }
  assert (Hde : isDenied st1' s p = isDenied st1 s p).
  { unfold isDenied, st1', st1. simpl. rewrite Hdn. reflexivity. }
  assert (Hap : isApproved st1' s p = isApproved st1 s p).
  { unfold isApproved, st1', st1. simpl. rewrite Ha. reflexivity. }
  assert (Hse : isSensitive st1' p = isSensitive st1 p).
  { unfold isSensitive, st1', st1. simpl. rewrite Hs. reflexivity. }
  assert (Hre : requireApproval (config st1') = requireApproval (config st1)) by exact Hr.
  rewrite Hb, Hde, Hap, Hse, Hre.
  repeat match goal with
         | |- context [if ?b then _ else _] => destruct b
         end; reflexivity.
Qed.

(** X8: the allowed list is written but never read. After
    addAllowedPath(pattern), saved or not, validateOperation answers every
    request exactly as it did before: a path on the allowed list is still
    blocked, denied or asked about like any other. *)
Theorem allowed_list_not_consulted
    (E : Env) (w : world E) (st : State) (pathPattern : string)
    (newId sessionId operation targetPath : string) (reason : option string) :
  let st' := (exec E (addAllowedPath pathPattern st) w).1.1.2 in
  (In pathPattern (allowedPaths (config st'))) /\
  (validateOperation newId sessionId operation targetPath reason st').1 =
  (validateOperation newId sessionId operation targetPath reason st).1.
Proof.
  cbv zeta. unfold addAllowedPath.
  destruct (existsb (String.eqb pathPattern) (allowedPaths (config st))) eqn:Hex.
  - simpl. split; [apply existsb_eqb_In, Hex|reflexivity].
  - simpl. destruct (respond E unit w _) as [w1 [v|e]]; simpl.
    all: split; [apply in_or_app; right; left; reflexivity|].
    all: apply validateOperation_same_lists; reflexivity.
Qed.
End WithPlatform.
End SandboxAdminFacts.

Module SandboxAdminExamples.
Import Js Runtime JsString Sandbox SandboxAdmin SandboxAdminFacts Posix SandboxData
  SandboxAdminData ToolsData.

Lemma blocked_path_never_allowed_witness :
  isBlocked initial "/etc/passwd" = true /\
  allowed (validateOperation "perm_9" "s1" "read" "/etc/passwd" None
             (run initial one_request_at_a_time)).1 = false.
Proof.
  assert (Hb : isBlocked initial "/etc/passwd" = true) by (vm_compute; reflexivity).
  split; [exact Hb|].
  exact (proj1 (blocked_path_never_allowed initial one_request_at_a_time
                  "perm_9" "s1" "read" "/etc/passwd" None Hb)).
Defined.

Lemma getAuditLog_window_witness :
  (0 < 2)%Z /\
  length (auditLog two_validations) = 4 /\
  length (getAuditLog (Some 2%Z) two_validations) = 2 /\
  length (getAuditLog (Some 0%Z) two_validations) = 4.
Proof.
  assert (Hl : (0 < 2)%Z) by lia.
  split; [exact Hl|]. split; [vm_compute; reflexivity|].
  destruct (getAuditLog_window two_validations 2) as (Hpos & _ & Hzero).
  destruct (Hpos Hl) as [_ Hlen].
  split; [rewrite Hlen; vm_compute; reflexivity|].
  rewrite (proj2 (proj2 (getAuditLog_window two_validations 0))). vm_compute; reflexivity.
Defined.

Lemma clearSession_asks_again_witness :
  isBlocked denied_documents "/home/u/Documents/x.txt" = false /\
  requireApproval (config denied_documents) = true /\
  isSensitive denied_documents "/home/u/Documents/x.txt" = true /\
  isDenied denied_documents "s1" "/home/u/Documents/x.txt" = true /\
  requiresPermission
    (validateOperation "perm_5" "s1" "write" "/home/u/Documents/x.txt" None
       (clearSession "s1" denied_documents)).1 = Some true.
Proof.
  assert (Hb : isBlocked denied_documents "/home/u/Documents/x.txt" = false)
    by (vm_compute; reflexivity).
  assert (Hr : requireApproval (config denied_documents) = true)
    by (vm_compute; reflexivity).
  assert (Hs : isSensitive denied_documents "/home/u/Documents/x.txt" = true)
    by (vm_compute; reflexivity).
  split; [exact Hb|]. split; [exact Hr|]. split; [exact Hs|].
  split; [vm_compute; reflexivity|].
  exact (proj1 (proj2 (clearSession_asks_again denied_documents "s1" "perm_5" "write"
                         "/home/u/Documents/x.txt" None Hb Hr Hs))).
Defined.

Lemma api_approval_round_trip_witness :
  isBlocked initial "/home/u/Documents/x.txt" = false /\
  requireApproval (config initial) = true /\
  isSensitive initial "/home/u/Documents/x.txt" = true /\
  JsString.truthy (default "default" (None : option string)) = true /\
  isDenied initial "default" "/home/u/Documents/x.txt" = false /\
  isApproved initial "default" "/home/u/Documents/x.txt" = false /\
  allowed
    (api_validate "perm_2" "/home/u/Documents/x.txt" "write" None
       (api_confirm_permission "perm_1"
          (api_validate "perm_1" "/home/u/Documents/x.txt" "read" None initial).2).2).1
  = true.
Proof.
  assert (Hb : isBlocked initial "/home/u/Documents/x.txt" = false)
    by (vm_compute; reflexivity).
  assert (Hr : requireApproval (config initial) = true) by reflexivity.
  assert (Hs : isSensitive initial "/home/u/Documents/x.txt" = true)
    by (vm_compute; reflexivity).
  assert (Ht : JsString.truthy (default "default" (None : option string)) = true)
    by reflexivity.
  assert (Hd : isDenied initial (default "default" None) "/home/u/Documents/x.txt" = false)
    by reflexivity.
  assert (Ha : isApproved initial (default "default" None) "/home/u/Documents/x.txt" = false)
    by reflexivity.
  repeat (split; [assumption|]).
  pose proof (api_approval_round_trip initial "perm_1" "perm_2" "/home/u/Documents/x.txt"
                "read" "write" None Hb Hr Hs Ht Hd Ha) as Hround.
  cbv zeta in Hround.
  exact (proj1 (proj2 (proj2 (proj2 (proj2 (proj2 Hround)))))).
Defined.

Lemma unnamed_session_always_asked_witness :
  isBlocked initial "/home/u/Documents/x.txt" = false /\
  isSensitive initial "/home/u/Documents/x.txt" = true /\
  requiresPermission
    (validateOperation "perm_2" EmptyString "read" "/home/u/Documents/x.txt" None
       (run initial [ OpValidate "perm_1" EmptyString "read" "/home/u/Documents/x.txt" None;
                      OpApprove "perm_1" ])).1 = Some true.
Proof.
  assert (Hb : isBlocked initial "/home/u/Documents/x.txt" = false)
    by (vm_compute; reflexivity).
  assert (Hs : isSensitive initial "/home/u/Documents/x.txt" = true)
    by (vm_compute; reflexivity).
  split; [exact Hb|]. split; [exact Hs|].
  exact (proj1 (proj2 (unnamed_session_always_asked
                         [ OpValidate "perm_1" EmptyString "read" "/home/u/Documents/x.txt" None;
                           OpApprove "perm_1" ]
                         "perm_2" "read" "/home/u/Documents/x.txt" None Hb Hs))).
Defined.

Lemma addDeniedPath_blocks_witness :
  includes (normalizePath "/srv/Secrets/key.pem") (normalizePath "secrets") = true /\
  isBlocked initial "/srv/Secrets/key.pem" = false /\
  isBlocked (exec calm (addDeniedPath "secrets" initial) tt).1.1.2 "/srv/Secrets/key.pem"
  = true.
Proof.
  assert (Hi : includes (normalizePath "/srv/Secrets/key.pem") (normalizePath "secrets") = true)
    by (vm_compute; reflexivity).
  split; [exact Hi|]. split; [vm_compute; reflexivity|].
  exact (proj1 (addDeniedPath_blocks calm tt initial "secrets" "/srv/Secrets/key.pem" Hi)).
Defined.

End SandboxAdminExamples.

(** ** The tool executor: single tools, permissions and stores *)

Module ToolsApiFacts.
Import Js Runtime RuntimeFacts JsString JsStringFacts Tools ToolsFacts ToolsApi.

Section Handlers.
Context `{NodePlatform} `{Builtins}.

(** X9: a Bash command that contains one of the four dangerous patterns, in
    any letter case, is answered with the blocked error without a single
    call to the runtime: no shell is started and the state is unchanged. *)
Theorem dangerous_command_not_run
    (st : ToolState) (fields : list (string * jsval)) (command : string) :
  assoc "command" fields = JStr command ->
  existsb (fun d => includes (toLowerCase command) d) dangerous = true ->
  executeTool "Bash" (JObj fields) st =
    Ret (obj [ ("error", JStr "Blocked: dangerous command pattern detected") ], st).
Proof.
  intros Hc Hd. unfold executeTool, handler. simpl.
  cbv delta [executeBash bind object_of]. simpl.
  rewrite Hc. simpl. simpl in Hd. rewrite Hd. reflexivity.
Qed.
(** *** Two-phase deletion, step by step *)

Lemma of_session_same s : of_session (Some s) s = true.
Proof. unfold of_session. rewrite String.eqb_refl. apply orb_true_r. Qed.

(** X10: ConfirmDelete of a pending deletion issues exactly one call, fs.rm
    for a directory and fs.unlink for a file, on the recorded path. When the
    call succeeds the entry is removed and a second ConfirmDelete of the same
    id finds nothing and calls nothing; when it fails the error is reported
    and the entry stays pending, so the deletion can be confirmed again. *)
Theorem confirm_delete_outcome
    (E : Env) (w : world E) (st : ToolState) (fields : list (string * jsval))
    (k : string) (pending : PendingDeletion) :
  assoc "deletion_id" fields = JStr k ->
  pendingDeletions st !! k = Some pending ->
  let run := exec E (executeTool "ConfirmDelete" (JObj fields) st) w in
  run.2 = [EvCall (deletion_call pending)] /\
  match (respond E unit w (deletion_call pending)).2 with
  | Resolved _ =>
      run.1.1.1 = obj [ ("success", JBool true); ("path", del_path pending);
                        ("message", JStr ("Successfully deleted " +:+
                                          toString (del_path pending))) ] /\
      run.1.1.2 = set_pendingDeletions (delete k (pendingDeletions st)) st /\
      executeTool "ConfirmDelete" (JObj fields) run.1.1.2 =
        Ret (obj [ ("error", JStr ("No pending deletion found with id: " +:+ k +:+
                                   ". It may have expired or already been processed.")) ],
             run.1.1.2)
  | Rejected error =>
      run.1.1.1 = obj [ ("error", JStr ("Failed to delete: " +:+ message error)) ] /\
      run.1.1.2 = st
  end.
Proof.
  intros Hid Hp. cbv zeta. unfold executeTool, handler. simpl.
  cbv delta [executeConfirmDelete bind object_of get put ret try_catch await key_of]. simpl.
  rewrite Hid. simpl. rewrite Hp. simpl.
  unfold deletion_call.
  destruct (del_isDirectory pending); simpl.
  - destruct (respond E unit w (FsRm (del_path pending) (del_recursive pending)))
      as [w1 [v|e]]; simpl.
    + split; [reflexivity|]. split; [reflexivity|]. split; [reflexivity|].
      rewrite lookup_delete_eq. reflexivity.
    + split; [reflexivity|]. split; reflexivity.
  - destruct (respond E unit w (FsUnlink (del_path pending))) as [w1 [v|e]]; simpl.
    + split; [reflexivity|]. split; [reflexivity|]. split; [reflexivity|].
      rewrite lookup_delete_eq. reflexivity.
    + split; [reflexivity|]. split; reflexivity.
Qed.

(** X11: CancelDelete of a pending deletion removes the entry without any
    call to the runtime; after it, ConfirmDelete and CancelDelete of the same
    id find nothing, delete nothing and leave the state alone. *)
Theorem cancelled_deletion_stays_cancelled
    (st : ToolState) (fields : list (string * jsval)) (k : string)
    (pending : PendingDeletion) :
  assoc "deletion_id" fields = JStr k ->
  pendingDeletions st !! k = Some pending ->
  let st' := set_pendingDeletions (delete k (pendingDeletions st)) st in
  executeTool "CancelDelete" (JObj fields) st =
    Ret (obj [ ("success", JBool true); ("cancelled", JBool true);
               ("path", del_path pending);
               ("message", JStr ("Deletion of " +:+ toString (del_path pending) +:+
                                 " has been cancelled.")) ], st') /\
  executeTool "ConfirmDelete" (JObj fields) st' =
    Ret (obj [ ("error", JStr ("No pending deletion found with id: " +:+ k +:+
                               ". It may have expired or already been processed.")) ], st') /\
  executeTool "CancelDelete" (JObj fields) st' =
    Ret (obj [ ("error", JStr ("No pending deletion found with id: " +:+ k)) ], st').
Proof.
  intros Hid Hp. cbv zeta. unfold executeTool, handler. simpl.
  cbv delta [executeConfirmDelete executeCancelDelete bind object_of get put ret
             try_catch await key_of]. simpl.
  rewrite Hid. simpl. rewrite Hp, lookup_delete_eq. simpl.
  repeat split; reflexivity.
Qed.

(** X12: Delete itself deletes nothing. On a path that fs.stat cannot find
    it reports the path as not found and records nothing; on a file it
    records exactly one pending deletion, for that path and the current
    session, under the id it returns; the only call it makes is fs.stat, and
    getPendingDeletions lists the new entry for the session. *)
Theorem delete_only_registers
    (E : Env) (w : world E) (st : ToolState) (fields : list (string * jsval)) :
  let p := assoc "path" fields in
  let run := exec E (executeTool "Delete" (JObj fields) st) w in
  match (respond E Stats w (FsStat p)).2 with
  | Rejected _ =>
      run.2 = [EvCall (FsStat p)] /\
      run.1.1.1 = obj [ ("error", JStr ("Path not found: " +:+ toString p)) ] /\
      run.1.1.2 = st
  | Resolved stat =>
      isDirectory stat = false ->
      run.2 = [EvCall (FsStat p)] /\
      exists id pending,
        field run.1.1.1 "deletion_id" = JStr id /\
        field run.1.1.1 "requires_approval" = JBool true /\
        run.1.1.2 = set_pendingDeletions (<[id := pending]> (pendingDeletions st)) st /\
        del_path pending = p /\ del_session pending = currentSessionId st /\
        del_isDirectory pending = false /\ del_fileCount pending = 1%Z /\
        In (id, pending) (getPendingDeletions (Some (currentSessionId st)) run.1.1.2)
  end.
Proof.
  cbv zeta. unfold executeTool, handler. simpl.
  cbv delta [executeDelete bind object_of get put ret try_catch await ask]. simpl.
  destruct (respond E Stats w (FsStat (assoc "path" fields))) as [w1 [stat|e]]; simpl.
  - intros Hfile. rewrite Hfile. simpl.
    destruct (answer E Z w1 DateNow) as [w2 now].
    destruct (answer E string w2 RandomSuffix) as [w3 rnd].
    destruct (answer E string w3 IsoTimestamp) as [w4 iso]. simpl.
    split; [reflexivity|].
    eexists _, _. split; [reflexivity|]. split; [reflexivity|].
    split; [reflexivity|]. simpl. repeat (split; [reflexivity|]).
    unfold getPendingDeletions. apply filter_In. split.
    + apply list_elem_of_In, elem_of_map_to_list. simpl. apply lookup_insert_eq.
    + simpl. apply of_session_same.
  - repeat split; reflexivity.
Qed.

(** *** The todo list *)

(** X13: the todo list is kept per session. After TodoWrite of an array,
    TodoRead in the same session returns that array and its length; a
    session that never wrote reads an empty list with count 0. *)
Theorem todo_round_trip
    (st : ToolState) (fields : list (string * jsval)) (todos : list jsval)
    (input : jsval) :
  assoc "todos" fields = JArr todos ->
  existsb nullish todos = false ->
  let st' := set_todoStorage (<[currentSessionId st := JArr todos]> (todoStorage st)) st in
  (exists summary,
     executeTool "TodoWrite" (JObj fields) st =
       Ret (obj [ ("success", JBool true); ("summary", summary);
                  ("todos", JArr todos) ], st') /\
     field summary "total" = JNum (Z.of_nat (length todos))) /\
  executeTool "TodoRead" input st' =
    Ret (obj [ ("todos", JArr todos);
               ("count", JNum (Z.of_nat (length todos))) ], st') /\
  (forall other : string,
     todoStorage st' !! other = None ->
     executeTool "TodoRead" input (setSessionId other st') =
       Ret (obj [ ("todos", JArr []); ("count", JNum 0) ], setSessionId other st')).
Proof.
  intros Ht Hn. cbv zeta. unfold executeTool, handler. simpl.
  cbv delta [executeTodoWrite executeTodoRead bind object_of get put ret throw js_length].
  simpl. rewrite Ht. simpl. rewrite Hn. simpl. split; [|split].
  - eexists. split; reflexivity.
  - rewrite lookup_insert_eq. reflexivity.
  - intros other Hother. simpl in Hother. rewrite Hother. reflexivity.
Qed.

(** *** Browser tools without the extension *)

(** X14: when no browser extension is registered, or the registered one is
    not connected, each of the ten browser tools answers with the
    not-connected error: nothing is sent to the bridge, the input is not even
    read, and the state is unchanged. *)
Theorem browser_tools_need_extension
    (E : Env) (w : world E) (st : ToolState) (name : string) (input : jsval) :
  In name browser_tools ->
  browserExtension st = false \/ (answer E bool w IsConnected).2 = false ->
  (exec E (executeTool name input st) w).1.1 = (not_connected, st) /\
  (exec E (executeTool name input st) w).2 = [].
Proof.
  intros Hin Hoff. simpl in Hin.
  repeat (destruct Hin as [Hin|Hin];
          [subst name; unfold executeTool, handler; simpl;
           cbv delta [executeBrowserNavigate executeBrowserClick executeBrowserType
                      executeBrowserRead executeBrowserScreenshot executeBrowserScroll
                      executeBrowserGetTabs executeBrowserSwitchTab executeBrowserFillForm
                      executeBrowserGetElements browser_tool checkBrowserExtension
                      bind get ret ask]; simpl;
           destruct (browserExtension st) eqn:Hext; simpl;
           [destruct Hoff as [Hoff|Hoff]; [discriminate|];
            destruct (answer E bool w IsConnected) as [w1 c]; simpl in *; subst c;
            split; reflexivity
           |split; reflexivity]|]).
  destruct Hin.
Qed.

(** *** The nircmd probe *)

(** X15: checkNircmd probes for nircmd at most once. The first call runs
    [nircmd --help] when nothing is remembered yet and remembers whether it
    succeeded; every later call returns the remembered answer without
    calling the runtime, whatever the runtime would answer then. *)
Theorem nircmd_probed_once
    (E : Env) (w w' : world E) (st : ToolState) :
  let first := exec E (checkNircmd st) w in
  (exists b, first.1.1.1 = Ok b /\
             nircmdAvailable first.1.1.2 = Some b /\
             exec E (checkNircmd first.1.1.2) w' = (Ok b, first.1.1.2, w', [])) /\
  (nircmdAvailable st = None ->
   first.2 = [EvCall (ExecAsync "nircmd --help" (with_timeout 2000))]) /\
  (forall b, nircmdAvailable st = Some b -> first = (Ok b, st, w, [])).
Proof.
  cbv zeta. unfold checkNircmd, bind, get, put, ret, try_catch, await. simpl.
  destruct (nircmdAvailable st) as [b|] eqn:Hn; simpl.
  - split; [|split].
    + exists b. rewrite Hn. simpl. repeat split; reflexivity.
    + discriminate.
    + intros b' Hb. inversion Hb; subst. reflexivity.
  - destruct (respond E (string * string) w _) as [w1 [v|e]]; simpl.
    + split; [|split].
      * exists true. repeat split; reflexivity.
      * reflexivity.
      * discriminate.
    + split; [|split].
      * exists false. repeat split; reflexivity.
      * reflexivity.
      * discriminate.
Qed.
(** *** Permissions, once granted *)

Lemma needsPermission_string st p :
  needsPermission (JStr p) st = Ret (Ok (asks_for st p), st).
Proof.
  unfold needsPermission, asks_for, path_approved, isSensitivePath, isPathApproved,
    bind, get, ret. simpl.
  destruct (sensitive_path p); simpl; [|reflexivity].
  destruct (approvedPaths st !! currentSessionId st) as [approved|]; reflexivity.
Qed.

Lemma approved_prefix_of (approved : gset string) (a p : string) :
  a ∈ approved ->
  startsWith (toLowerCase (path_normalize p)) (toLowerCase a) = true ->
  approved_prefix approved p = true.
Proof.
  intros Hin Hpre. unfold approved_prefix. apply existsb_exists.
  exists a. split; [|exact Hpre]. apply list_elem_of_In, elem_of_elements, Hin.
Qed.

Lemma exec_Do_trace (E : Env) {A R} (c : Call R) (k : Result R -> Prog A) (w : world E) :
  exists tr, (exec E (Do c k) w).2 = EvCall c :: tr.
Proof.
  simpl. destruct (respond E R w c) as [w1 r].
  destruct (exec E (k r) w1) as [[a w2] tr]. exists tr. reflexivity.
Qed.

Lemma gated_tool_proceeds st name fld operation reason fields p :
  In (name, fld, operation, reason) gated_tools ->
  assoc fld fields = JStr p ->
  asks_for st p = false ->
  exists R (c : Call R) k,
    first_access name p = Some (EvCall c) /\
    executeTool name (JObj fields) st = Do c k.
Proof.
  intros Hin Hfld Hask.
  pose proof (needsPermission_string st p) as Hneeds. rewrite Hask in Hneeds.
  simpl in Hin.
  repeat (destruct Hin as [Hin|Hin];
          [inversion Hin; subst;
           unfold executeTool, handler, first_access; simpl;
           cbv delta [executeRead executeWrite executeEdit executeListDir
                      executeMakeDir bind object_of await path_arg ret]; simpl;
           rewrite Hfld, Hneeds; simpl;
           eexists _, _, _; split; reflexivity|]).
  destruct Hin.
Qed.

(** X16: a confirmed permission opens the path for its session only. After
    confirmPermission, the path of the permission, and every path whose
    normalized lower-case form starts with it, counts as approved for the
    session that asked: a gated tool (Read, Write, Edit, ListDir, MakeDir)
    called on it goes straight to the file system. In another session, which
    has no approvals of its own, the same call on a sensitive path is
    answered with a new permission request and touches nothing. *)
Theorem confirmed_path_is_open
    (E : Env) (w : world E) (st : ToolState) (permissionId : string)
    (perm : PendingPermission) (p target : string)
    (name fld operation reason : string) (fields : list (string * jsval)) :
  pendingPermissions st !! permissionId = Some perm ->
  pp_path perm = JStr p ->
  pp_sessionId perm = currentSessionId st ->
  In (name, fld, operation, reason) gated_tools ->
  assoc fld fields = JStr target ->
  startsWith (toLowerCase (path_normalize target)) (toLowerCase (path_normalize p)) = true ->
  let confirmed := (confirmPermission (JStr permissionId) st).2 in
  path_approved confirmed (currentSessionId st) target = true /\
  (exists e tr, first_access name target = Some e /\
                (exec E (executeTool name (JObj fields) confirmed) w).2 = e :: tr) /\
  (forall other,
     approvedPaths st !! other = None ->
     other <> currentSessionId st ->
     sensitive_path target = true ->
     (exec E (executeTool name (JObj fields) (setSessionId other confirmed)) w).1.1.1 =
       permission_request (next_permission_id E w) (JStr target) operation reason /\
     (exec E (executeTool name (JObj fields) (setSessionId other confirmed)) w).2 = []).
Proof.
  intros Hp Hpath Hsid Hin Hfld Hpre. cbv zeta.
  unfold confirmPermission. simpl. rewrite Hp, Hpath, Hsid. simpl.
  set (confirmed := set_pendingPermissions _ _).
  assert (Happ : path_approved confirmed (currentSessionId st) target = true).
  { unfold path_approved, confirmed. simpl. rewrite lookup_insert_eq.
    apply (approved_prefix_of _ (path_normalize p)); [|exact Hpre]. apply elem_of_union. left. apply elem_of_singleton. reflexivity. }
  split; [exact Happ|]. split.
  - destruct (gated_tool_proceeds confirmed name fld operation reason fields target Hin Hfld)
      as (R & c & k & Hfirst & Hprog).
    { unfold asks_for. change (currentSessionId confirmed) with (currentSessionId st).
      rewrite Happ. apply andb_false_r. }
    rewrite Hprog. destruct (exec_Do_trace E c k w) as [tr Htr].
    exists (EvCall c), tr. split; assumption.
  - intros other Hnone Hne Hs.
    destruct (gated_tool_asks E (setSessionId other confirmed) w name fld operation reason
                fields target Hin Hfld Hs) as [Hres Htr].
    { unfold path_approved, confirmed. simpl.
      rewrite lookup_insert_ne by congruence. rewrite Hnone. reflexivity. }
    rewrite Hres. split; [reflexivity|exact Htr].
Qed.

(** X17: Move and Copy check both ends before they touch anything. When the
    source or the destination is a sensitive path that is not approved for
    the session, the tool makes no call to the runtime; it records a pending
    permission and answers with the request, for the source if the source
    needs one and for the destination otherwise. *)
Theorem two_path_tools_ask_first
    (E : Env) (w : world E) (st : ToolState) (name : string)
    (from to : string * string) (fields : list (string * jsval)) (src dst : string) :
  In (name, from, to) two_path_tools ->
  assoc "source" fields = JStr src ->
  assoc "destination" fields = JStr dst ->
  asks_for st src || asks_for st dst = true ->
  let run := exec E (executeTool name (JObj fields) st) w in
  run.2 = [] /\
  run.1.1.1 =
    (if asks_for st src
     then permission_request (next_permission_id E w) (JStr src) from.1 from.2
     else permission_request (next_permission_id E w) (JStr dst) to.1 to.2) /\
  (exists perm,
     pendingPermissions run.1.1.2 = <[next_permission_id E w := perm]> (pendingPermissions st) /\
     pp_path perm = (if asks_for st src then JStr src else JStr dst) /\
     pp_sessionId perm = currentSessionId st).
Proof.
  intros Hin Hsrc Hdst Hask. cbv zeta.
  pose proof (needsPermission_string st src) as Hns.
  pose proof (needsPermission_string st dst) as Hnd.
  simpl in Hin.
  destruct Hin as [Hin|[Hin|[]]]; inversion Hin; subst; clear Hin;
    unfold executeTool, handler; simpl;
    cbv delta [executeMove executeCopy bind object_of]; simpl;
    rewrite Hsrc, Hdst, Hns; simpl;
    (destruct (asks_for st src) eqn:Hs; simpl;
     [|rewrite Hnd; simpl in Hask; rewrite Hask; simpl]);
    unfold next_permission_id;
    destruct (answer E Z w DateNow) as [w1 now];
    destruct (answer E string w1 RandomSuffix) as [w2 rnd];
    destruct (answer E string w2 IsoTimestamp) as [w3 iso];
    simpl; (split; [reflexivity|]); (split; [reflexivity|]);
    eexists; repeat split; reflexivity.
Qed.
End Handlers.

(** *** What each tool can touch

    The handlers are followed once for an arbitrary invariant [Inv] of the
    state and an arbitrary predicate [P] on calls: a handler keeps [Inv] when
    the stores it writes keep it, and its calls satisfy [P] when [P] admits
    the kinds of call it makes. *)

Create HintDb frame_db.

Ltac frame_step :=
  lazymatch goal with
  | |- safe _ _ (bind get _) => apply safe_bind_get; intros ? ?
  | |- safe _ _ (bind (object_of _) _) => apply safe_bind_object_of
  | |- safe _ _ (bind _ _) => apply safe_bind; [| intros ?]
  | |- safe _ _ (try_catch _ _) => apply safe_try_catch; [| intros ?]
  | |- safe _ _ (ret _) => apply safe_ret
  | |- safe _ _ (throw _) => apply safe_throw
  | |- safe _ _ (ask _) => apply safe_ask
  | |- safe _ _ (await _) => apply safe_await
  | |- safe _ _ (put _) => apply safe_put
  | |- safe _ _ (if ?b then _ else _) => destruct b
  | |- safe _ _ (match ?x with _ => _ end) => destruct x
  | |- safe _ _ _ => solve [auto with frame_db nocore]
  end.

Section Frame.
Context `{NodePlatform} `{Builtins}.
Variable Inv : ToolState -> Prop.
Variable P : Event -> Prop.

(** Calls that only look are admitted. *)
Hypothesis P_look : forall e, mutating e = false -> P e.

Hypothesis Inv_permissions : forall m st, Inv st -> Inv (set_pendingPermissions m st).
Hypothesis Inv_deletions : forall m st, Inv st -> Inv (set_pendingDeletions m st).
Hypothesis Inv_todos : forall m st, Inv st -> Inv (set_todoStorage m st).
Hypothesis Inv_progress : forall m st, Inv st -> Inv (set_progressTracker m st).
Hypothesis Inv_approved : forall m st, Inv st -> Inv (set_approvedPaths m st).
Hypothesis Inv_nircmd : forall b st, Inv st -> Inv (set_nircmdAvailable b st).

Ltac look :=
  first [ apply P_look; reflexivity
        | apply Inv_permissions; assumption
        | apply Inv_deletions; assumption
        | apply Inv_todos; assumption
        | apply Inv_progress; assumption
        | apply Inv_nircmd; assumption
        | assumption ].

Ltac frame_auto := repeat (frame_step; try look).

Lemma frame_object_of input : safe Inv P (object_of input).
Proof. unfold object_of. frame_auto. Qed.

Lemma frame_path_arg v : safe Inv P (path_arg v).
Proof. unfold path_arg. frame_auto. Qed.

Lemma frame_string_arg v : safe Inv P (string_arg v).
Proof. unfold string_arg. frame_auto. Qed.

Lemma frame_js_length v : safe Inv P (js_length v).
Proof. unfold js_length. frame_auto. Qed.

#[local] Hint Resolve frame_object_of frame_path_arg frame_string_arg frame_js_length
  safe_ret safe_throw safe_ask : frame_db.

Lemma frame_needsPermission p : safe Inv P (needsPermission p).
Proof. unfold needsPermission, isSensitivePath, isPathApproved. frame_auto. Qed.

Lemma frame_requestPathPermission p op r : safe Inv P (requestPathPermission p op r).
Proof. unfold requestPathPermission. frame_auto. Qed.

#[local] Hint Resolve frame_needsPermission frame_requestPathPermission : frame_db.

Lemma frame_executeRead input : safe Inv P (executeRead input).
Proof. unfold executeRead. frame_auto. Qed.

Lemma frame_executeGlob input : safe Inv P (executeGlob input).
Proof. unfold executeGlob. frame_auto. Qed.

Lemma frame_grep_files pattern files : forall results lastIndex,
  safe Inv P (grep_files pattern files results lastIndex).
Proof.
  induction files as [|file rest IH]; intros results lastIndex; simpl.
  - apply safe_ret.
  - apply safe_bind.
    + apply safe_try_catch; [|intros e; apply safe_ret].
      apply safe_bind; [apply safe_await; apply P_look; reflexivity|].
      intros content. destruct (grep_file pattern file content lastIndex).
      apply safe_ret.
    + intros [[results' lastIndex'] stop]. destruct stop; [apply safe_ret|apply IH].
Qed.

#[local] Hint Resolve frame_grep_files : frame_db.

Lemma frame_executeGrep input : safe Inv P (executeGrep input).
Proof. unfold executeGrep. frame_auto. Qed.

Lemma frame_list_items d entries : safe Inv P (list_items d entries).
Proof. induction entries as [|e rest IH]; simpl; [apply safe_ret|]. frame_auto. Qed.

#[local] Hint Resolve frame_list_items : frame_db.

Lemma frame_executeListDir input : safe Inv P (executeListDir input).
Proof. unfold executeListDir. frame_auto. Qed.

Lemma frame_executeDelete input : safe Inv P (executeDelete input).
Proof. unfold executeDelete. frame_auto. Qed.

Lemma frame_executeCancelDelete input : safe Inv P (executeCancelDelete input).
Proof.
  unfold executeCancelDelete.
  apply safe_bind_object_of. apply safe_bind_get. intros st0 Hst0.
  destruct (key_of (field input "deletion_id") ≫= _); frame_auto.
Qed.

Lemma frame_confirmPermission v : safe Inv P (lift (confirmPermission v)).
Proof.
  apply safe_lift. intros st Hst. unfold confirmPermission.
  destruct (key_of v ≫= _) as [perm|]; [|exact Hst].
  destruct (pp_path perm); simpl; auto.
Qed.

Lemma frame_denyPermission v : safe Inv P (lift (denyPermission v)).
Proof.
  apply safe_lift. intros st Hst. unfold denyPermission.
  destruct (key_of v ≫= _) as [perm|]; simpl; auto.
Qed.

Lemma frame_executeProgress input : safe Inv P (executeProgress input).
Proof. unfold executeProgress. frame_auto. Qed.

Lemma frame_executeWebSearch input : safe Inv P (executeWebSearch input).
Proof. unfold executeWebSearch. frame_auto. Qed.

Lemma frame_executeWebFetch input : safe Inv P (executeWebFetch input).
Proof. unfold executeWebFetch. frame_auto. Qed.

Lemma frame_executeTodoWrite input : safe Inv P (executeTodoWrite input).
Proof. unfold executeTodoWrite. frame_auto. Qed.

Lemma frame_executeTodoRead : safe Inv P executeTodoRead.
Proof. unfold executeTodoRead. frame_auto. Qed.

Lemma frame_executeCodeAnalysis input : safe Inv P (executeCodeAnalysis input).
Proof. unfold executeCodeAnalysis. frame_auto. Qed.

Lemma frame_executeWait input : safe Inv P (executeWait input).
Proof. unfold executeWait. frame_auto. Qed.

Lemma frame_checkBrowserExtension : safe Inv P checkBrowserExtension.
Proof. unfold checkBrowserExtension. frame_auto. Qed.

(** The handlers that change things outside the executor: every call is
    admitted. *)
Section Acting.
Hypothesis P_any : forall e, P e.

Ltac act := first [ apply P_any | look ].
Ltac act_auto := repeat (frame_step; try act).

Lemma frame_executeWrite input : safe Inv P (executeWrite input).
Proof. unfold executeWrite. act_auto. Qed.

Lemma frame_executeEdit input : safe Inv P (executeEdit input).
Proof. unfold executeEdit. act_auto. Qed.

Lemma frame_executeMakeDir input : safe Inv P (executeMakeDir input).
Proof. unfold executeMakeDir. act_auto. Qed.

Lemma frame_executeMove input : safe Inv P (executeMove input).
Proof. unfold executeMove. act_auto. Qed.

Lemma frame_executeCopy input : safe Inv P (executeCopy input).
Proof. unfold executeCopy. act_auto. Qed.

Lemma frame_executeConfirmDelete input : safe Inv P (executeConfirmDelete input).
Proof.
  unfold executeConfirmDelete.
  apply safe_bind_object_of. apply safe_bind_get. intros st0 Hst0.
  destruct (key_of (field input "deletion_id") ≫= _); act_auto.
Qed.

Lemma frame_executeBash input : safe Inv P (executeBash input).
Proof. unfold executeBash. act_auto. Qed.

Lemma frame_checkNircmd : safe Inv P checkNircmd.
Proof. unfold checkNircmd. act_auto. Qed.

Lemma frame_run_script name args timeout : safe Inv P (run_script name args timeout).
Proof. unfold run_script. act_auto. Qed.

Lemma frame_type_chars text : safe Inv P (type_chars text).
Proof. induction text as [|c rest IH]; simpl; act_auto. Qed.

#[local] Hint Resolve frame_checkNircmd frame_run_script frame_type_chars : frame_db.

Lemma frame_executeScreenshot input : safe Inv P (executeScreenshot input).
Proof. unfold executeScreenshot. act_auto. Qed.

Lemma frame_executeMouseClick input : safe Inv P (executeMouseClick input).
Proof. unfold executeMouseClick. act_auto. Qed.

Lemma frame_executeTypeText input : safe Inv P (executeTypeText input).
Proof. unfold executeTypeText. act_auto. Qed.

Lemma frame_executeKeyPress input : safe Inv P (executeKeyPress input).
Proof. unfold executeKeyPress. act_auto. Qed.

Lemma frame_executeOpenBrowser input : safe Inv P (executeOpenBrowser input).
Proof. unfold executeOpenBrowser. act_auto. Qed.

Lemma frame_executeScroll input : safe Inv P (executeScroll input).
Proof. unfold executeScroll. act_auto. Qed.

Lemma frame_browser_tool action params :
  safe Inv P params -> safe Inv P (browser_tool action params).
Proof.
  intros Hp. unfold browser_tool.
  apply safe_bind; [apply frame_checkBrowserExtension|].
  intros [e|]; [apply safe_ret|].
  apply safe_bind; [exact Hp|]. intros p. apply safe_await, P_any.
Qed.

End Acting.
End Frame.
Section Dispatch.
Context `{NodePlatform} `{Builtins}.

Ltac name_is E := apply String.eqb_eq in E; subst.

Ltac split_names name :=
  unfold handler;
  repeat match goal with
         | |- safe _ _ (if String.eqb name ?s then _ else _) =>
             let E := fresh "E" in
             destruct (String.eqb name s) eqn:E; [name_is E|]
         end.

(** Choose the lemma of the handler in the goal. *)
Ltac frame_pick :=
  lazymatch goal with
  | |- safe _ _ (executeRead _) => apply frame_executeRead
  | |- safe _ _ (executeWrite _) => apply frame_executeWrite
  | |- safe _ _ (executeEdit _) => apply frame_executeEdit
  | |- safe _ _ (executeBash _) => apply frame_executeBash
  | |- safe _ _ (executeGlob _) => apply frame_executeGlob
  | |- safe _ _ (executeGrep _) => apply frame_executeGrep
  | |- safe _ _ (executeListDir _) => apply frame_executeListDir
  | |- safe _ _ (executeMakeDir _) => apply frame_executeMakeDir
  | |- safe _ _ (executeMove _) => apply frame_executeMove
  | |- safe _ _ (executeCopy _) => apply frame_executeCopy
  | |- safe _ _ (executeDelete _) => apply frame_executeDelete
  | |- safe _ _ (executeConfirmDelete _) => apply frame_executeConfirmDelete
  | |- safe _ _ (executeCancelDelete _) => apply frame_executeCancelDelete
  | |- safe _ _ (bind (object_of _) (fun _ => lift (confirmPermission _))) =>
      apply safe_bind_object_of, frame_confirmPermission
  | |- safe _ _ (bind (object_of _) (fun _ => lift (denyPermission _))) =>
      apply safe_bind_object_of, frame_denyPermission
  | |- safe _ _ (executeProgress _) => apply frame_executeProgress
  | |- safe _ _ (executeWebSearch _) => apply frame_executeWebSearch
  | |- safe _ _ (executeWebFetch _) => apply frame_executeWebFetch
  | |- safe _ _ (executeTodoWrite _) => apply frame_executeTodoWrite
  | |- safe _ _ executeTodoRead => apply frame_executeTodoRead
  | |- safe _ _ (executeCodeAnalysis _) => apply frame_executeCodeAnalysis
  | |- safe _ _ (executeScreenshot _) => apply frame_executeScreenshot
  | |- safe _ _ (executeMouseClick _) => apply frame_executeMouseClick
  | |- safe _ _ (executeTypeText _) => apply frame_executeTypeText
  | |- safe _ _ (executeKeyPress _) => apply frame_executeKeyPress
  | |- safe _ _ (executeOpenBrowser _) => apply frame_executeOpenBrowser
  | |- safe _ _ (executeScroll _) => apply frame_executeScroll
  | |- safe _ _ (executeWait _) => apply frame_executeWait
  | |- safe _ _ (executeBrowserNavigate _) =>
      apply frame_browser_tool; [|apply safe_bind_object_of, safe_ret]
  | |- safe _ _ (ret _) => apply safe_ret
  | |- safe _ _ _ => apply frame_browser_tool; [|apply safe_ret]
  end.

(** One invocation keeps an invariant that its handler keeps: the [catch]
    of executeTool does not touch the state. *)
Lemma tool_wp (Inv : ToolState -> Prop) (P : Event -> Prop) name input st :
  safe Inv P (handler name input) ->
  Inv st ->
  wp P (fun x => Inv x.2) (executeTool name input st).
Proof.
  intros Hsafe Hst. unfold executeTool. apply wp_bind.
  eapply wp_mono; [exact (fun e He => He) | | exact (Hsafe st Hst)].
  intros [[a|e] st'] Hst'; exact Hst'.
Qed.

(** A handler keeps every invariant that the stores of its tool keep. *)
Lemma frame_handler (Inv : ToolState -> Prop) (name : string) (input : jsval) :
  (In name permission_tools -> forall m st, Inv st -> Inv (set_pendingPermissions m st)) ->
  (name = "ConfirmPermission" -> forall m st, Inv st -> Inv (set_approvedPaths m st)) ->
  (In name deletion_tools -> forall m st, Inv st -> Inv (set_pendingDeletions m st)) ->
  (name = "TodoWrite" -> forall m st, Inv st -> Inv (set_todoStorage m st)) ->
  (name = "Progress" -> forall m st, Inv st -> Inv (set_progressTracker m st)) ->
  (In name nircmd_tools -> forall b st, Inv st -> Inv (set_nircmdAvailable b st)) ->
  safe Inv (fun _ => True) (handler name input).
Proof.
  intros Hperm Happroved Hdel Htodo Hprogress Hnircmd.
  split_names name.
  all: frame_pick.
  all: first [ intros; exact I
             | apply Hperm; simpl; auto 20
             | apply Happroved; reflexivity
             | apply Hdel; simpl; auto
             | apply Htodo; reflexivity
             | apply Hprogress; reflexivity
             | apply Hnircmd; simpl; auto ].
Qed.

(** X18: the tools that only look. Whatever they are given and whatever the
    runtime answers, Read, Glob, Grep, ListDir, Delete, CancelDelete,
    ConfirmPermission, DenyPermission, Progress, WebSearch, WebFetch,
    TodoWrite, TodoRead, CodeAnalysis and Wait never write, create, move,
    copy or remove a file, never start a process and never send a command to
    the browser: their calls are fs.stat, fs.readFile, fs.readdir, glob,
    fetches and timers. *)
Theorem read_only_tools_only_look
    (E : Env) (w : world E) (st : ToolState) (name : string) (input : jsval) :
  In name read_only_tools ->
  Forall (fun e => mutating e = false) (exec E (executeTool name input st) w).2.
Proof.
  intros Hin.
  assert (Hsafe : safe (fun _ => True) (fun e => mutating e = false) (handler name input)).
  { simpl in Hin.
    repeat (destruct Hin as [Hin|Hin];
            [subst name; unfold handler; simpl;
             frame_pick;
             auto|]).
    destruct Hin. }
  exact (proj2 (wp_exec E _ _ _ (tool_wp _ _ name input st Hsafe I) w)).
Qed.

(** X19: every store of the executor has its owners. Whatever the input and
    the runtime's answers, approvals are granted by ConfirmPermission only;
    pending permissions are changed only by the tools that ask for them and
    by ConfirmPermission and DenyPermission; pending deletions only by
    Delete, ConfirmDelete and CancelDelete; the todo lists only by TodoWrite;
    the progress lists only by Progress; and no tool changes the current
    session or the registration of the browser extension. *)
Theorem stores_have_owners
    (E : Env) (w : world E) (st : ToolState) (name : string) (input : jsval) :
  let st' := (exec E (executeTool name input st) w).1.1.2 in
  (name <> "ConfirmPermission" -> approvedPaths st' = approvedPaths st) /\
  (~ In name permission_tools -> pendingPermissions st' = pendingPermissions st) /\
  (~ In name deletion_tools -> pendingDeletions st' = pendingDeletions st) /\
  (name <> "TodoWrite" -> todoStorage st' = todoStorage st) /\
  (name <> "Progress" -> progressTracker st' = progressTracker st) /\
  currentSessionId st' = currentSessionId st /\
  browserExtension st' = browserExtension st.
Proof.
  cbv zeta.
  assert (Hkeep : forall Inv : ToolState -> Prop,
            safe Inv (fun _ => True) (handler name input) -> Inv st ->
            Inv (exec E (executeTool name input st) w).1.1.2).
  { intros Inv Hsafe Hst.
    exact (proj1 (wp_exec E _ _ _ (tool_wp Inv _ name input st Hsafe Hst) w)). }
  repeat split.
  - intros Hne. apply (Hkeep (fun s => approvedPaths s = approvedPaths st)); [|reflexivity].
    apply frame_handler; try (intros _ m s Hs; exact Hs). intros Heq. contradiction.
  - intros Hne. apply (Hkeep (fun s => pendingPermissions s = pendingPermissions st));
      [|reflexivity].
    apply frame_handler; try (intros _ m s Hs; exact Hs). intros Hin. contradiction.
  - intros Hne. apply (Hkeep (fun s => pendingDeletions s = pendingDeletions st));
      [|reflexivity].
    apply frame_handler; try (intros _ m s Hs; exact Hs). intros Hin. contradiction.
  - intros Hne. apply (Hkeep (fun s => todoStorage s = todoStorage st)); [|reflexivity].
    apply frame_handler; try (intros _ m s Hs; exact Hs). intros Heq. contradiction.
  - intros Hne. apply (Hkeep (fun s => progressTracker s = progressTracker st)); [|reflexivity].
    apply frame_handler; try (intros _ m s Hs; exact Hs). intros Heq. contradiction.
  - apply (Hkeep (fun s => currentSessionId s = currentSessionId st)); [|reflexivity].
    apply frame_handler; intros _ m s Hs; exact Hs.
  - apply (Hkeep (fun s => browserExtension s = browserExtension st)); [|reflexivity].
    apply frame_handler; intros _ m s Hs; exact Hs.
Qed.

(** *** The progress lists *)

Lemma progress_bounded_insert st sessionId entries :
  length entries <= 50 ->
  progress_bounded st ->
  progress_bounded (set_progressTracker (<[sessionId := entries]> (progressTracker st)) st).
Proof.
  unfold progress_bounded. simpl. intros Hlen Hst s l Hl.
  apply lookup_insert_Some in Hl as [[_ <-]|[_ Hl]]; [exact Hlen|exact (Hst s l Hl)].
Qed.

Lemma progress_window (l : list jsval) :
  length (if Nat.ltb 50 (length l) then drop (length l - 50) l else l) <= 50.
Proof.
  destruct (Nat.ltb_spec 50 (length l)) as [Hlt|Hle]; [|exact Hle].
  rewrite length_drop. lia.
Qed.

Lemma progress_push (l : list jsval) (entry : jsval) :
  let l' := if Nat.ltb 50 (length (l ++ [entry]))
            then drop (length (l ++ [entry]) - 50) (l ++ [entry])
            else l ++ [entry] in
  (exists old, l ++ [entry] = old ++ l') /\
  last l' = Some entry /\
  length l' = Nat.min 50 (S (length l)).
Proof.
  cbv zeta. rewrite length_app. cbn [length].
  destruct (Nat.ltb_spec 50 (length l + 1)) as [Hlt|Hle].
  - split; [eexists; symmetry; apply take_drop|]. split.
    + rewrite drop_app_le by lia. apply last_snoc.
    + rewrite length_drop, length_app. cbn [length]. lia.
  - split; [exists []; reflexivity|]. split; [apply last_snoc|].
    rewrite length_app. cbn [length]. lia.
Qed.

Lemma progress_bounded_executeProgress input :
  safe progress_bounded (fun _ => True) (executeProgress input).
Proof.
  unfold executeProgress.
  apply safe_bind_object_of.
  apply safe_bind; [apply safe_ask|]. intros timestamp.
  apply safe_bind_get. intros st0 Hst0.
  apply safe_bind; [|intros; apply safe_ret].
  apply safe_put, progress_bounded_insert; [apply progress_window|exact Hst0].
Qed.

Lemma progress_bounded_tool name input st :
  progress_bounded st ->
  wp (fun _ => True) (fun x => progress_bounded x.2) (executeTool name input st).
Proof.
  intros Hst. apply tool_wp; [|exact Hst].
  destruct (String.eqb name "Progress") eqn:Ep.
  - apply String.eqb_eq in Ep. subst name. unfold handler. simpl.
    apply progress_bounded_executeProgress.
  - apply String.eqb_neq in Ep.
    apply frame_handler; try (intros _ m s Hs; exact Hs). intros Heq. contradiction.
Qed.

Lemma progress_bounded_run (E : Env) calls : forall st w,
  progress_bounded st -> progress_bounded (run_tools E calls st w).1.1.
Proof.
  induction calls as [|[name input] rest IH]; intros st w Hst; simpl; [exact Hst|].
  pose proof (proj1 (wp_exec E _ _ _ (progress_bounded_tool name input st Hst) w)) as Hstep.
  destruct (exec E (executeTool name input st) w) as [[[result st1] w1] tr].
  simpl in Hstep. specialize (IH st1 w1 Hstep).
  destruct (run_tools E rest st1 w1) as [[st2 w2] log]. exact IH.
Qed.

(** X20: the progress list of a session is a window of 50. A Progress call
    puts its entry last in the list of the current session, dropping the
    oldest entries beyond 50, and getProgress returns that list; after any
    run of tool invocations no session's list is longer than 50. *)
Theorem progress_window_of_50
    (E : Env) (w : world E) (calls : list (string * jsval))
    (st : ToolState) (fields : list (string * jsval)) :
  progress_bounded (run_tools E calls initial w).1.1 /\
  let sessionId := Some (currentSessionId st) in
  let st' := (exec E (executeTool "Progress" (JObj fields) st) w).1.1.2 in
  exists entry old,
    field entry "step" = assoc "step" fields /\
    getProgress sessionId st ++ [entry] = old ++ getProgress sessionId st' /\
    last (getProgress sessionId st') = Some entry /\
    length (getProgress sessionId st') = Nat.min 50 (S (length (getProgress sessionId st))).
Proof.
  split.
  { apply progress_bounded_run. intros s l Hl. simpl in Hl.
    rewrite lookup_empty in Hl. discriminate. }
  cbv zeta. unfold executeTool, handler. cbn -[Nat.min].
  cbv delta [executeProgress bind object_of get put ret ask]. cbn -[Nat.min].
  destruct (answer E string w IsoTimestamp) as [w1 iso]. cbn -[Nat.min].
  unfold getProgress. cbn -[Nat.min]. rewrite lookup_insert_eq. cbn -[Nat.min].
  set (l := default [] (progressTracker st !! currentSessionId st)).
  match goal with |- context [l ++ [?e]] => set (entry := e) end.
  destruct (progress_push l entry) as ([old Hold] & Hlast & Hlen).
  exists entry, old. split; [reflexivity|]. split; [exact Hold|]. split; assumption.
Qed.
End Dispatch.
End ToolsApiFacts.

Module ToolsApiExamples.
Import Js Runtime JsString Tools ToolsApi ToolsApiFacts Posix ToolsData ToolsApiData.

Lemma dangerous_command_not_run_witness :
  assoc "command" rm_command = JStr "sudo RM -RF /var/www" /\
  existsb (fun d => includes (toLowerCase "sudo RM -RF /var/www") d) dangerous = true /\
  executeTool "Bash" (JObj rm_command) initial =
    Ret (obj [ ("error", JStr "Blocked: dangerous command pattern detected") ], initial).
Proof.
  assert (Hc : assoc "command" rm_command = JStr "sudo RM -RF /var/www") by reflexivity.
  assert (Hd : existsb (fun d => includes (toLowerCase "sudo RM -RF /var/www") d) dangerous
               = true) by (vm_compute; reflexivity).
  split; [exact Hc|]. split; [exact Hd|].
  exact (dangerous_command_not_run initial rm_command "sudo RM -RF /var/www" Hc Hd).
Defined.

Lemma confirm_delete_outcome_witness :
  assoc "deletion_id" report_id = JStr "del_1700000000000_k3x9q2" /\
  pendingDeletions deletion_requested !! "del_1700000000000_k3x9q2" = Some report_deletion /\
  (exec calm (executeTool "ConfirmDelete" (JObj report_id) deletion_requested) tt).2 =
    [EvCall (FsUnlink (JStr "/tmp/report.txt"))].
Proof.
  assert (Hid : assoc "deletion_id" report_id = JStr "del_1700000000000_k3x9q2")
    by reflexivity.
  assert (Hp : pendingDeletions deletion_requested !! "del_1700000000000_k3x9q2"
               = Some report_deletion) by (vm_compute; reflexivity).
  split; [exact Hid|]. split; [exact Hp|].
  exact (proj1 (confirm_delete_outcome calm tt deletion_requested report_id
                  "del_1700000000000_k3x9q2" report_deletion Hid Hp)).
Defined.

Lemma cancelled_deletion_stays_cancelled_witness :
  assoc "deletion_id" report_id = JStr "del_1700000000000_k3x9q2" /\
  pendingDeletions deletion_requested !! "del_1700000000000_k3x9q2" = Some report_deletion /\
  executeTool "ConfirmDelete" (JObj report_id)
    (set_pendingDeletions
       (delete "del_1700000000000_k3x9q2" (pendingDeletions deletion_requested))
       deletion_requested) =
  Ret (obj [ ("error", JStr ("No pending deletion found with id: " +:+
                             "del_1700000000000_k3x9q2" +:+
                             ". It may have expired or already been processed.")) ],
       set_pendingDeletions
         (delete "del_1700000000000_k3x9q2" (pendingDeletions deletion_requested))
         deletion_requested).
Proof.
  assert (Hid : assoc "deletion_id" report_id = JStr "del_1700000000000_k3x9q2")
    by reflexivity.
  assert (Hp : pendingDeletions deletion_requested !! "del_1700000000000_k3x9q2"
               = Some report_deletion) by (vm_compute; reflexivity).
  split; [exact Hid|]. split; [exact Hp|].
  exact (proj1 (proj2 (cancelled_deletion_stays_cancelled deletion_requested report_id
                         "del_1700000000000_k3x9q2" report_deletion Hid Hp))).
Defined.

Lemma todo_round_trip_witness :
  assoc "todos" [("todos", JArr two_todos)] = JArr two_todos /\
  existsb nullish two_todos = false /\
  executeTool "TodoRead" JUndefined
    (set_todoStorage (<[currentSessionId initial := JArr two_todos]> (todoStorage initial))
       initial) =
  Ret (obj [ ("todos", JArr two_todos); ("count", JNum 2) ],
       set_todoStorage (<[currentSessionId initial := JArr two_todos]> (todoStorage initial))
         initial).
Proof.
  assert (Ht : assoc "todos" [("todos", JArr two_todos)] = JArr two_todos) by reflexivity.
  assert (Hn : existsb nullish two_todos = false) by reflexivity.
  split; [exact Ht|]. split; [exact Hn|].
  exact (proj1 (proj2 (todo_round_trip initial [("todos", JArr two_todos)] two_todos
                         JUndefined Ht Hn))).
Defined.

Lemma browser_tools_need_extension_witness :
  In "BrowserClick" browser_tools /\
  (browserExtension initial = false \/ (answer calm bool tt IsConnected).2 = false) /\
  (exec calm (executeTool "BrowserClick" (JObj [("selector", JStr "#go")]) initial) tt).2 = [].
Proof.
  assert (Hin : In "BrowserClick" browser_tools) by (simpl; auto).
  assert (Hoff : browserExtension initial = false \/
                 (answer calm bool tt IsConnected).2 = false) by (left; reflexivity).
  split; [exact Hin|]. split; [exact Hoff|].
  exact (proj2 (browser_tools_need_extension calm tt initial "BrowserClick"
                  (JObj [("selector", JStr "#go")]) Hin Hoff)).
Defined.

Lemma confirmed_path_is_open_witness :
  pendingPermissions asked_once.1 !! "perm_1700000000000_k3x9q2" = Some notes_permission /\
  pp_path notes_permission = JStr "/home/u/Documents/notes.txt" /\
  pp_sessionId notes_permission = currentSessionId asked_once.1 /\
  In ("Read", "file_path", "read", "Reading files from this location") gated_tools /\
  assoc "file_path" [("file_path", JStr "/home/u/Documents/notes.txt")]
    = JStr "/home/u/Documents/notes.txt" /\
  startsWith (toLowerCase (path_normalize "/home/u/Documents/notes.txt"))
             (toLowerCase (path_normalize "/home/u/Documents/notes.txt")) = true /\
  path_approved (confirmPermission (JStr "perm_1700000000000_k3x9q2") asked_once.1).2
    (currentSessionId asked_once.1) "/home/u/Documents/notes.txt" = true.
Proof.
  assert (Hp : pendingPermissions asked_once.1 !! "perm_1700000000000_k3x9q2"
               = Some notes_permission) by (vm_compute; reflexivity).
  assert (Hpath : pp_path notes_permission = JStr "/home/u/Documents/notes.txt")
    by reflexivity.
  assert (Hsid : pp_sessionId notes_permission = currentSessionId asked_once.1)
    by reflexivity.
  assert (Hin : In ("Read", "file_path", "read", "Reading files from this location")
                   gated_tools) by (simpl; auto).
  assert (Hfld : assoc "file_path" [("file_path", JStr "/home/u/Documents/notes.txt")]
                 = JStr "/home/u/Documents/notes.txt") by reflexivity.
  assert (Hpre : startsWith (toLowerCase (path_normalize "/home/u/Documents/notes.txt"))
                   (toLowerCase (path_normalize "/home/u/Documents/notes.txt")) = true)
    by (vm_compute; reflexivity).
  repeat (split; [assumption|]).
  exact (proj1 (confirmed_path_is_open ticking 1%Z asked_once.1 "perm_1700000000000_k3x9q2"
                  notes_permission "/home/u/Documents/notes.txt"
                  "/home/u/Documents/notes.txt" "Read" "file_path" "read"
                  "Reading files from this location"
                  [("file_path", JStr "/home/u/Documents/notes.txt")]
                  Hp Hpath Hsid Hin Hfld Hpre)).
Defined.

Lemma two_path_tools_ask_first_witness :
  In ("Move", ("move from", "Moving files from this location"),
              ("move to", "Moving files to this location")) two_path_tools /\
  assoc "source" move_into_documents = JStr "/srv/a.txt" /\
  assoc "destination" move_into_documents = JStr "/home/u/Documents/a.txt" /\
  asks_for initial "/srv/a.txt" || asks_for initial "/home/u/Documents/a.txt" = true /\
  (exec calm (executeTool "Move" (JObj move_into_documents) initial) tt).2 = [].
Proof.
  assert (Hin : In ("Move", ("move from", "Moving files from this location"),
                            ("move to", "Moving files to this location")) two_path_tools)
    by (simpl; auto).
  assert (Hs : assoc "source" move_into_documents = JStr "/srv/a.txt") by reflexivity.
  assert (Hd : assoc "destination" move_into_documents = JStr "/home/u/Documents/a.txt")
    by reflexivity.
  assert (Ha : asks_for initial "/srv/a.txt" || asks_for initial "/home/u/Documents/a.txt"
               = true) by (vm_compute; reflexivity).
  repeat (split; [assumption|]).
  exact (proj1 (two_path_tools_ask_first calm tt initial "Move" _ _ move_into_documents
                  "/srv/a.txt" "/home/u/Documents/a.txt" Hin Hs Hd Ha)).
Defined.

Lemma read_only_tools_only_look_witness :
  In "Grep" read_only_tools /\
  Forall (fun e => mutating e = false)
    (exec calm (executeTool "Grep" (JObj [("pattern", JStr "TODO")]) initial) tt).2.
Proof.
  assert (Hin : In "Grep" read_only_tools) by (simpl; auto).
  split; [exact Hin|].
  exact (read_only_tools_only_look calm tt initial "Grep"
           (JObj [("pattern", JStr "TODO")]) Hin).
Defined.

End ToolsApiExamples.

(** ** The agent loop: decoding and history *)

Module ProviderStreamFacts.
Import Js JsString Provider ProviderFacts ProviderStream.

(** *** Lines *)

Lemma append_assoc (a b c : string) : (a +:+ b) +:+ c = a +:+ (b +:+ c).
Proof.
  induction a as [|x a IH]; [reflexivity|].
  change (String x ((a +:+ b) +:+ c) = String x (a +:+ (b +:+ c))).
  rewrite IH. reflexivity.
Qed.

Lemma append_empty (a : string) : a +:+ EmptyString = a.
Proof.
  induction a as [|x a IH]; [reflexivity|].
  change (String x (a +:+ EmptyString) = String x a). rewrite IH. reflexivity.
Qed.

Lemma split_lines_cons c s :
  split_lines (String c s) =
  if Ascii.eqb c (ascii_of_nat 10) then EmptyString :: split_lines s
  else cons_head c (split_lines s).
Proof. reflexivity. Qed.

Lemma split_lines_nonempty s : split_lines s <> [].
Proof.
  destruct s as [|c s]; [discriminate|].
  rewrite split_lines_cons. destruct (Ascii.eqb c (ascii_of_nat 10)); [discriminate|].
  destruct (split_lines s); discriminate.
Qed.

Lemma removelast_cons {A} (x : A) (l : list A) :
  l <> [] -> removelast (x :: l) = x :: removelast l.
Proof. destruct l; [congruence|reflexivity]. Qed.

Lemma last_cons_nonempty {A} (x : A) (l : list A) : l <> [] -> last (x :: l) = last l.
Proof. destruct l; [congruence|reflexivity]. Qed.

(** The lines of a text that continues: the complete lines of the first
    part, then the lines of its last piece followed by the second part. *)
Lemma split_lines_app a : forall b,
  split_lines (a +:+ b) =
  removelast (split_lines a) ++ split_lines (default EmptyString (last (split_lines a)) +:+ b).
Proof.
  induction a as [|c a IH]; intros b; [reflexivity|].
  change (String c a +:+ b) with (String c (a +:+ b)).
  rewrite !split_lines_cons.
  pose proof (split_lines_nonempty a) as Hne.
  destruct (Ascii.eqb c (ascii_of_nat 10)) eqn:Ec.
  - rewrite removelast_cons by exact Hne. rewrite last_cons_nonempty by exact Hne.
    simpl. rewrite IH. reflexivity.
  - rewrite IH. destruct (split_lines a) as [|l0 [|l1 ls]]; [congruence| |].
    + simpl. rewrite Ec. reflexivity.
    + reflexivity.
Qed.

Lemma no_newline_app a b : no_newline (a +:+ b) = no_newline a && no_newline b.
Proof.
  induction a as [|c a IH]; [reflexivity|].
  change (no_newline (String c (a +:+ b)) = no_newline (String c a) && no_newline b).
  simpl. rewrite IH. apply andb_assoc.
Qed.

Lemma split_lines_no_newline s : no_newline s = true -> split_lines s = [s].
Proof.
  induction s as [|c s IH]; [reflexivity|].
  simpl. destruct (Ascii.eqb c (ascii_of_nat 10)); simpl; [discriminate|].
  intros Hs. rewrite (IH Hs). reflexivity.
Qed.

Lemma last_line_no_newline s :
  no_newline (default EmptyString (last (split_lines s))) = true.
Proof.
  induction s as [|c s IH]; [reflexivity|].
  rewrite split_lines_cons.
  pose proof (split_lines_nonempty s) as Hne.
  destruct (Ascii.eqb c (ascii_of_nat 10)) eqn:Ec.
  - rewrite last_cons_nonempty by exact Hne. exact IH.
  - destruct (split_lines s) as [|l0 [|l1 ls]]; [congruence| |].
    + simpl in *. rewrite Ec, IH. reflexivity.
    + exact IH.
Qed.

Section WithEngine.
Context `{Engine}.

(** *** The decoder does not look at its buffer *)

Lemma set_buffer_twice r r' d : set_buffer r (set_buffer r' d) = set_buffer r d.
Proof. reflexivity. Qed.

Lemma set_buffer_same d : set_buffer (buffer d) d = d.
Proof. destruct d. reflexivity. Qed.

Lemma on_event_set_buffer e r d : on_event e (set_buffer r d) = set_buffer r (on_event e d).
Proof.
  destruct e as [[[id name]|]|[t|t|j|]| |s|]; simpl; try reflexivity.
  - destruct (JsString.truthy t); reflexivity.
  - destruct (JsString.truthy t); reflexivity.
  - destruct (JsString.truthy j); reflexivity.
  - destruct (currentToolCall d) as [[id name]|]; reflexivity.
  - destruct (JsString.truthy s); reflexivity.
Qed.

Lemma on_line_set_buffer line r d : on_line line (set_buffer r d) = set_buffer r (on_line line d).
Proof.
  unfold on_line. destruct (negb (startsWith line "data: ")); [reflexivity|].
  destruct (String.eqb _ "[DONE]"); [reflexivity|].
  destruct (parse_event _); [apply on_event_set_buffer|reflexivity].
Qed.

Lemma on_lines_set_buffer lines : forall r d,
  foldl (fun d line => on_line line d) (set_buffer r d) lines =
  set_buffer r (foldl (fun d line => on_line line d) d lines).
Proof.
  induction lines as [|l lines IH]; intros r d; [reflexivity|].
  simpl. rewrite on_line_set_buffer. apply IH.
Qed.

Lemma buffer_on_lines lines : forall d,
  buffer (foldl (fun d line => on_line line d) d lines) = buffer d.
Proof.
  induction lines as [|l lines IH]; intros d; [reflexivity|].
  simpl. rewrite IH. unfold on_line.
  destruct (negb (startsWith l "data: ")); [reflexivity|].
  destruct (String.eqb _ "[DONE]"); [reflexivity|].
  destruct (parse_event _) as [e|]; [|reflexivity].
  rewrite <- (set_buffer_same d) at 1. rewrite on_event_set_buffer. reflexivity.
Qed.

Lemma buffer_on_chunk d chunk :
  buffer (on_chunk d chunk) = default EmptyString (last (split_lines (buffer d +:+ chunk))).
Proof. unfold on_chunk. rewrite buffer_on_lines. reflexivity. Qed.

Lemma removelast_app_nonempty {A} (l l' : list A) :
  l' <> [] -> removelast (l ++ l') = l ++ removelast l'.
Proof. intros Hne. apply removelast_app, Hne. Qed.

Lemma last_app_nonempty {A} (l l' : list A) : l' <> [] -> last (l ++ l') = last l'.
Proof.
  intros Hne. destruct (exists_last Hne) as (init & x & ->).
  rewrite app_assoc, !last_snoc. reflexivity.
Qed.

(** Two chunks are decoded like the one chunk that joins them. *)
Lemma on_chunk_app d a b : on_chunk (on_chunk d a) b = on_chunk d (a +:+ b).
Proof.
  unfold on_chunk at 1. rewrite buffer_on_chunk.
  unfold on_chunk at 2.
  rewrite <- append_assoc, (split_lines_app (buffer d +:+ a) b).
  set (rest := default EmptyString (last (split_lines (buffer d +:+ a)))).
  pose proof (split_lines_nonempty (rest +:+ b)) as Hne.
  rewrite removelast_app_nonempty by exact Hne.
  rewrite last_app_nonempty by exact Hne.
  rewrite foldl_app. unfold on_chunk.
  fold rest. rewrite !on_lines_set_buffer. rewrite set_buffer_twice. reflexivity.
Qed.

Lemma on_chunks d chunks : forall a,
  foldl on_chunk (on_chunk d a) chunks = on_chunk d (a +:+ joined chunks).
Proof.
  induction chunks as [|c chunks IH]; intros a; simpl.
  - rewrite append_empty. reflexivity.
  - rewrite on_chunk_app, IH, append_assoc. reflexivity.
Qed.

Lemma decoder_of_stream chunks :
  foldl on_chunk Decoder_start chunks = on_chunk Decoder_start (joined chunks).
Proof. exact (on_chunks Decoder_start chunks EmptyString). Qed.

(** X21: the result of processStream depends on the text of the stream only,
    not on how the transport cut it into chunks: two sequences of chunks that
    join to the same text decode to the same text events, tool calls,
    assistant content, thinking text and stop reason. *)
Theorem decoding_ignores_chunking (chunks chunks' : list string) :
  joined chunks = joined chunks' ->
  processStream chunks = processStream chunks'.
Proof.
  intros Hj. unfold processStream. rewrite !decoder_of_stream, Hj. reflexivity.
Qed.

(** X22: a last line that is not ended by a line feed is never decoded. What
    the stream delivers after its last line feed changes nothing in the
    result, even when it is a complete [data:] line. *)
Theorem unterminated_line_is_dropped (chunks : list string) (tail : string) :
  no_newline tail = true ->
  processStream (chunks ++ [tail]) = processStream chunks.
Proof.
  intros Ht. unfold processStream. rewrite !decoder_of_stream.
  assert (Hj : joined (chunks ++ [tail]) = joined chunks +:+ tail).
  { induction chunks as [|c chunks IH]; simpl.
    - apply append_empty.
    - rewrite IH, append_assoc. reflexivity. }
  rewrite Hj. unfold on_chunk.
  change (buffer Decoder_start +:+ (joined chunks +:+ tail)) with (joined chunks +:+ tail).
  change (buffer Decoder_start +:+ joined chunks) with (joined chunks).
  rewrite (split_lines_app (joined chunks) tail).
  set (rest := default EmptyString (last (split_lines (joined chunks)))).
  assert (Hrest : split_lines (rest +:+ tail) = [rest +:+ tail]).
  { apply split_lines_no_newline. rewrite no_newline_app, Ht.
    unfold rest. rewrite last_line_no_newline. reflexivity. }
  rewrite Hrest.
  rewrite removelast_app_nonempty by discriminate. simpl. rewrite app_nil_r.
  rewrite !on_lines_set_buffer. reflexivity.
Qed.
(** *** What the decoder records *)

Lemma texts_of_app a b : texts_of (a ++ b) = texts_of a ++ texts_of b.
Proof. apply flat_map_app. Qed.

Lemma calls_of_app a b : calls_of (a ++ b) = calls_of a ++ calls_of b.
Proof. apply flat_map_app. Qed.

Lemma mirrors_on_event e d : mirrors d -> mirrors (on_event e d).
Proof.
  unfold mirrors. intros [Ht Hc].
  destruct e as [[[id name]|]|[t|t|j|]| |s|]; simpl; auto.
  - destruct (JsString.truthy t); simpl; auto.
    rewrite texts_of_app, calls_of_app, Ht, Hc. simpl. rewrite app_nil_r. auto.
  - destruct (JsString.truthy t); simpl; auto.
  - destruct (JsString.truthy j); simpl; auto.
  - destruct (currentToolCall d) as [[id name]|]; simpl; auto.
    rewrite texts_of_app, calls_of_app, Ht, Hc. simpl. rewrite app_nil_r. auto.
  - destruct (JsString.truthy s); simpl; auto.
Qed.

Lemma mirrors_on_line line d : mirrors d -> mirrors (on_line line d).
Proof.
  intros Hd. unfold on_line. destruct (negb (startsWith line "data: ")); [exact Hd|].
  destruct (String.eqb _ "[DONE]"); [exact Hd|].
  destruct (parse_event _); [apply mirrors_on_event, Hd|exact Hd].
Qed.

Lemma mirrors_on_lines lines : forall d,
  mirrors d -> mirrors (foldl (fun d line => on_line line d) d lines).
Proof.
  induction lines as [|l lines IH]; intros d Hd; [exact Hd|].
  simpl. apply IH, mirrors_on_line, Hd.
Qed.

Lemma mirrors_on_chunks chunks : forall d, mirrors d -> mirrors (foldl on_chunk d chunks).
Proof.
  induction chunks as [|c chunks IH]; intros d Hd; [exact Hd|].
  simpl. apply IH. unfold on_chunk. apply mirrors_on_lines. exact Hd.
Qed.

Lemma tool_uses_calls_of blocks :
  tool_uses {| role := Assistant; content := Blocks blocks |} = map tc_id (calls_of blocks).
Proof.
  unfold tool_uses, calls_of. simpl.
  induction blocks as [|[t|id name input|id c] blocks IH]; simpl; congruence.
Qed.

Lemma processStream_mirrors (chunks : list string) :
  textChunks (processStream chunks) = texts_of (assistantContent (processStream chunks)) /\
  toolCalls (processStream chunks) = calls_of (assistantContent (processStream chunks)).
Proof.
  destruct (mirrors_on_chunks chunks Decoder_start) as [Ht Hc].
  { split; reflexivity. }
  unfold processStream. simpl. split; [exact Ht|exact Hc].
Qed.

Lemma processStream_tool_uses (chunks : list string) :
  tool_uses {| role := Assistant; content := Blocks (assistantContent (processStream chunks)) |} =
  map tc_id (toolCalls (processStream chunks)).
Proof.
  rewrite tool_uses_calls_of. destruct (processStream_mirrors chunks) as [_ <-]. reflexivity.
Qed.

(** X23: the assistant content that processStream returns records the
    stream it decoded: its text blocks are the text events, in order, and its
    tool-use blocks are the decoded tool calls, in order, with their ids,
    names and inputs. The ids of the tool-use blocks of the assistant message
    are therefore the ids of the calls that will be executed. *)
Theorem assistant_content_mirrors_stream (chunks : list string) :
  let result := processStream chunks in
  textChunks result = texts_of (assistantContent result) /\
  toolCalls result = calls_of (assistantContent result) /\
  tool_uses {| role := Assistant; content := Blocks (assistantContent result) |} =
    map tc_id (toolCalls result).
Proof.
  cbv zeta. destruct (processStream_mirrors chunks) as [Ht Hc].
  split; [exact Ht|]. split; [exact Hc|apply processStream_tool_uses].
Qed.

Section WithBackend.
Variable B : Backend.
Variable cfg : Config.

Lemma run_tool_calls_results calls : forall w,
  tool_results {| role := User; content := Blocks (run_tool_calls B calls w).1.2 |} =
  map tc_id calls.
Proof.
  induction calls as [|c rest IH]; intros w; simpl; [reflexivity|].
  destruct (executeTool B (tc_name c) (tc_input c) w) as [r w1].
  specialize (IH w1). destruct (run_tool_calls B rest w1) as [[events blocks] w2].
  unfold tool_results in *. simpl in *. rewrite IH. reflexivity.
Qed.

Lemma history_after_two chatId a u st st' :
  conversationHistory B st' = conversationHistory B st ->
  getConversationHistory B chatId (add_message B chatId u (add_message B chatId a st')) =
  push_trim (push_trim (getConversationHistory B chatId st) a) u.
Proof.
  intros Hst. unfold getConversationHistory, add_message, addToHistory. simpl.
  rewrite !lookup_insert_eq, Hst. reflexivity.
Qed.

(** X24: a turn that ends with tool calls pushes a matching pair to the
    history: first the assistant message, then the user message with the
    tool results. The ids of the tool-use blocks of the first are the
    correlation ids of the tool-result blocks of the second, in the same
    order, and they are the ids of the tool_use events the turn yields; there
    is at least one. *)
Theorem tool_turn_pushes_matching_pair
    (chatId selectedModel : string) (st : State B) :
  (turn_body B chatId selectedModel st).2 = Continue ->
  exists assistant user,
    getConversationHistory B chatId (turn_body B chatId selectedModel st).1.2 =
      push_trim (push_trim (getConversationHistory B chatId st) assistant) user /\
    role assistant = Assistant /\ role user = User /\
    tool_uses assistant = tool_results user /\
    tool_uses assistant = tool_use_ids (turn_body B chatId selectedModel st).1.1 /\
    tool_uses assistant <> [].
Proof.
  unfold turn_body.
  destruct (makeStreamingRequest B (world B st) (getConversationHistory B chatId st)
              selectedModel) as [w1 outcome].
  destruct outcome as [m|[|] status chunks [m|]]; try (simpl; discriminate).
  cbn [fst snd].
  pose proof (processStream_tool_uses chunks) as Huses.
  pose proof (processStream_texts chunks) as Htexts.
  destruct (toolCalls (processStream chunks)) as [|c calls] eqn:Hcalls; [simpl; discriminate|].
  pose proof (run_tool_calls_results (c :: calls) w1) as Hres.
  pose proof (run_tool_calls_events B (c :: calls) w1) as Hev.
  destruct (run_tool_calls B (c :: calls) w1) as [[events toolResults] w2].
  cbn [fst snd] in *. intros _.
  exists {| role := Assistant; content := Blocks (assistantContent (processStream chunks)) |},
         {| role := User; content := Blocks toolResults |}.
  split; [apply history_after_two; reflexivity|]. split; [reflexivity|]. split; [reflexivity|].
  split; [rewrite Huses, Hres; reflexivity|]. split.
  - rewrite !tool_use_ids_app.
    destruct (no_tool_ids _ (texts_no_tool _ Htexts)) as [-> _].
    destruct (thinking_events (thinking (processStream chunks))) as [_ Hth].
    destruct (no_tool_ids _ Hth) as [-> _].
    destruct (tool_events_use_ids _ _ Hev) as [-> _]. exact Huses.
  - rewrite Huses. discriminate.
Qed.

(** *** Edges of the loop *)

Lemma make_config_turns m n : maxTurns (make_config m n) <> 0%Z.
Proof.
  unfold make_config. simpl. destruct n as [n|]; [|discriminate].
  destruct (Z.eqb_spec n 0); [discriminate|assumption].
Qed.

(** X25: with a turn limit that is not positive the loop body never runs:
    query makes no request and executes no tool; it records the prompt and
    yields session_init, the maximum-turns notice and done. The constructor
    replaces a limit of 0 by 50, so only a negative limit gets there. *)
Theorem no_turns_without_limit
    (prompt chatId : string) (requested_model : option string) (st : State B) :
  (maxTurns cfg <= 0)%Z ->
  query B cfg prompt chatId requested_model st =
    ([SessionInit chatId; max_turns_notice; Done], 0%Z,
     add_message B chatId (prompt_message prompt)
       {| conversationHistory := conversationHistory B st;
          world := setSessionId B chatId (world B st) |}) /\
  forall m n, maxTurns (make_config m n) <> 0%Z.
Proof.
  intros Hle. split; [|apply make_config_turns].
  unfold query. replace (Z.to_nat (maxTurns cfg)) with 0 by lia. simpl.
  destruct (Z.leb_spec (maxTurns cfg) 0) as [_|Hgt]; [reflexivity|lia].
Qed.

Lemma turn_body_aborted chatId selectedModel st :
  decoded (makeStreamingRequest B (world B st) (getConversationHistory B chatId st)
             selectedModel).2 = false ->
  (exists message, (turn_body B chatId selectedModel st).1.1 = [ErrorEvent message]) /\
  conversationHistory B (turn_body B chatId selectedModel st).1.2 = conversationHistory B st /\
  (turn_body B chatId selectedModel st).2 = Stop.
Proof.
  unfold turn_body.
  destruct (makeStreamingRequest B (world B st) (getConversationHistory B chatId st)
              selectedModel) as [w1 outcome].
  destruct outcome as [m|[|] status chunks [m|]]; simpl; try discriminate; intros _;
    (split; [eexists; reflexivity|split; reflexivity]).
Qed.

(** X26: a turn whose request fails, is answered with an error status or
    whose body cannot be read yields one error event, stops the loop and
    leaves the history as it was: no assistant message is added. When this
    happens at the first turn of a query, the prompt stays the last message
    of the conversation, unanswered, and the next query is sent with both
    prompts. *)
Theorem aborted_turn_keeps_history
    (prompt chatId selectedModel : string) (st : State B) :
  (0 < maxTurns cfg)%Z ->
  JsString.truthy selectedModel = true ->
  let asked := add_message B chatId (prompt_message prompt)
                 {| conversationHistory := conversationHistory B st;
                    world := setSessionId B chatId (world B st) |} in
  decoded (makeStreamingRequest B (world B asked) (getConversationHistory B chatId asked)
             selectedModel).2 = false ->
  let run := query B cfg prompt chatId (Some selectedModel) st in
  (exists message,
     run.1.1 = SessionInit chatId :: ErrorEvent message ::
               (if (maxTurns cfg <=? 1)%Z then [max_turns_notice] else []) ++ [Done]) /\
  run.1.2 = 1%Z /\
  getConversationHistory B chatId run.2 =
    push_trim (getConversationHistory B chatId st) (prompt_message prompt) /\
  last (getConversationHistory B chatId run.2) = Some (prompt_message prompt) /\
  (forall s : State B,
     decoded (makeStreamingRequest B (world B s) (getConversationHistory B chatId s)
                selectedModel).2 = false ->
     (exists message, (turn_body B chatId selectedModel s).1.1 = [ErrorEvent message]) /\
     conversationHistory B (turn_body B chatId selectedModel s).1.2 = conversationHistory B s /\
     (turn_body B chatId selectedModel s).2 = Stop).
Proof.
  cbv zeta. intros Hpos Hmodel Hfail.
  destruct (turn_body_aborted chatId selectedModel _ Hfail) as ([message Hev] & Hhist & Hstop).
  unfold query. rewrite Hmodel.
  destruct (Z.to_nat (maxTurns cfg)) as [|fuel] eqn:Hfuel; [lia|].
  simpl turns.
  destruct (Z.ltb_spec 0 (maxTurns cfg)) as [_|Hle]; [|lia].
  unfold prompt_message in *.
  destruct (turn_body B chatId selectedModel _) as [[events st1] next].
  simpl in Hev, Hhist, Hstop. subst events next. simpl.
  split; [exists message; reflexivity|]. split; [reflexivity|].
  assert (Hh : getConversationHistory B chatId st1 =
               push_trim (getConversationHistory B chatId st)
                 {| role := User; content := PlainText prompt |}).
  { unfold getConversationHistory. rewrite Hhist. simpl.
    unfold addToHistory. rewrite lookup_insert_eq. reflexivity. }
  split; [exact Hh|]. split; [|intros s; apply turn_body_aborted].
  rewrite Hh.
  unfold push_trim. rewrite length_app. simpl.
  destruct (Nat.ltb 100 (length (getConversationHistory B chatId st) + 1));
    [|apply last_snoc].
  rewrite drop_app_le by lia. apply last_snoc.
Qed.
End WithBackend.
End WithEngine.
End ProviderStreamFacts.

Module ProviderStreamExamples.
Import Js JsString Provider ProviderStream ProviderStreamFacts ProviderData ProviderStreamData.

Lemma decoding_ignores_chunking_witness :
  joined cut = joined whole /\
  processStream cut = processStream whole /\
  textChunks (processStream whole) = [Text "hi"].
Proof.
  assert (Hj : joined cut = joined whole) by (vm_compute; reflexivity).
  split; [exact Hj|].
  split; [exact (decoding_ignores_chunking cut whole Hj)|vm_compute; reflexivity].
Defined.

Lemma unterminated_line_is_dropped_witness :
  no_newline unfinished = true /\
  processStream (whole ++ [unfinished]) = processStream whole /\
  textChunks (processStream (whole ++ [unfinished +:+ lf])) = [Text "hi"; Text "lost"].
Proof.
  assert (Hn : no_newline unfinished = true) by (vm_compute; reflexivity).
  split; [exact Hn|].
  split; [exact (unterminated_line_is_dropped whole unfinished Hn)|vm_compute; reflexivity].
Defined.

Lemma tool_turn_pushes_matching_pair_witness :
  (turn_body stubborn "c1" "m" (fresh stubborn tt)).2 = Continue /\
  exists assistant user,
    getConversationHistory stubborn "c1" (turn_body stubborn "c1" "m" (fresh stubborn tt)).1.2 =
      push_trim (push_trim (getConversationHistory stubborn "c1" (fresh stubborn tt)) assistant)
                user /\
    role assistant = Assistant /\ role user = User /\
    tool_uses assistant = tool_results user /\
    tool_uses assistant = tool_use_ids (turn_body stubborn "c1" "m" (fresh stubborn tt)).1.1 /\
    tool_uses assistant <> [].
Proof.
  assert (Hc : (turn_body stubborn "c1" "m" (fresh stubborn tt)).2 = Continue)
    by (vm_compute; reflexivity).
  split; [exact Hc|].
  exact (tool_turn_pushes_matching_pair stubborn "c1" "m" (fresh stubborn tt) Hc).
Defined.

Lemma no_turns_without_limit_witness :
  (maxTurns no_turns <= 0)%Z /\
  (query down no_turns "go" "c1" None (fresh down tt)).1 =
    ([SessionInit "c1"; max_turns_notice; Done], 0%Z).
Proof.
  assert (Hle : (maxTurns no_turns <= 0)%Z) by (vm_compute; discriminate).
  split; [exact Hle|].
  rewrite (proj1 (no_turns_without_limit down no_turns "go" "c1" None (fresh down tt) Hle)).
  reflexivity.
Defined.

Lemma aborted_turn_keeps_history_witness :
  (0 < maxTurns three_turns)%Z /\
  decoded (makeStreamingRequest down tt [prompt_message "go"] "m").2 = false /\
  JsString.truthy "m" = true /\
  getConversationHistory down "c1"
    (query down three_turns "go" "c1" (Some "m") (fresh down tt)).2 = [prompt_message "go"].
Proof.
  assert (Hpos : (0 < maxTurns three_turns)%Z) by (vm_compute; reflexivity).
  assert (Hfail : decoded (makeStreamingRequest down tt [prompt_message "go"] "m").2 = false)
    by reflexivity.
  assert (Hm : JsString.truthy "m" = true) by reflexivity.
  split; [exact Hpos|]. split; [exact Hfail|]. split; [exact Hm|].
  destruct (aborted_turn_keeps_history down three_turns "go" "c1" "m" (fresh down tt)
              Hpos Hm Hfail) as (_ & _ & Hh & _).
  rewrite Hh. vm_compute. reflexivity.
Defined.

End ProviderStreamExamples.

(** ** The browser bridge: numbering *)

Module BridgeLogFacts.
Import Js Bridge BridgeLog.

Lemma envelope_ids_app a b : envelope_ids (a ++ b) = envelope_ids a ++ envelope_ids b.
Proof. apply flat_map_app. Qed.

Lemma commands_app a b : commands (a ++ b) = commands a ++ commands b.
Proof. apply flat_map_app. Qed.

Lemma numbered_initial : numbered initial.
Proof.
  split; [simpl; lia|]. split; [reflexivity|].
  intros id action Hl. simpl in Hl. rewrite lookup_empty in Hl. discriminate.
Qed.

Lemma numbered_same st st' :
  requestIdCounter st' = requestIdCounter st ->
  envelope_ids (sent st') = envelope_ids (sent st) ->
  (forall e, In e (sent st) -> In e (sent st')) ->
  (forall id action, timers st' !! id = Some action -> timers st !! id = Some action) ->
  numbered st -> numbered st'.
Proof.
  intros Hc He Hs Ht (Hpos & Hids & Htimers).
  split; [rewrite Hc; exact Hpos|]. split; [rewrite He, Hc; exact Hids|].
  intros id action Hl. destruct (Htimers id action (Ht id action Hl)) as (ws & params & Hin).
  exists ws, params. apply Hs, Hin.
Qed.

Lemma numbered_sendCommand action params st :
  numbered st -> numbered (sendCommand action params st).
Proof.
  intros Hst. unfold sendCommand.
  destruct (browserExtensionSocket st) as [ws|];
    [|eapply numbered_same; [| | | |exact Hst]; simpl; auto].
  destruct (bool_decide (readyState st !! ws = Some 1%Z));
    [|eapply numbered_same; [| | | |exact Hst]; simpl; auto].
  destruct Hst as (Hpos & Hids & Htimers).
  split; [simpl; lia|]. split.
  - simpl. rewrite envelope_ids_app, Hids. simpl.
    rewrite (seqZ_app 1 (requestIdCounter st) 1) by lia.
    rewrite Z.add_comm. reflexivity.
  - intros id a Hl. simpl in Hl. simpl.
    apply lookup_insert_Some in Hl as [[<- <-]|[_ Hl]].
    + exists ws, params. apply in_or_app. right. left. reflexivity.
    + destruct (Htimers id a Hl) as (ws' & p & Hin).
      exists ws', p. apply in_or_app. left. exact Hin.
Qed.

Lemma numbered_step st input : numbered st -> numbered (step st input).
Proof.
  intros Hst. destruct input as [ws|action params|ws data|id|ws|ws state]; simpl.
  - eapply numbered_same; [| | | |exact Hst]; simpl; auto.
  - apply numbered_sendCommand, Hst.
  - destruct data as [|client version|id message|id error|]; simpl; try exact Hst.
    + eapply numbered_same; [| | | |exact Hst]; simpl; auto.
      * rewrite envelope_ids_app. simpl. apply app_nil_r.
      * intros e He. apply in_or_app. left. exact He.
    + unfold on_response. destruct (id ≫= _) as [[i handle]|]; [|exact Hst].
      eapply numbered_same; [| | | |exact Hst]; simpl; auto.
      intros id' a Hl. apply lookup_delete_Some in Hl as [_ Hl]. exact Hl.
    + unfold on_response. destruct (id ≫= _) as [[i handle]|]; [|exact Hst].
      eapply numbered_same; [| | | |exact Hst]; simpl; auto.
      intros id' a Hl. apply lookup_delete_Some in Hl as [_ Hl]. exact Hl.
  - unfold on_timeout. destruct (timers st !! id) as [action|]; [|exact Hst].
    eapply numbered_same; [| | | |exact Hst]; simpl; auto.
    intros id' a Hl. apply lookup_delete_Some in Hl as [_ Hl]. exact Hl.
  - eapply numbered_same; [| | | |exact Hst]; simpl; auto.
  - eapply numbered_same; [| | | |exact Hst]; simpl; auto.
Qed.

Lemma numbered_run inputs : forall st, numbered st -> numbered (run st inputs).
Proof.
  induction inputs as [|i inputs IH]; intros st Hst; [exact Hst|].
  change (run st (i :: inputs)) with (run (step st i) inputs).
  apply IH, numbered_step, Hst.
Qed.

Lemma accounted_step st input :
  length (envelope_ids (sent (step st input))) + length (refused (step st input)) =
  length (envelope_ids (sent st)) + length (refused st) + length (commands [input]).
Proof.
  destruct input as [ws|action params|ws data|id|ws|ws state]; simpl; try lia.
  - unfold sendCommand. destruct (browserExtensionSocket st) as [ws|]; simpl;
      [|rewrite length_app; simpl; lia].
    destruct (bool_decide (readyState st !! ws = Some 1%Z)); simpl.
    + rewrite envelope_ids_app, length_app. simpl. lia.
    + rewrite length_app. simpl. lia.
  - destruct data as [|client version|id message|id error|]; simpl; try lia.
    + rewrite envelope_ids_app, length_app. simpl. lia.
    + unfold on_response. destruct (id ≫= _) as [[i handle]|]; simpl; lia.
    + unfold on_response. destruct (id ≫= _) as [[i handle]|]; simpl; lia.
  - unfold on_timeout. destruct (timers st !! id); simpl; lia.
Qed.

Lemma accounted_run inputs : forall st,
  length (envelope_ids (sent (run st inputs))) + length (refused (run st inputs)) =
  length (envelope_ids (sent st)) + length (refused st) + length (commands inputs).
Proof.
  induction inputs as [|i inputs IH]; intros st; [simpl; lia|].
  change (run st (i :: inputs)) with (run (step st i) inputs).
  rewrite IH, accounted_step.
  change (i :: inputs) with ([i] ++ inputs). rewrite commands_app, length_app. lia.
Qed.

(** X27: the bridge numbers its commands. In every run, the envelopes sent
    to the extension carry the ids 1, 2, ... up to the request counter, in
    the order they were sent, so no id is used twice; every call of
    sendCommand either sent one envelope or was refused at once as not
    connected; and a timer that is still armed names, for its timeout error,
    the action of the envelope that was sent under its id. *)
Theorem commands_are_numbered (inputs : list Input) :
  let st := run initial inputs in
  envelope_ids (sent st) = seqZ 1 (requestIdCounter st) /\
  NoDup (envelope_ids (sent st)) /\
  length (envelope_ids (sent st)) + length (refused st) = length (commands inputs) /\
  (forall id action, timers st !! id = Some action ->
     exists ws params, In (ws, Envelope id action params) (sent st)).
Proof.
  cbv zeta. destruct (numbered_run inputs initial numbered_initial) as (Hpos & Hids & Htimers).
  split; [exact Hids|]. split; [rewrite Hids; apply NoDup_seqZ|].
  split; [|exact Htimers].
  rewrite accounted_run. reflexivity.
Qed.

End BridgeLogFacts.

(** ** The local provider *)

Module OllamaFacts.
Import Js JsString Ollama.

Lemma fold_left_append (l : list string) : forall acc,
  fold_left String.append l acc = acc +:+ fold_right String.append EmptyString l.
Proof.
  induction l as [|x l IH]; intros acc; simpl.
  - induction acc as [|c acc IHacc]; [reflexivity|].
    change (String c acc = String c (acc +:+ EmptyString)). rewrite <- IHacc. reflexivity.
  - rewrite IH.
    induction acc as [|c acc IHacc]; [reflexivity|].
    change (String c ((acc +:+ x) +:+ fold_right String.append EmptyString l) =
            String c (acc +:+ (x +:+ fold_right String.append EmptyString l))).
    rewrite IHacc. reflexivity.
Qed.

Lemma contents_truthy parts : Forall (fun t => truthy t = true) (contents parts).
Proof.
  induction parts as [|[c|] parts IH]; simpl; [constructor| |exact IH].
  destruct (truthy c) eqn:Hc; simpl; [constructor; assumption|exact IH].
Qed.

Lemma push_trim_bound history message : length (push_trim history message) <= 50.
Proof.
  unfold push_trim.
  destruct (Nat.ltb_spec 50 (length (history ++ [message]))) as [Hlt|Hle]; [|exact Hle].
  rewrite length_drop. lia.
Qed.

Lemma push_trim_last history message : last (push_trim history message) = Some message.
Proof.
  unfold push_trim. rewrite length_app. simpl.
  destruct (Nat.ltb 50 (length history + 1)); [|apply last_snoc].
  rewrite drop_app_le by lia. apply last_snoc.
Qed.

Section WithClient.
Variable C : Client.

Lemma record_history chatId role content st :
  exists m,
    msg_role m = role /\ msg_content m = content /\
    conversationHistory C (record C chatId role content st) =
      addToHistory chatId m (conversationHistory C st).
Proof.
  unfold record. destruct (now C (world C st)) as [w1 t].
  destruct (now C w1) as [w2 stamp]. eexists. repeat split; reflexivity.
Qed.

Lemma getHistory_addToHistory chatId m h w :
  getHistory C chatId {| conversationHistory := addToHistory chatId m h; world := w |} =
  push_trim (default [] (h !! chatId)) m.
Proof. unfold getHistory, addToHistory. simpl. rewrite lookup_insert_eq. reflexivity. Qed.

Lemma getHistory_record chatId role content st :
  exists m,
    msg_role m = role /\ msg_content m = content /\
    getHistory C chatId (record C chatId role content st) =
      push_trim (getHistory C chatId st) m.
Proof.
  destruct (record_history chatId role content st) as (m & Hr & Hc & Hh).
  exists m. split; [exact Hr|]. split; [exact Hc|].
  unfold getHistory. rewrite Hh. unfold addToHistory.
  rewrite lookup_insert_eq. reflexivity.
Qed.

(** X28: a run of the local provider's query yields the non-empty text
    parts of the answer, in order, and then exactly one closing event: done
    when the stream ended, an error event when the request or the stream
    failed, never both. The prompt is recorded in either case; the answer is
    recorded only with done, as one assistant message whose text is the
    concatenation of the texts yielded. *)
Theorem local_stream_has_one_end
    (prompt chatId : string) (model systemPrompt : option string) (st : State C) :
  let run := query C prompt chatId model systemPrompt st in
  let asked := record C chatId "user" prompt st in
  (exists user,
     msg_role user = "user" /\ msg_content user = prompt /\
     getHistory C chatId asked = push_trim (getHistory C chatId st) user) /\
  match answer_of C prompt chatId model systemPrompt st with
  | ChatStream parts None =>
      run.1 = map Text (contents parts) ++ [Done] /\
      Forall (fun t => truthy t = true) (contents parts) /\
      exists assistant,
        msg_role assistant = "assistant" /\
        msg_content assistant = fold_right String.append EmptyString (contents parts) /\
        getHistory C chatId run.2 = push_trim (getHistory C chatId asked) assistant
  | ChatStream parts (Some error) =>
      run.1 = map Text (contents parts) ++ [error_event error] /\
      Forall (fun t => truthy t = true) (contents parts) /\
      conversationHistory C run.2 = conversationHistory C asked
  | ChatRejected error =>
      run.1 = [error_event error] /\
      conversationHistory C run.2 = conversationHistory C asked
  end.
Proof.
  cbv zeta. split; [apply getHistory_record|].
  unfold query, answer_of, request_of.
  destruct (chat C (world C (record C chatId "user" prompt st)) (default "llama3.2" model)
              (request_messages systemPrompt
                 (getHistory C chatId (record C chatId "user" prompt st))))
    as [w outcome].
  destruct outcome as [error|parts [error|]]; simpl.
  - split; reflexivity.
  - split; [reflexivity|]. split; [apply contents_truthy|reflexivity].
  - split; [reflexivity|]. split; [apply contents_truthy|].
    set (st2 := {| conversationHistory := _; world := w |}).
    destruct (getHistory_record chatId "assistant" (full_content parts) st2)
      as (m & Hr & Hc & Hh).
    exists m. split; [exact Hr|]. split; [|exact Hh].
    rewrite Hc. unfold full_content. rewrite fold_left_append. reflexivity.
Qed.

Lemma bounded_addToHistory chatId m h w w' :
  bounded C {| conversationHistory := h; world := w |} ->
  bounded C {| conversationHistory := addToHistory chatId m h; world := w' |}.
Proof.
  unfold bounded, addToHistory. simpl. intros Hb c l Hl.
  apply lookup_insert_Some in Hl as [[_ <-]|[_ Hl]];
    [apply push_trim_bound|exact (Hb c l Hl)].
Qed.

Lemma bounded_record chatId role content st :
  bounded C st -> bounded C (record C chatId role content st).
Proof.
  intros Hb. unfold record. destruct (now C (world C st)) as [w1 t].
  destruct (now C w1) as [w2 stamp].
  apply (bounded_addToHistory _ _ _ (world C st)). destruct st. exact Hb.
Qed.

Lemma bounded_world h w w' :
  bounded C {| conversationHistory := h; world := w |} ->
  bounded C {| conversationHistory := h; world := w' |}.
Proof. exact id. Qed.

(** X29: the local provider keeps a window of 50 messages per conversation.
    A push that makes more than 50 entries keeps exactly the newest 50; what
    remains is always a suffix of the old history followed by the new
    message; and a run of query, whatever the client answers, leaves every
    conversation within 50 messages. *)
Theorem local_history_window
    (history : list ChatMessage) (message : ChatMessage)
    (prompt chatId : string) (model systemPrompt : option string) (st : State C) :
  bounded C st ->
  (length (push_trim history message) <= 50) /\
  (exists old, history ++ [message] = old ++ push_trim history message) /\
  (50 < length (history ++ [message]) -> length (push_trim history message) = 50) /\
  last (push_trim history message) = Some message /\
  bounded C (query C prompt chatId model systemPrompt st).2.
Proof.
  intros Hb. split; [apply push_trim_bound|]. split; [|split; [|split]].
  - unfold push_trim. destruct (Nat.ltb 50 (length (history ++ [message]))).
    + eexists. symmetry. apply take_drop.
    + exists []. reflexivity.
  - intros Hlt. unfold push_trim.
    destruct (Nat.ltb_spec 50 (length (history ++ [message]))) as [_|Hle]; [|lia].
    rewrite length_drop. lia.
  - apply push_trim_last.
  - unfold query.
    pose proof (bounded_record chatId "user" prompt st Hb) as Hb1.
    destruct (chat C _ _ _) as [w outcome].
    assert (Hb2 : bounded C {| conversationHistory :=
                                 conversationHistory C (record C chatId "user" prompt st);
                               world := w |}).
    { destruct (record C chatId "user" prompt st). exact Hb1. }
    destruct outcome as [error|parts [error|]]; simpl; try exact Hb2.
    apply bounded_record, Hb2.
Qed.

(** X30: clearHistory(chatId) forgets one conversation and leaves the others
    as they are: the next query of that chat sends the new prompt alone,
    behind the system prompt if there is one. Called without an id, or with
    the empty string, it forgets every conversation. *)
Theorem cleared_chat_starts_over
    (prompt chatId system : string) (st : State C) :
  truthy chatId = true ->
  truthy system = true ->
  let cleared := clearHistory C (Some chatId) st in
  let user := {| out_role := "user"; out_content := prompt |} in
  getHistory C chatId cleared = [] /\
  (forall other, other <> chatId -> getHistory C other cleared = getHistory C other st) /\
  request_of C prompt chatId None cleared = [user] /\
  request_of C prompt chatId (Some system) cleared =
    [{| out_role := "system"; out_content := system |}; user] /\
  conversationHistory C (clearHistory C None st) = ∅ /\
  conversationHistory C (clearHistory C (Some EmptyString) st) = ∅.
Proof.
  intros Hc Hs. cbv zeta. unfold clearHistory. rewrite Hc.
  set (cleared := {| conversationHistory := delete chatId (conversationHistory C st);
                     world := world C st |}).
  assert (Hreq : forall sp,
            request_of C prompt chatId sp cleared =
            request_messages sp
              [{| msg_id := "msg_" +:+ pretty (now C (world C st)).2;
                  msg_role := "user"; msg_content := prompt;
                  msg_timestamp := (now C (now C (world C st)).1).2 |}]).
  { intros sp. unfold request_of, record, cleared. simpl.
    destruct (now C (world C st)) as [w1 t]. destruct (now C w1) as [w2 stamp]. simpl.
    rewrite getHistory_addToHistory, lookup_delete_eq. reflexivity. }
  split; [unfold getHistory, cleared; simpl; rewrite lookup_delete_eq; reflexivity|].
  split.
  { intros other Hne. unfold getHistory, cleared. simpl.
    rewrite lookup_delete_ne by congruence. reflexivity. }
  rewrite !Hreq. simpl. rewrite Hs. repeat split; reflexivity.
Qed.

End WithClient.
End OllamaFacts.

Module OllamaExamples.
Import Js JsString Ollama OllamaFacts OllamaData.

Lemma local_history_window_witness :
  bounded steady (fresh steady 0%Z) /\
  last (push_trim [] greeting) = Some greeting /\
  bounded steady answered /\
  length (getHistory steady "c1" answered) = 2.
Proof.
  assert (Hb : bounded steady (fresh steady 0%Z)).
  { intros c h Hl. simpl in Hl. rewrite lookup_empty in Hl. discriminate. }
  destruct (local_history_window steady [] greeting "hi" "c1" None None (fresh steady 0%Z) Hb)
    as (_ & _ & _ & Hlast & Hafter).
  split; [exact Hb|]. split; [exact Hlast|]. split; [exact Hafter|].
  vm_compute. reflexivity.
Defined.

Lemma cleared_chat_starts_over_witness :
  truthy "c1" = true /\
  truthy "Be brief." = true /\
  length (getHistory steady "c1" answered) = 2 /\
  request_of steady "again" "c1" (Some "Be brief.") (clearHistory steady (Some "c1") answered) =
    [ {| out_role := "system"; out_content := "Be brief." |};
      {| out_role := "user"; out_content := "again" |} ].
Proof.
  assert (Hc : truthy "c1" = true) by reflexivity.
  assert (Hs : truthy "Be brief." = true) by reflexivity.
  split; [exact Hc|]. split; [exact Hs|]. split; [vm_compute; reflexivity|].
  destruct (cleared_chat_starts_over steady "again" "c1" "Be brief." answered Hc Hs)
    as (_ & _ & _ & Hreq & _).
  exact Hreq.
Defined.

End OllamaExamples.
